(** * FormAutomation.js: a shallow embedding and its verified properties

    The script drives one browser page through
    load -> validate -> fill -> submit -> confirm.  The embedding keeps the
    shape of the source: JavaScript strings are sequences of UTF-16 code
    units, the two regular-expression literals are terms of a small regex
    syntax run by a backtracking matcher, and every [async] function is a
    computation in a state/exception monad that records the calls it makes
    on the browser, the file system and the console. *)

From Stdlib Require Import List Bool Arith NArith Lia String Ascii DecimalString.
Import ListNotations.

Set Implicit Arguments.

(** ** JavaScript strings *)

Module JsString.

(** A string value: its UTF-16 code units. *)
Definition jsstring := list N.

(** An ASCII literal of the source, as code units. *)
Definition js (s : string) : jsstring :=
  map N_of_ascii (list_ascii_of_string s).

(** The character U+0022, written between the pieces of a literal that
    contains it. *)
Definition dquote : jsstring := [34%N].

Definition jsstring_eqb (a b : jsstring) : bool :=
  if list_eq_dec N.eq_dec a b then true else false.

(** Template-literal rendering of a non-negative integer. *)
Definition decimal (n : N) : jsstring :=
  js (NilEmpty.string_of_uint (N.to_uint n)).

Fixpoint startsWith (s pre : jsstring) : bool :=
  match pre, s with
  | [], _ => true
  | _ :: _, [] => false
  | p :: pre', c :: s' => N.eqb p c && startsWith s' pre'
  end.

(** [String.prototype.includes]: the search string occurs at some index. *)
Fixpoint includes (s sub : jsstring) : bool :=
  startsWith s sub ||
  match s with
  | [] => false
  | _ :: s' => includes s' sub
  end.

(** ECMAScript LineTerminator: LF, CR, LS, PS. *)
Definition isLineTerminator (c : N) : bool :=
  existsb (N.eqb c) [10; 13; 8232; 8233]%N.

(** ECMAScript WhiteSpace or LineTerminator: what [\s] matches and what
    [String.prototype.trim] strips. *)
Definition isWhiteSpace (c : N) : bool :=
  existsb (N.eqb c) [9; 11; 12; 32; 160; 5760; 8239; 8287; 12288; 65279]%N
  || (N.leb 8192 c && N.leb c 8202)
  || isLineTerminator c.

Fixpoint trimStart (s : jsstring) : jsstring :=
  match s with
  | c :: s' => if isWhiteSpace c then trimStart s' else s
  | [] => []
  end.

Definition trimEnd (s : jsstring) : jsstring := rev (trimStart (rev s)).

(** [String.prototype.trim]. *)
Definition trim (s : jsstring) : jsstring := trimEnd (trimStart s).

End JsString.
Export JsString.

Arguments js s%_string.

(** ** Regular expressions (no flags) *)

Module RegExp.

Inductive CharClass : Type :=
| CcChar (c : N)      (* a pattern character *)
| CcSpace             (* \s *)
| CcDot.              (* .  (no s flag: any unit but a line terminator) *)

Inductive Regex : Type :=
| ReEmpty
| ReAtom (cc : CharClass)
| ReStar (cc : CharClass)                (* cc*  greedy *)
| RePlus (cc : CharClass)                (* cc+  greedy *)
| ReBol                                  (* ^    (no m flag) *)
| ReEol                                  (* $    (no m flag) *)
| ReNegLookahead (r : Regex)             (* (?!r) *)
| ReSeq (a b : Regex).

Definition classMatches (cc : CharClass) (c : N) : bool :=
  match cc with
  | CcChar p => N.eqb p c
  | CcSpace => isWhiteSpace c
  | CcDot => negb (isLineTerminator c)
  end.

(** A matcher state is the index reached and the input left from there;
    a continuation says whether the rest of the pattern matches. *)
Definition Continuation := nat -> jsstring -> bool.

(** Greedy repetition: consume one more unit first, fall back to the
    continuation when that fails. *)
Fixpoint repeatMatcher (cc : CharClass) (k : Continuation)
         (i : nat) (rest : jsstring) : bool :=
  match rest with
  | c :: t =>
      if classMatches cc c
      then repeatMatcher cc k (S i) t || k i rest
      else k i rest
  | [] => k i rest
  end.

Definition atomMatcher (cc : CharClass) (k : Continuation)
           (i : nat) (rest : jsstring) : bool :=
  match rest with
  | c :: t => classMatches cc c && k (S i) t
  | [] => false
  end.

Fixpoint matcher (r : Regex) (k : Continuation) (i : nat) (rest : jsstring)
  : bool :=
  match r with
  | ReEmpty => k i rest
  | ReAtom cc => atomMatcher cc k i rest
  | ReStar cc => repeatMatcher cc k i rest
  | RePlus cc => atomMatcher cc (repeatMatcher cc k) i rest
  | ReBol => Nat.eqb i 0 && k i rest
  | ReEol => match rest with [] => k i rest | _ :: _ => false end
  | ReNegLookahead r' =>
      if matcher r' (fun _ _ => true) i rest then false else k i rest
  | ReSeq a b => matcher a (matcher b k) i rest
  end.

(** [RegExpBuiltinExec] for a regex that is neither global nor sticky:
    try index 0, then every later index up to the length of the input. *)
Fixpoint execFrom (r : Regex) (i : nat) (rest : jsstring) : bool :=
  matcher r (fun _ _ => true) i rest ||
  match rest with
  | [] => false
  | _ :: t => execFrom r (S i) t
  end.

Definition exec (r : Regex) (s : jsstring) : bool := execFrom r 0 s.

End RegExp.
Export RegExp.

(** ** Values read from an object *)

Inductive JsValue : Type :=
| JsUndefined
| JsString (s : jsstring).

(** The abstract operation ToString on the values above. *)
Definition ToString (v : JsValue) : jsstring :=
  match v with
  | JsUndefined => js "undefined"
  | JsString s => s
  end.

(** [RegExp.prototype.test] converts its argument with ToString first. *)
Definition RegExp_test (r : Regex) (v : JsValue) : bool :=
  exec r (ToString v).

(** An object with string-valued own properties, in insertion order: the
    form data as [runAutomation] builds it, and [config.selectors].  What
    the validator does on other arguments and on other property values is
    [validateFormDataOfAny] below. *)
Definition JsObject := list (jsstring * jsstring).

(** [o[k]]: the property's value, or [undefined] when [o] has no such key. *)
Fixpoint getProp (o : JsObject) (k : jsstring) : JsValue :=
  match o with
  | [] => JsUndefined
  | (k', v) :: o' => if jsstring_eqb k' k then JsString v else getProp o' k
  end.

(** A decimal digit. *)
Definition isDigit (c : N) : bool := N.leb 48 c && N.leb c 57.

(** The integer written by a string of digits. *)
Definition digitsValue (s : jsstring) : N :=
  fold_left (fun acc c => (acc * 10 + (c - 48))%N) s 0%N.

(** An array index: the canonical numeric string (digits only, no leading
    zero unless it is "0") of an integer from 0 to 2^32 - 2. *)
Definition isArrayIndex (key : jsstring) : bool :=
  match key with
  | [] => false
  | c :: rest =>
      forallb isDigit key
      && (negb (N.eqb c 48) || match rest with [] => true | _ :: _ => false end)
      && N.ltb (digitsValue key) 4294967295
  end.

Fixpoint insertByIndex (entry : jsstring * jsstring)
         (sorted : list (jsstring * jsstring)) : list (jsstring * jsstring) :=
  match sorted with
  | [] => [entry]
  | e :: rest =>
      if N.leb (digitsValue (fst entry)) (digitsValue (fst e))
      then entry :: sorted
      else e :: insertByIndex entry rest
  end.

Definition sortByIndex (entries : list (jsstring * jsstring))
  : list (jsstring * jsstring) :=
  fold_right insertByIndex [] entries.

(** OrdinaryOwnPropertyKeys on string keys: the array indices in ascending
    numeric order, then the other keys in insertion order. *)
Definition ownEntries (o : JsObject) : list (jsstring * jsstring) :=
  sortByIndex (filter (fun p => isArrayIndex (fst p)) o)
  ++ filter (fun p => negb (isArrayIndex (fst p))) o.

Definition Object_entries (o : JsObject) : list (jsstring * jsstring) :=
  ownEntries o.
Definition Object_values (o : JsObject) : list jsstring :=
  map snd (ownEntries o).

(** ** Configuration (the [config] constant) *)

Module config.
Definition formUrl := js "https://testsite.getjones.com/ExampleForm/".
Module selectors.
Definition name := js "#name".
Definition email := js "#email".
Definition phone := js "#phone".
Definition company := js "#company".
Definition employees := js "#employees".
Definition submitButton := js "button.primary.button".
End selectors.
(** [config.selectors] as an object, for [Object.values]. *)
Definition selectorsObject : JsObject :=
  [ (js "name", selectors.name); (js "email", selectors.email);
    (js "phone", selectors.phone); (js "company", selectors.company);
    (js "employees", selectors.employees);
    (js "submitButton", selectors.submitButton) ].
Definition thankYouPage := js "thank-you.html".
Definition thankYouText := [ js "Thank you!"; js "You'll hear from us soon." ].
End config.

(** ** validateFormData: the rules *)

(** [/@/] *)
Definition emailRegex : Regex := ReAtom (CcChar 64).

(** [/^(?!\s*$).+/] *)
Definition nonEmptyRegex : Regex :=
  ReSeq ReBol
        (ReSeq (ReNegLookahead (ReSeq (ReStar CcSpace) ReEol))
               (RePlus CcDot)).

Definition msgNameEmpty := js "Name cannot be empty.".
Definition msgEmailInvalid :=
  js "Invalid email format. Email must contain " ++ dquote ++ js "@" ++ dquote
     ++ js " character, Please fill out this field.".
Definition msgPhoneEmpty :=
  js "Phone number cannot be empty, Please fill out this field.".
Definition msgCompanyEmpty :=
  js "Company name cannot be empty, Please fill out this field.".

(** [errors.push(msg)] guarded by [if (!re.test(v))]. *)
Definition pushUnless (ok : bool) (msg : jsstring) (errors : list jsstring)
  : list jsstring :=
  if ok then errors else errors ++ [msg].

(** The [errors] array as it stands at line 80 of the source. *)
Definition validationErrors (formData : JsObject) : list jsstring :=
  let errors := [] in
  let errors := pushUnless (RegExp_test nonEmptyRegex
                              (getProp formData config.selectors.name))
                           msgNameEmpty errors in
  let errors := pushUnless (RegExp_test emailRegex
                              (getProp formData config.selectors.email))
                           msgEmailInvalid errors in
  let errors := pushUnless (RegExp_test nonEmptyRegex
                              (getProp formData config.selectors.phone))
                           msgPhoneEmpty errors in
  let errors := pushUnless (RegExp_test nonEmptyRegex
                              (getProp formData config.selectors.company))
                           msgCompanyEmpty errors in
  errors.

(** ** Errors, events and the driver *)

(** An exception value: the [name], [code] and [message] of an Error. *)
Record JsError : Type := mkError {
  errName : jsstring;
  errCode : option jsstring;
  errMessage : jsstring
}.

(** [new Error(message)] *)
Definition newError (message : jsstring) : JsError :=
  mkError (js "Error") None message.

(** What evaluating an identifier that has no binding throws. *)
Definition ReferenceError (ident : jsstring) : JsError :=
  mkError (js "ReferenceError") None (ident ++ js " is not defined").

(** How a call into the environment completes. *)
Inductive Completion (A : Type) : Type :=
| Normal (a : A)
| Abrupt (e : JsError).
Arguments Abrupt {A} e.

(** Every call the script makes outside itself, with its arguments. *)
Inductive Event : Type :=
| ConsoleLog (time : N) (message : jsstring)
| PuppeteerLaunch (headless : bool)
| BrowserPages
| BrowserNewPage
| BrowserClose
| PageGoto (url : jsstring)
| PageWaitForSelector (selector : jsstring) (visible : bool) (timeout : N)
| PageType (selector text : jsstring) (delay : N)
| PageSelect (selector value : jsstring)
| PageClick (selector : jsstring)
| PageScreenshot (path : jsstring) (fullPage : bool)
| PageWaitForNavigation (waitUntil : jsstring) (timeout : N)
| PageUrl
| PageEvaluateInnerText
| FsAccess (path : jsstring)
| FsMkdir (path : jsstring) (recursive : bool)
| ReadlineQuestion (prompt : jsstring)
| ReadlineClose
| ProcessExit (code : N).

(** The environment the script runs in: puppeteer, fs, path, readline, the
    clock and the random source, as transitions on a state [W] of the
    outside world. *)
Record Driver (W : Type) : Type := {
  clock : nat -> N;                    (* the k-th reading of the clock *)
  randomFloor100 : nat -> N;           (* the k-th Math.floor(Math.random() * 100) *)
  dirname : jsstring;                  (* __dirname *)
  path_join : jsstring -> jsstring -> jsstring;
  puppeteer_launch : W -> Completion unit * W;
  browser_pages : W -> Completion nat * W;      (* how many pages are open *)
  browser_newPage : W -> Completion unit * W;
  browser_close : W -> Completion unit * W;
  page_goto : jsstring -> W -> Completion unit * W;
  page_waitForSelector : jsstring -> bool -> N -> W -> Completion unit * W;
  page_type : jsstring -> jsstring -> N -> W -> Completion unit * W;
  page_select : jsstring -> jsstring -> W -> Completion unit * W;
  page_click : jsstring -> W -> Completion unit * W;
  page_screenshot : jsstring -> W -> Completion unit * W;
  page_waitForNavigation : W -> Completion unit * W;
  page_url : W -> jsstring;
  page_innerText : W -> Completion jsstring * W;
  fs_access : jsstring -> W -> Completion unit * W;
  fs_mkdir : jsstring -> W -> Completion unit * W;
  stdin_line : W -> bool * W           (* does a line ever arrive on stdin *)
}.

(** ** The monad of the script *)

Record State (W : Type) : Type := mkState {
  world : W;
  clockReads : nat;
  randomDraws : nat
}.

Inductive Outcome (A : Type) : Type :=
| Returned (a : A)
| Thrown (e : JsError)
| Exited (code : N).
Arguments Thrown {A} e.
Arguments Exited {A} code.

Record Run (W A : Type) : Type := mkRun {
  outcome : Outcome A;
  final : State W;
  trace : list Event
}.

Definition M (W A : Type) : Type := State W -> Run W A.

Definition ret {W A} (a : A) : M W A :=
  fun s => mkRun (Returned a) s [].

Definition throw {W A} (e : JsError) : M W A :=
  fun s => mkRun (Thrown e) s [].

Definition bind {W A B} (m : M W A) (f : A -> M W B) : M W B :=
  fun s =>
    match m s with
    | mkRun (Returned a) s1 t1 =>
        match f a s1 with
        | mkRun o s2 t2 => mkRun o s2 (t1 ++ t2)
        end
    | mkRun (Thrown e) s1 t1 => mkRun (Thrown e) s1 t1
    | mkRun (Exited c) s1 t1 => mkRun (Exited c) s1 t1
    end.

(** [try { m } catch (error) { h error }] *)
Definition tryCatch {W A} (m : M W A) (h : JsError -> M W A) : M W A :=
  fun s =>
    match m s with
    | mkRun (Thrown e) s1 t1 =>
        match h e s1 with
        | mkRun o s2 t2 => mkRun o s2 (t1 ++ t2)
        end
    | r => r
    end.

Declare Scope js_scope.
Delimit Scope js_scope with js.
Notation "x <- m ;; k" := (bind m (fun x => k))
  (at level 61, m at next level, right associativity) : js_scope.
Notation "m ;; k" := (bind m (fun _ => k))
  (at level 61, right associativity) : js_scope.
Open Scope js_scope.

(** [for (const x of xs) { body x }] *)
Fixpoint forOf {W A} (xs : list A) (body : A -> M W unit) : M W unit :=
  match xs with
  | [] => ret tt
  | x :: xs' => body x ;; forOf xs' body
  end.

(** ** The script *)

Section Script.

Context {W : Type} (drv : Driver W).

(** Record a call and let the driver carry it out. *)
Definition call {A} (ev : Event) (op : W -> Completion A * W) : M W A :=
  fun s =>
    let '(c, w) := op (world s) in
    let s' := mkState w (clockReads s) (randomDraws s) in
    match c with
    | Normal a => mkRun (Returned a) s' [ev]
    | Abrupt e => mkRun (Thrown e) s' [ev]
    end.

(** [Date.now()] and [new Date()]: the next reading of the clock. *)
Definition Date_now : M W N :=
  fun s =>
    mkRun (Returned (clock drv (clockReads s)))
          (mkState (world s) (S (clockReads s)) (randomDraws s)) [].

(** [Math.floor(Math.random() * 100)] *)
Definition Math_floor_random_100 : M W N :=
  fun s =>
    mkRun (Returned (randomFloor100 drv (randomDraws s)))
          (mkState (world s) (clockReads s) (S (randomDraws s))) [].

Definition console_log (time : N) (message : jsstring) : M W unit :=
  fun s => mkRun (Returned tt) s [ConsoleLog time message].

(** [process.exit(code)]: nothing after it runs. *)
Definition process_exit {A} (code : N) : M W A :=
  fun s => mkRun (Exited code) s [ProcessExit code].

Definition logWithTimestamp (message : jsstring) : M W unit :=
  t <- Date_now ;; console_log t message.

Definition puppeteer_launch_ (headless : bool) : M W unit :=
  call (PuppeteerLaunch headless) (puppeteer_launch drv).
Definition browser_pages_ : M W nat := call BrowserPages (browser_pages drv).
Definition browser_newPage_ : M W unit :=
  call BrowserNewPage (browser_newPage drv).
Definition browser_close_ : M W unit := call BrowserClose (browser_close drv).
Definition page_goto_ (url : jsstring) : M W unit :=
  call (PageGoto url) (page_goto drv url).
Definition page_waitForSelector_ (selector : jsstring) (visible : bool)
           (timeout : N) : M W unit :=
  call (PageWaitForSelector selector visible timeout)
       (page_waitForSelector drv selector visible timeout).
Definition page_type_ (selector text : jsstring) (delay : N) : M W unit :=
  call (PageType selector text delay) (page_type drv selector text delay).
Definition page_select_ (selector value : jsstring) : M W unit :=
  call (PageSelect selector value) (page_select drv selector value).
Definition page_click_ (selector : jsstring) : M W unit :=
  call (PageClick selector) (page_click drv selector).
(** [page.screenshot({ path, fullPage: true })] *)
Definition page_screenshot_ (path : jsstring) : M W unit :=
  call (PageScreenshot path true) (page_screenshot drv path).
(** [page.waitForNavigation({ waitUntil: 'networkidle0', timeout })] *)
Definition page_waitForNavigation_ (waitUntil : jsstring) (timeout : N)
  : M W unit :=
  call (PageWaitForNavigation waitUntil timeout) (page_waitForNavigation drv).
(** [page.url()] is a synchronous read of the page. *)
Definition page_url_ : M W jsstring :=
  fun s => mkRun (Returned (page_url drv (world s))) s [PageUrl].
(** [page.evaluate(() => document.body.innerText)] *)
Definition page_evaluate_innerText : M W jsstring :=
  call PageEvaluateInnerText (page_innerText drv).
Definition fs_access_ (path : jsstring) : M W unit :=
  call (FsAccess path) (fs_access drv path).
(** [fs.mkdir(path, { recursive: true })] *)
Definition fs_mkdir_ (path : jsstring) : M W unit :=
  call (FsMkdir path true) (fs_mkdir drv path).

Definition ensureDirectoryExists (dirPath : jsstring) : M W unit :=
  tryCatch
    (fs_access_ dirPath ;;
     logWithTimestamp (js "Directory verified: " ++ dirPath))
    (fun error =>
       match errCode error with
       | Some code =>
           if jsstring_eqb code (js "ENOENT") then
             fs_mkdir_ dirPath ;;
             logWithTimestamp (js "Directory created: " ++ dirPath)
           else
             logWithTimestamp (js "Failed to access directory " ++ dirPath
                                  ++ js ": " ++ errMessage error) ;;
             throw error
       | None =>
           logWithTimestamp (js "Failed to access directory " ++ dirPath
                                ++ js ": " ++ errMessage error) ;;
           throw error
       end).

Definition msgValidationPassed :=
  js "All fields passed validation successfully ! ".
Definition msgRule :=
  js "-----------------------------------------------------------------------------".

Definition validateFormData (formData : JsObject) : M W (list jsstring) :=
  let errors := validationErrors formData in
  (if Nat.eqb (List.length errors) 0 then
     logWithTimestamp msgValidationPassed ;;
     logWithTimestamp msgRule
   else ret tt) ;;
  ret errors.

Definition fillFormFields (formData : JsObject) : M W unit :=
  logWithTimestamp (js "Filling form fields...") ;;
  forOf (Object_entries formData) (fun '(selector, value) =>
    tryCatch
      (page_waitForSelector_ selector true 20000 ;;
       r <- Math_floor_random_100 ;;
       page_type_ selector value (r + 50) ;;
       logWithTimestamp (js "Field " ++ dquote ++ selector ++ dquote
                            ++ js " filled with value: " ++ value
                            ++ js " (valid)."))
      (fun error =>
         logWithTimestamp (js "Error filling field " ++ selector ++ js ": "
                              ++ errMessage error) ;;
         throw error)).

Definition ensureFormLoaded : M W unit :=
  logWithTimestamp (js "Ensuring all form fields are loaded...") ;;
  tryCatch
    (page_waitForSelector_ (js "body") false 30000 ;;
     let allSelectors := Object_values config.selectorsObject in
     forOf allSelectors (fun selector =>
       page_waitForSelector_ selector true 20000) ;;
     logWithTimestamp (js "All form fields loaded successfully."))
    (fun error =>
       logWithTimestamp (js "Error ensuring form loaded: "
                            ++ errMessage error) ;;
       throw error).

(** One pass of the loop body of [retryClick]: [Some tt] when the function
    returned from inside the [try], [None] when the loop goes on. *)
Definition retryClickAttempt (selector : jsstring) (retries attempt : nat)
  : M W (option unit) :=
  tryCatch
    (logWithTimestamp (js "Attempt " ++ decimal (N.of_nat attempt)
                          ++ js ": Clicking on Request a call back button ("
                          ++ selector ++ js ").") ;;
     page_waitForSelector_ selector true 10000 ;;
     page_click_ selector ;;
     logWithTimestamp (js "Click successful on attempt "
                          ++ decimal (N.of_nat attempt) ++ js " for "
                          ++ selector ++ js " .") ;;
     ret (Some tt))
    (fun error =>
       logWithTimestamp (js "Attempt " ++ decimal (N.of_nat attempt)
                            ++ js " failed for " ++ selector ++ js ": "
                            ++ errMessage error) ;;
       if Nat.eqb attempt retries then
         logWithTimestamp (js "All " ++ decimal (N.of_nat retries)
                              ++ js " attempts to click " ++ selector
                              ++ js " failed.") ;;
         throw error
       else ret None).

(** [for (let attempt = 1; attempt <= retries; attempt++)], with [remaining]
    the number of values of [attempt] still to come: retries + 1 - attempt. *)
Fixpoint retryClickLoop (selector : jsstring) (retries remaining attempt : nat)
  : M W unit :=
  match remaining with
  | O => ret tt
  | S remaining' =>
      r <- retryClickAttempt selector retries attempt ;;
      match r with
      | Some _ => ret tt
      | None => retryClickLoop selector retries remaining' (S attempt)
      end
  end.

Definition retryClick (selector : jsstring) (retries : nat) : M W unit :=
  retryClickLoop selector retries retries 1.

Definition validateThankYouPageContent (screenshotsDir : jsstring) : M W bool :=
  currentURL <- page_url_ ;;
  logWithTimestamp (js "Current URL: " ++ currentURL) ;;
  if includes currentURL config.thankYouPage then
    logWithTimestamp (js "Thank you page reached successfully.") ;;
    ret true
  else
    r <- tryCatch
           (pageContent <- page_evaluate_innerText ;;
            if forallb (fun text => includes pageContent text)
                       config.thankYouText
            then
              logWithTimestamp
                (js "Thank you page content validated successfully.") ;;
              ret (Some true)
            else
              logWithTimestamp
                (js "Content validation failed. Some expected text is missing.") ;;
              ret None)
           (fun error =>
              logWithTimestamp (js "Error validating page content:") ;;
              throw (newError
                (js "Page validation encountered an issue, process terminated."))) ;;
    match r with
    | Some b => ret b
    | None =>
        now <- Date_now ;;
        let errorScreenshotPath :=
          path_join drv screenshotsDir
            (js "validation_failed_" ++ decimal now ++ js ".png") in
        page_screenshot_ errorScreenshotPath ;;
        logWithTimestamp (js "Screenshot saved for validation failure: "
                             ++ errorScreenshotPath) ;;
        ret false
    end.

Definition submitFormAndValidate (submitButtonSelector screenshotsDir : jsstring)
  : M W bool :=
  logWithTimestamp (js "Preparing to submit the form...") ;;
  now <- Date_now ;;
  let screenshotPath :=
    path_join drv screenshotsDir
      (js "before_submission_" ++ decimal now ++ js ".png") in
  page_screenshot_ screenshotPath ;;
  logWithTimestamp (js "Screenshot captured before form submission.") ;;
  tryCatch
    (retryClick submitButtonSelector 3 ;;
     logWithTimestamp (js "Form submitted, waiting for navigation...") ;;
     logWithTimestamp msgRule ;;
     page_waitForNavigation_ (js "networkidle0") 30000)
    (fun error =>
       logWithTimestamp (js "Error during form submission:") ;;
       now <- Date_now ;;
       let errorScreenshotPath :=
         path_join drv screenshotsDir
           (js "submission_error_" ++ decimal now ++ js ".png") in
       page_screenshot_ errorScreenshotPath ;;
       logWithTimestamp (js "Error screenshot saved: " ++ errorScreenshotPath) ;;
       throw error) ;;
  validateThankYouPageContent screenshotsDir.

(** The [formData] literal of [runAutomation]. *)
Definition theFormData : JsObject :=
  [ (config.selectors.name, js "Eden Oved");
    (config.selectors.email, js "edenoved.swe@gmail.com");
    (config.selectors.phone, js "+972 54-324-1555");
    (config.selectors.company, js "Jones Software") ].

Definition rl_question (prompt : jsstring) : M W unit :=
  fun s => mkRun (Returned tt) s [ReadlineQuestion prompt].

Definition rl_close : M W unit :=
  fun s => mkRun (Returned tt) s [ReadlineClose].

(** The body of [runAutomation] for a given [formData].  The source function
    returns [undefined]; the result here says whether the closing callback
    was handed to [rl.question], so that the caller can run it later. *)
Definition runAutomationWith (formData : JsObject) : M W bool :=
  logWithTimestamp (js "Starting automation...") ;;
  puppeteer_launch_ false ;;
  pages <- browser_pages_ ;;
  match pages with O => browser_newPage_ | S _ => ret tt end ;;
  tryCatch
    (page_goto_ config.formUrl ;;
     logWithTimestamp (js "Navigated to form URL.") ;;
     let screenshotsDir := path_join drv (dirname drv) (js "screenshots") in
     ensureDirectoryExists screenshotsDir ;;
     ensureFormLoaded ;;
     validationErrors <- validateFormData formData ;;
     if Nat.ltb 0 (List.length validationErrors) then
       logWithTimestamp (js "Form validation failed. Errors:") ;;
       forOf validationErrors (fun error => logWithTimestamp error) ;;
       ret false
     else
       fillFormFields formData ;;
       logWithTimestamp (js "Changing the number of employees to 51-500...") ;;
       page_select_ config.selectors.employees (js "51-500") ;;
       submissionSuccess <- submitFormAndValidate config.selectors.submitButton
                                                  screenshotsDir ;;
       (if submissionSuccess : bool then
          logWithTimestamp (js "Form successfully submitted and validated.")
        else
          logWithTimestamp (js "Form submission failed.")) ;;
       logWithTimestamp
         (js "Automation completed. Press ENTER to exit and close the browser.") ;;
       rl_question (js "Press ENTER to exit and close the browser...") ;;
       ret true)
    (fun error =>
       logWithTimestamp (js "Error during automation: " ++ errMessage error) ;;
       browser_close_ ;;
       process_exit 1).

Definition runAutomation : M W bool := runAutomationWith theFormData.

(** The callback given to [rl.question]. *)
Definition questionCallback : M W unit :=
  rl_close ;;
  browser_close_ ;;
  logWithTimestamp (js "Browser closed. Exiting script.").

(** The handler of [runAutomation().catch(...)].  It runs at module scope,
    where no [browser] is bound: the [const browser] of [runAutomation] is
    local to that function. *)
Definition unhandledErrorHandler (error : JsError) : M W bool :=
  logWithTimestamp (js "Unhandled error: " ++ errMessage error) ;;
  throw (ReferenceError (js "browser")).

(** The whole module: the call at the bottom of the file, then the
    callback if a line arrives on stdin. *)
Definition main : M W unit :=
  waiting <- tryCatch runAutomation unhandledErrorHandler ;;
  if waiting : bool then
    fun s =>
      let '(entered, w) := stdin_line drv (world s) in
      let s' := mkState w (clockReads s) (randomDraws s) in
      if entered then questionCallback s' else mkRun (Returned tt) s' []
  else ret tt.

End Script.

Definition initial {W} (w : W) : State W := mkState w 0 0.

(** ** Observations on traces *)

Definition isConsoleLog (e : Event) : bool :=
  match e with ConsoleLog _ _ => true | _ => false end.

Definition isPageType (e : Event) : bool :=
  match e with PageType _ _ _ => true | _ => false end.

(** The calls of the fill and submit steps: [page.type] and [page.select]
    fill, [page.click] submits, and the screenshot, the navigation wait and
    the reads of the URL and of the page text surround the click. *)
Definition fillsOrSubmits (e : Event) : bool :=
  match e with
  | PageType _ _ _ | PageSelect _ _ | PageClick _
  | PageScreenshot _ _ | PageWaitForNavigation _ _
  | PageUrl | PageEvaluateInnerText => true
  | _ => false
  end.

Definition isBrowserClose (e : Event) : bool :=
  match e with BrowserClose => true | _ => false end.

(** The two calls of a click attempt in [retryClick]. *)
Definition isClickAttemptCall (e : Event) : bool :=
  match e with
  | PageWaitForSelector _ _ _ | PageClick _ => true
  | _ => false
  end.

(** Reads of the page text and writes of screenshots. *)
Definition readsTextOrShoots (e : Event) : bool :=
  match e with
  | PageEvaluateInnerText | PageScreenshot _ _ => true
  | _ => false
  end.

Definition isScreenshot (e : Event) : bool :=
  match e with PageScreenshot _ _ => true | _ => false end.

(** An attempt of [retryClick] opens with exactly one
    [waitForSelector(selector, { visible: true, timeout: 10000 })]. *)
Definition opensAttempt (selector : jsstring) (e : Event) : bool :=
  match e with
  | PageWaitForSelector sel true 10000 => jsstring_eqb sel selector
  | _ => false
  end.

Definition attemptsMade (selector : jsstring) (tr : list Event) : nat :=
  List.length (filter (opensAttempt selector) tr).

(** Every computation of the script emits only events accepted by [p]. *)
Definition Emits {W A} (p : Event -> bool) (m : M W A) : Prop :=
  forall s, forallb p (trace (m s)) = true.

(** Each [page.type] in the trace comes after the validator's log line that
    all fields passed. *)
Definition TypedOnlyAfterValidation (tr : list Event) : Prop :=
  forall pre e post,
    tr = pre ++ e :: post -> isPageType e = true ->
    exists t, In (ConsoleLog t msgValidationPassed) pre.

(** One click attempt seen from the driver: wait for visibility, then click. *)
Definition clickOnce {W} (drv : Driver W) (selector : jsstring) (w : W)
  : Completion unit * W :=
  match page_waitForSelector drv selector true 10000 w with
  | (Normal _, w1) => page_click drv selector w1
  | (Abrupt e, w1) => (Abrupt e, w1)
  end.

(** ** A scripted browser for concrete runs *)

Record Sim : Type := mkSim {
  simUrl : jsstring;               (* what [page.url()] reads now *)
  simUrlAfterClick : jsstring;     (* ... and after the submit click *)
  simText : option jsstring;       (* the body text; [None]: the read rejects *)
  simClickTimeouts : nat;          (* 10s waits that still time out *)
  simScreenshotFails : bool;
  simPagesFails : bool;
  simEnter : bool;                 (* a line arrives on stdin *)
  simTyped : list (jsstring * jsstring);
  simClosed : bool
}.

Definition timeoutError : JsError :=
  mkError (js "TimeoutError") None (js "Waiting failed: 10000ms exceeded").

Definition detachedError : JsError :=
  mkError (js "Error") None (js "Node is detached from document").

Definition screenshotError : JsError :=
  mkError (js "Error") (Some (js "EACCES")) (js "EACCES: permission denied").

Definition protocolError : JsError :=
  mkError (js "ProtocolError") None (js "Target closed").

Definition simWait (waitError : JsError) (selector : jsstring) (visible : bool)
           (timeout : N) (w : Sim) : Completion unit * Sim :=
  if N.eqb timeout 10000 then
    match simClickTimeouts w with
    | O => (Normal tt, w)
    | S n =>
        (Abrupt waitError,
         mkSim (simUrl w) (simUrlAfterClick w) (simText w) n
               (simScreenshotFails w) (simPagesFails w) (simEnter w)
               (simTyped w) (simClosed w))
    end
  else (Normal tt, w).

Definition simDriver (waitError : JsError) : Driver Sim := {|
  clock := fun k => (1700000000000 + N.of_nat k)%N;
  randomFloor100 := fun k => (N.of_nat k mod 100)%N;
  dirname := js "/app";
  path_join := fun a b => a ++ js "/" ++ b;
  puppeteer_launch := fun w => (Normal tt, w);
  browser_pages := fun w =>
    if simPagesFails w then (Abrupt protocolError, w) else (Normal 1, w);
  browser_newPage := fun w => (Normal tt, w);
  browser_close := fun w =>
    (Normal tt,
     mkSim (simUrl w) (simUrlAfterClick w) (simText w) (simClickTimeouts w)
           (simScreenshotFails w) (simPagesFails w) (simEnter w)
           (simTyped w) true);
  page_goto := fun _ w => (Normal tt, w);
  page_waitForSelector := simWait waitError;
  page_type := fun selector text _ w =>
    (Normal tt,
     mkSim (simUrl w) (simUrlAfterClick w) (simText w) (simClickTimeouts w)
           (simScreenshotFails w) (simPagesFails w) (simEnter w)
           (simTyped w ++ [(selector, text)]) (simClosed w));
  page_select := fun _ _ w => (Normal tt, w);
  page_click := fun _ w =>
    (Normal tt,
     mkSim (simUrlAfterClick w) (simUrlAfterClick w) (simText w)
           (simClickTimeouts w) (simScreenshotFails w) (simPagesFails w)
           (simEnter w) (simTyped w) (simClosed w));
  page_screenshot := fun _ w =>
    if simScreenshotFails w then (Abrupt screenshotError, w)
    else (Normal tt, w);
  page_waitForNavigation := fun w => (Normal tt, w);
  page_url := simUrl;
  page_innerText := fun w =>
    match simText w with
    | Some text => (Normal text, w)
    | None => (Abrupt protocolError, w)
    end;
  fs_access := fun _ w => (Normal tt, w);
  fs_mkdir := fun _ w => (Normal tt, w);
  stdin_line := fun w => (simEnter w, w)
|}.

Definition formPageUrl := config.formUrl.
Definition thankYouUrl :=
  js "https://testsite.getjones.com/ExampleForm/thank-you.html".

(** The form page, with a thank-you page behind the submit button. *)
Definition simForm : Sim :=
  mkSim formPageUrl thankYouUrl (Some (js "Request a call back")) 0
        false false true [] false.

(** Already on the thank-you page. *)
Definition simThankYouPage : Sim :=
  mkSim thankYouUrl thankYouUrl (Some (js "unrelated text")) 0
        false false true [] false.

(** A page elsewhere that shows both thank-you texts. *)
Definition simThankYouText : Sim :=
  mkSim formPageUrl formPageUrl
        (Some (js "Thank you! You'll hear from us soon.")) 0
        false false true [] false.

(** A page elsewhere that shows only the first text. *)
Definition simHalfText : Sim :=
  mkSim formPageUrl formPageUrl (Some (js "Thank you!")) 0
        false false true [] false.

(** A page elsewhere whose text cannot be read. *)
Definition simTornDown : Sim :=
  mkSim formPageUrl formPageUrl None 0 false false true [] false.

(** The submit button never becomes visible. *)
Definition simNeverVisible : Sim :=
  mkSim formPageUrl thankYouUrl (Some (js "Request a call back")) 3
        false false true [] false.

(** The submit button becomes visible on the third wait. *)
Definition simThirdTime : Sim :=
  mkSim formPageUrl thankYouUrl (Some (js "Request a call back")) 2
        false false true [] false.

(** Screenshots cannot be written. *)
Definition simNoScreenshots : Sim :=
  mkSim formPageUrl thankYouUrl (Some (js "Request a call back")) 0
        true false true [] false.

(** The browser starts, then listing its pages rejects. *)
Definition simPagesReject : Sim :=
  mkSim formPageUrl thankYouUrl (Some (js "Request a call back")) 0
        false true true [] false.

(** Form data with the e-mail address of the failure scenario. *)
Definition formDataNoAt : JsObject :=
  [ (config.selectors.name, js "Eden Oved");
    (config.selectors.email, js "no-at-symbol");
    (config.selectors.phone, js "+972 54-324-1555");
    (config.selectors.company, js "Jones Software") ].

(** Form data whose name starts with a line feed. *)
Definition formDataLeadingNewline : JsObject :=
  [ (config.selectors.name, 10%N :: js "Eden Oved");
    (config.selectors.email, js "edenoved.swe@gmail.com");
    (config.selectors.phone, js "+972 54-324-1555");
    (config.selectors.company, js "Jones Software") ].

(** Form data from which the name, phone and company keys are absent. *)
Definition formDataOnlyEmail : JsObject :=
  [ (config.selectors.email, js "edenoved.swe@gmail.com") ].

(** ** The acceptance rule in the words of the specification *)

(** A field that is present and non-empty after trimming white space. *)
Definition nonEmptyAfterTrim (v : JsValue) : Prop :=
  exists s, v = JsString s /\ trim s <> [].

(** A field that is present and contains at least one [@]. *)
Definition containsAt (v : JsValue) : Prop :=
  exists s, v = JsString s /\ In 64%N s.

Definition wellFilled (formData : JsObject) : Prop :=
  nonEmptyAfterTrim (getProp formData config.selectors.name) /\
  containsAt (getProp formData config.selectors.email) /\
  nonEmptyAfterTrim (getProp formData config.selectors.phone) /\
  nonEmptyAfterTrim (getProp formData config.selectors.company).

(** A field that is present and does not open with a line terminator. *)
Definition opensOnItsLine (v : JsValue) : Prop :=
  match v with
  | JsString (c :: _) => isLineTerminator c = false
  | _ => True
  end.

(** ** Trace disciplines of whole computations *)

(** The validator's log line that all fields passed. *)
Definition isValidationPassed (e : Event) : bool :=
  match e with
  | ConsoleLog _ message => jsstring_eqb message msgValidationPassed
  | _ => false
  end.

(** Some log line of the trace carries [message]. *)
Definition logged (message : jsstring) (tr : list Event) : bool :=
  existsb (fun e => match e with
                    | ConsoleLog _ m => jsstring_eqb m message
                    | _ => false
                    end) tr.

(** In every run of [m], typing waits for the validator's log line. *)
Definition Gated {W A} (m : M W A) : Prop :=
  forall s, TypedOnlyAfterValidation (trace (m s)).

(** ** Further observations, for the functions around the workflow *)

(** The calls other than [console.log], in the order they were made. *)
Definition calls (tr : list Event) : list Event :=
  filter (fun e => negb (isConsoleLog e)) tr.

(** [error.code === 'ENOENT'] *)
Definition isENOENT (error : JsError) : bool :=
  match errCode error with
  | Some code => jsstring_eqb code (js "ENOENT")
  | None => false
  end.

(** The waits of [ensureFormLoaded] in source order: the body, then the
    values of [config.selectors]. *)
Definition formLoadWaits : list Event :=
  PageWaitForSelector (js "body") false 30000
  :: map (fun selector => PageWaitForSelector selector true 20000)
         (Object_values config.selectorsObject).

(** The calls of [fillFormFields] on [entries] when none of them fails, the
    next random draw being the [k]-th. *)
Fixpoint fillCalls {W} (drv : Driver W) (k : nat)
         (entries : list (jsstring * jsstring)) : list Event :=
  match entries with
  | [] => []
  | (selector, value) :: rest =>
      PageWaitForSelector selector true 20000
      :: PageType selector value (randomFloor100 drv k + 50)
      :: fillCalls drv (S k) rest
  end.

(** A typing delay of at least 50 and less than 150. *)
Definition typingDelayInRange (e : Event) : bool :=
  match e with
  | PageType _ _ delay => N.leb 50 delay && N.ltb delay 150
  | _ => true
  end.

Definition isPageClick (e : Event) : bool :=
  match e with PageClick _ => true | _ => false end.

Definition isEmployeesSelect (e : Event) : bool :=
  match e with
  | PageSelect selector value =>
      jsstring_eqb selector config.selectors.employees
      && jsstring_eqb value (js "51-500")
  | _ => false
  end.

Definition isNavigationWait (e : Event) : bool :=
  match e with PageWaitForNavigation _ _ => true | _ => false end.

Definition isQuestion (e : Event) : bool :=
  match e with ReadlineQuestion _ => true | _ => false end.

Definition isProcessExit (e : Event) : bool :=
  match e with ProcessExit _ => true | _ => false end.

Definition isPageUrl (e : Event) : bool :=
  match e with PageUrl => true | _ => false end.

(** Each event accepted by [isA] comes after some event accepted by [isB]. *)
Definition OnlyAfter (isB isA : Event -> bool) (tr : list Event) : Prop :=
  forall pre e post,
    tr = pre ++ e :: post -> isA e = true -> existsb isB pre = true.

(** No run of [m] ends in [process.exit]. *)
Definition NoExit {W A} (m : M W A) : Prop :=
  forall s c, outcome (m s) <> Exited c.

(** No run of [m] completes normally. *)
Definition NeverReturns {W A} (m : M W A) : Prop :=
  forall s a, outcome (m s) <> Returned a.

(** The verdict of a rule of the validator on a field, spelled out: the
    non-empty rule lets a missing key through, and otherwise wants a unit
    that is not white space and a first unit that is not a line
    terminator; the e-mail rule wants the key present and an [@]. *)
Definition passesNonEmpty (v : JsValue) : Prop :=
  match v with
  | JsUndefined => True
  | JsString s =>
      (exists c, In c s /\ isWhiteSpace c = false) /\
      opensOnItsLine (JsString s)
  end.

Definition passesEmail (v : JsValue) : Prop :=
  match v with
  | JsUndefined => False
  | JsString s => In 64%N s
  end.

(** A scripted driver on which every wait for a selector and every
    screenshot succeeds, and every navigation wait times out. *)
Definition simDriverNoNavigation : Driver Sim :=
  let d := simDriver timeoutError in {|
  clock := clock d;
  randomFloor100 := randomFloor100 d;
  dirname := dirname d;
  path_join := path_join d;
  puppeteer_launch := puppeteer_launch d;
  browser_pages := browser_pages d;
  browser_newPage := browser_newPage d;
  browser_close := browser_close d;
  page_goto := page_goto d;
  page_waitForSelector := fun _ _ _ w => (Normal tt, w);
  page_type := page_type d;
  page_select := page_select d;
  page_click := page_click d;
  page_screenshot := fun _ w => (Normal tt, w);
  page_waitForNavigation := fun w => (Abrupt timeoutError, w);
  page_url := page_url d;
  page_innerText := page_innerText d;
  fs_access := fs_access d;
  fs_mkdir := fs_mkdir d;
  stdin_line := stdin_line d
|}.

(** The scripted driver on a machine without the screenshots directory:
    [fs.access] fails with [code]. *)
Definition accessError (code : string) : JsError :=
  mkError (js "Error") (Some (js code)) (js "no such file or directory").

Definition simDriverNoDirectory (code : string) : Driver Sim :=
  let d := simDriver timeoutError in {|
  clock := clock d;
  randomFloor100 := randomFloor100 d;
  dirname := dirname d;
  path_join := path_join d;
  puppeteer_launch := puppeteer_launch d;
  browser_pages := browser_pages d;
  browser_newPage := browser_newPage d;
  browser_close := browser_close d;
  page_goto := page_goto d;
  page_waitForSelector := page_waitForSelector d;
  page_type := page_type d;
  page_select := page_select d;
  page_click := page_click d;
  page_screenshot := page_screenshot d;
  page_waitForNavigation := page_waitForNavigation d;
  page_url := page_url d;
  page_innerText := page_innerText d;
  fs_access := fun _ w => (Abrupt (accessError code), w);
  fs_mkdir := fs_mkdir d;
  stdin_line := stdin_line d
|}.

(** ** Disciplines of the whole run *)

Definition isPageGoto (e : Event) : bool :=
  match e with PageGoto _ => true | _ => false end.

(** How many times [browser.close()] was called. *)
Definition closes (tr : list Event) : nat :=
  List.length (filter isBrowserClose tr).

(** A run that ends in [process.exit] does so with code 1, right after a
    [browser.close()] that has completed. *)
Definition ExitsAfterClose {W A} (r : Run W A) : Prop :=
  forall c, outcome r = Exited c ->
            c = 1%N /\ exists pre, trace r = pre ++ [BrowserClose; ProcessExit 1].

(** A run that throws either never navigated or has called
    [browser.close()]. *)
Definition ThrowsAfterClose {W A} (r : Run W A) : Prop :=
  forall e, outcome r = Thrown e ->
            existsb isPageGoto (trace r) = false \/
            existsb isBrowserClose (trace r) = true.

(** At most one [browser.close()], and none in a run that returns. *)
Definition ClosesAtMostOnce {W A} (r : Run W A) : Prop :=
  closes (trace r) <= 1 /\
  forall a, outcome r = Returned a -> closes (trace r) = 0.

(** The last wait of [ensureFormLoaded]: the submit button, visible, 20 s. *)
Definition isSubmitButtonLoadWait (e : Event) : bool :=
  match e with
  | PageWaitForSelector selector true 20000 =>
      jsstring_eqb selector config.selectors.submitButton
  | _ => false
  end.

(** A scripted driver for a page without the phone field: every wait on
    [#phone] times out. *)
Definition simDriverNoPhone : Driver Sim :=
  let d := simDriver timeoutError in {|
  clock := clock d;
  randomFloor100 := randomFloor100 d;
  dirname := dirname d;
  path_join := path_join d;
  puppeteer_launch := puppeteer_launch d;
  browser_pages := browser_pages d;
  browser_newPage := browser_newPage d;
  browser_close := browser_close d;
  page_goto := page_goto d;
  page_waitForSelector := fun selector _ _ w =>
    if jsstring_eqb selector config.selectors.phone
    then (Abrupt timeoutError, w) else (Normal tt, w);
  page_type := page_type d;
  page_select := page_select d;
  page_click := page_click d;
  page_screenshot := page_screenshot d;
  page_waitForNavigation := page_waitForNavigation d;
  page_url := page_url d;
  page_innerText := page_innerText d;
  fs_access := fs_access d;
  fs_mkdir := fs_mkdir d;
  stdin_line := stdin_line d
|}.

(** ** Sequences of driver calls that end at the first failure *)

(** What a sequence of driver calls comes to: the calls made, how the last
    of them completed, and the world they leave. *)
Record CallsRun (W : Type) : Type := mkCallsRun {
  callsMade : list Event;
  callsCompletion : Completion unit;
  callsWorld : W
}.

(** A function that ends the way its last call completed. *)
Definition completionOutcome {A} (c : Completion A) : Outcome A :=
  match c with
  | Normal a => Returned a
  | Abrupt e => Thrown e
  end.

(** The visibility waits (20 s) on [selectors], one after the other on the
    world the one before left; the first wait that fails is the last one
    made. *)
Fixpoint waitsUntilFailure {W} (drv : Driver W) (selectors : list jsstring)
         (w : W) : CallsRun W :=
  match selectors with
  | [] => mkCallsRun [] (Normal tt) w
  | selector :: rest =>
      let wait := PageWaitForSelector selector true 20000 in
      match page_waitForSelector drv selector true 20000 w with
      | (Normal _, w1) =>
          let run := waitsUntilFailure drv rest w1 in
          mkCallsRun (wait :: callsMade run) (callsCompletion run)
                     (callsWorld run)
      | (Abrupt e, w1) => mkCallsRun [wait] (Abrupt e) w1
      end
  end.

(** The wait on the body (30 s) and, when it succeeds, the waits on the
    values of [config.selectors], up to the first wait that fails. *)
Definition formLoadRun {W} (drv : Driver W) (w : W) : CallsRun W :=
  let wait := PageWaitForSelector (js "body") false 30000 in
  match page_waitForSelector drv (js "body") false 30000 w with
  | (Normal _, w1) =>
      let run := waitsUntilFailure drv (Object_values config.selectorsObject)
                                   w1 in
      mkCallsRun (wait :: callsMade run) (callsCompletion run)
                 (callsWorld run)
  | (Abrupt e, w1) => mkCallsRun [wait] (Abrupt e) w1
  end.

(** For each of [entries] in turn a visibility wait (20 s) on its selector
    and then the typing of its value, the next random draw being the [k]-th;
    the first call that fails is the last one made. *)
Fixpoint fillRun {W} (drv : Driver W) (k : nat)
         (entries : list (jsstring * jsstring)) (w : W) : CallsRun W :=
  match entries with
  | [] => mkCallsRun [] (Normal tt) w
  | (selector, value) :: rest =>
      let wait := PageWaitForSelector selector true 20000 in
      let type := PageType selector value (randomFloor100 drv k + 50) in
      match page_waitForSelector drv selector true 20000 w with
      | (Abrupt e, w1) => mkCallsRun [wait] (Abrupt e) w1
      | (Normal _, w1) =>
          match page_type drv selector value (randomFloor100 drv k + 50) w1
          with
          | (Abrupt e, w2) => mkCallsRun [wait; type] (Abrupt e) w2
          | (Normal _, w2) =>
              let run := fillRun drv (S k) rest w2 in
              mkCallsRun (wait :: type :: callsMade run)
                         (callsCompletion run) (callsWorld run)
          end
      end
  end.

(** No key of the object is an array index. *)
Definition noArrayIndexKeys (o : JsObject) : bool :=
  forallb (fun p => negb (isArrayIndex (fst p))) o.

(** Form data with array-index keys, inserted in descending order. *)
Definition formDataIndexKeys : JsObject :=
  [ (js "#name", js "Eden Oved");
    (js "10", js "ten");
    (js "9", js "nine") ].

(** A page elsewhere that shows only the first text, with a screenshots
    directory that cannot be written. *)
Definition simHalfTextNoScreenshots : Sim :=
  mkSim formPageUrl formPageUrl (Some (js "Thank you!")) 0
        true false true [] false.

(** ** The log lines and the calls of a click attempt *)

(** [`Attempt ${attempt}: Clicking on Request a call back button (${selector}).`] *)
Definition msgAttempt (selector : jsstring) (attempt : nat) : jsstring :=
  js "Attempt " ++ decimal (N.of_nat attempt)
     ++ js ": Clicking on Request a call back button ("
     ++ selector ++ js ").".

(** [`Click successful on attempt ${attempt} for ${selector} .`] *)
Definition msgClickSuccessful (selector : jsstring) (attempt : nat)
  : jsstring :=
  js "Click successful on attempt " ++ decimal (N.of_nat attempt)
     ++ js " for " ++ selector ++ js " .".

(** [`Attempt ${attempt} failed for ${selector}: ${error.message}`] *)
Definition msgAttemptFailed (selector : jsstring) (attempt : nat)
           (error : JsError) : jsstring :=
  js "Attempt " ++ decimal (N.of_nat attempt) ++ js " failed for "
     ++ selector ++ js ": " ++ errMessage error.

(** [`All ${retries} attempts to click ${selector} failed.`] *)
Definition msgAllFailed (selector : jsstring) (retries : nat) : jsstring :=
  js "All " ++ decimal (N.of_nat retries) ++ js " attempts to click "
     ++ selector ++ js " failed.".

(** The driver calls of one click attempt on the world [w]: the visibility
    wait (10 s) and, when the wait succeeds, the click. *)
Definition attemptCalls {W} (drv : Driver W) (selector : jsstring) (w : W)
  : list Event :=
  PageWaitForSelector selector true 10000
  :: match page_waitForSelector drv selector true 10000 w with
     | (Normal _, _) => [PageClick selector]
     | (Abrupt _, _) => []
     end.

(** ** The validator on any argument *)

(** What an operation throws on a value it cannot be applied to. *)
Definition TypeError (message : jsstring) : JsError :=
  mkError (js "TypeError") None message.

(** A value as a property can hold it.  A number, a bigint or an object is
    given by how ToString completes on it: with the decimal form of the
    number or bigint, and for an object with what its [toString] and
    [valueOf] methods produce, or with what they throw. *)
Inductive JsAny : Type :=
| AnyUndefined
| AnyNull
| AnyBoolean (b : bool)
| AnyString (s : jsstring)
| AnySymbol (description : jsstring)
| AnyOther (toString : Completion jsstring).

(** The abstract operation ToString: it throws on a Symbol. *)
Definition ToStringAny (v : JsAny) : Completion jsstring :=
  match v with
  | AnyUndefined => Normal (js "undefined")
  | AnyNull => Normal (js "null")
  | AnyBoolean true => Normal (js "true")
  | AnyBoolean false => Normal (js "false")
  | AnyString s => Normal s
  | AnySymbol _ =>
      Abrupt (TypeError (js "Cannot convert a Symbol value to a string"))
  | AnyOther toString => toString
  end.

(** What [validateFormData] can be called with: [undefined], [null], or a
    value with data properties (an object; a primitive other than the two
    has none of the keys that are read). *)
Inductive FormDataArg : Type :=
| ArgUndefined
| ArgNull
| ArgObject (properties : list (jsstring * JsAny)).

Fixpoint lookupAny (properties : list (jsstring * JsAny)) (key : jsstring)
  : JsAny :=
  match properties with
  | [] => AnyUndefined
  | (k, v) :: rest => if jsstring_eqb k key then v else lookupAny rest key
  end.

(** [formData[key]]: reading a property of [undefined] or [null] throws. *)
Definition getPropAny (formData : FormDataArg) (key : jsstring)
  : Completion JsAny :=
  match formData with
  | ArgUndefined =>
      Abrupt (TypeError (js "Cannot read properties of undefined (reading '"
                            ++ key ++ js "')"))
  | ArgNull =>
      Abrupt (TypeError (js "Cannot read properties of null (reading '"
                            ++ key ++ js "')"))
  | ArgObject properties => Normal (lookupAny properties key)
  end.

(** An operation of the language itself: no call is recorded, the state
    stays, and an abrupt completion is a throw. *)
Definition liftCompletion {W A} (c : Completion A) : M W A :=
  fun s => mkRun (completionOutcome c) s [].

(** [regex.test(formData[key])] *)
Definition testField {W} (regex : Regex) (formData : FormDataArg)
           (key : jsstring) : M W bool :=
  v <- liftCompletion (getPropAny formData key) ;;
  str <- liftCompletion (ToStringAny v) ;;
  ret (exec regex str).

(** [validateFormData] on any argument, statement by statement. *)
Definition validateFormDataOfAny {W} (drv : Driver W) (formData : FormDataArg)
  : M W (list jsstring) :=
  let errors := [] in
  ok <- testField nonEmptyRegex formData config.selectors.name ;;
  let errors := pushUnless ok msgNameEmpty errors in
  ok <- testField emailRegex formData config.selectors.email ;;
  let errors := pushUnless ok msgEmailInvalid errors in
  ok <- testField nonEmptyRegex formData config.selectors.phone ;;
  let errors := pushUnless ok msgPhoneEmpty errors in
  ok <- testField nonEmptyRegex formData config.selectors.company ;;
  let errors := pushUnless ok msgCompanyEmpty errors in
  (if Nat.eqb (List.length errors) 0 then
     logWithTimestamp drv msgValidationPassed ;;
     logWithTimestamp drv msgRule
   else ret tt) ;;
  ret errors.

(** An object with string-valued properties as an argument. *)
Definition ofStrings (o : JsObject) : FormDataArg :=
  ArgObject (map (fun p => (fst p, AnyString (snd p))) o).

(** The string that the test of the field [key] is made on, or what reading
    and converting the field throws. *)
Definition fieldString (formData : FormDataArg) (key : jsstring)
  : Completion jsstring :=
  match getPropAny formData key with
  | Normal v => ToStringAny v
  | Abrupt e => Abrupt e
  end.

(** The messages for the four strings tested. *)
Definition errorsFor (name email phone company : jsstring) : list jsstring :=
  pushUnless (exec nonEmptyRegex company) msgCompanyEmpty
    (pushUnless (exec nonEmptyRegex phone) msgPhoneEmpty
       (pushUnless (exec emailRegex email) msgEmailInvalid
          (pushUnless (exec nonEmptyRegex name) msgNameEmpty []))).

(** Form data whose name is a Symbol. *)
Definition formDataSymbolName : FormDataArg :=
  ArgObject
    [ (config.selectors.name, AnySymbol (js "Eden Oved"));
      (config.selectors.email, AnyString (js "edenoved.swe@gmail.com"));
      (config.selectors.phone, AnyString (js "+972 54-324-1555"));
      (config.selectors.company, AnyString (js "Jones Software")) ].

(** * Properties *)

(** ** Strings and the two regular expressions *)

Lemma jsstring_eqb_eq (a b : jsstring) : jsstring_eqb a b = true <-> a = b.
Proof.
  unfold jsstring_eqb. destruct (list_eq_dec N.eq_dec a b); split;
    intros; congruence.
Qed.

Lemma startsWith_spec (s pre : jsstring) :
  startsWith s pre = true <-> exists post, s = pre ++ post.
Proof.
  revert s. induction pre as [|p pre IH]; intros s; simpl.
  - split; [exists s; reflexivity | destruct s; reflexivity].
  - destruct s as [|c s]; simpl.
    + split; [discriminate | intros [post H]; discriminate].
    + rewrite andb_true_iff, N.eqb_eq, IH. split.
      * intros [-> [post ->]]. exists post; reflexivity.
      * intros [post H]. injection H as -> ->. split; [reflexivity | eauto].
Qed.

Lemma includes_spec (s sub : jsstring) :
  includes s sub = true <-> exists pre post, s = pre ++ sub ++ post.
Proof.
  induction s as [|c s IH].
  - cbn [includes]. rewrite orb_false_r, startsWith_spec. split.
    + intros [post H]. exists [], post. exact H.
    + intros [pre [post H]]. destruct pre; [eauto | discriminate].
  - cbn [includes]. rewrite orb_true_iff, startsWith_spec, IH. split.
    + intros [[post H] | [pre [post H]]].
      * exists [], post. exact H.
      * exists (c :: pre), post. simpl. congruence.
    + intros [[|p pre] [post H]].
      * left. exists post. exact H.
      * right. injection H as -> ->. eauto.
Qed.

Lemma includes_unit (s : jsstring) (c : N) :
  includes s [c] = true <-> In c s.
Proof.
  rewrite includes_spec. split.
  - intros [pre [post ->]]. apply in_or_app. right. left. reflexivity.
  - intros H. apply in_split in H. destruct H as [pre [post ->]].
    exists pre, post. reflexivity.
Qed.

Lemma trimStart_nil_iff (s : jsstring) :
  trimStart s = [] <-> forallb isWhiteSpace s = true.
Proof.
  induction s as [|c s IH]; simpl.
  - tauto.
  - destruct (isWhiteSpace c); simpl; [exact IH | split; discriminate].
Qed.

Lemma trimStart_all_white (s : jsstring) :
  forallb isWhiteSpace (trimStart s) = forallb isWhiteSpace s.
Proof.
  induction s as [|c s IH]; simpl; [reflexivity|].
  destruct (isWhiteSpace c) eqn:E; simpl; [exact IH | rewrite E; reflexivity].
Qed.

(** A string is empty after trimming exactly when all its units are white
    space. *)
Lemma trim_nil_iff (s : jsstring) :
  trim s = [] <-> forallb isWhiteSpace s = true.
Proof.
  unfold trim, trimEnd.
  rewrite <- (trimStart_all_white s).
  generalize (trimStart s) as u. intros u.
  split.
  - intros H. apply (f_equal (@rev N)) in H. rewrite rev_involutive in H.
    simpl in H. apply trimStart_nil_iff in H.
    rewrite forallb_forall in *. intros x Hx. apply H, in_rev.
    rewrite rev_involutive. exact Hx.
  - intros H.
    assert (H' : trimStart (rev u) = []).
    { apply trimStart_nil_iff. rewrite forallb_forall in *.
      intros x Hx. apply H, in_rev, Hx. }
    rewrite H'. reflexivity.
Qed.

Lemma repeatMatcher_always (cc : CharClass) (i : nat) (rest : jsstring) :
  repeatMatcher cc (fun _ _ => true) i rest = true.
Proof.
  revert i. induction rest as [|c t IH]; intros i; simpl; [reflexivity|].
  destruct (classMatches cc c); [apply orb_true_r | reflexivity].
Qed.

Lemma repeatMatcher_space_eol (i : nat) (rest : jsstring) :
  repeatMatcher CcSpace (matcher ReEol (fun _ _ => true)) i rest
  = forallb isWhiteSpace rest.
Proof.
  revert i. induction rest as [|c t IH]; intros i; simpl; [reflexivity|].
  destruct (isWhiteSpace c); simpl; [rewrite IH, orb_false_r|]; reflexivity.
Qed.

Lemma execFrom_bol_later (r : Regex) (i : nat) (rest : jsstring) :
  execFrom (ReSeq ReBol r) (S i) rest = false.
Proof.
  revert i. induction rest as [|c t IH]; intros i; simpl; [reflexivity|].
  apply IH.
Qed.

(** [/@/.test(s)]: some unit of [s] is the character [@]. *)
Lemma emailRegex_spec (s : jsstring) :
  exec emailRegex s = true <-> In 64%N s.
Proof.
  unfold exec. generalize 0 as i.
  induction s as [|c t IH]; intros i.
  - simpl. split; [discriminate | tauto].
  - cbn [execFrom emailRegex matcher atomMatcher classMatches].
    rewrite andb_true_r, orb_true_iff, IH, N.eqb_eq.
    split; (intros [H | H]; [left; congruence | right; exact H]).
Qed.

(** [/^(?!\s*$).+/.test(s)]: [s] is not all white space, and its first unit
    is not a line terminator. *)
Lemma nonEmptyRegex_spec (s : jsstring) :
  exec nonEmptyRegex s
  = negb (forallb isWhiteSpace s)
    && match s with
       | c :: _ => negb (isLineTerminator c)
       | [] => false
       end.
Proof.
  unfold exec, nonEmptyRegex.
  destruct s as [|c t].
  - reflexivity.
  - cbn [execFrom]. rewrite execFrom_bol_later, orb_false_r.
    cbn [matcher Nat.eqb andb].
    change (matcher (ReStar CcSpace) (matcher ReEol (fun _ _ => true)) 0 (c :: t))
      with (repeatMatcher CcSpace (matcher ReEol (fun _ _ => true)) 0 (c :: t)).
    rewrite repeatMatcher_space_eol.
    destruct (forallb isWhiteSpace (c :: t)); simpl; [reflexivity|].
    rewrite repeatMatcher_always, andb_true_r. reflexivity.
Qed.

(** ** The monad *)

Section MonadFacts.

Context {W : Type}.

Lemma trace_bind {A B} (m : M W A) (f : A -> M W B) (s : State W) :
  trace (bind m f s)
  = trace (m s) ++ match outcome (m s) with
                   | Returned a => trace (f a (final (m s)))
                   | _ => []
                   end.
Proof.
  unfold bind. destruct (m s) as [[a|e|c] s1 t1]; cbn;
    [destruct (f a s1); reflexivity
    | symmetry; apply app_nil_r | symmetry; apply app_nil_r].
Qed.

Lemma trace_tryCatch {A} (m : M W A) (h : JsError -> M W A) (s : State W) :
  trace (tryCatch m h s)
  = trace (m s) ++ match outcome (m s) with
                   | Thrown e => trace (h e (final (m s)))
                   | _ => []
                   end.
Proof.
  unfold tryCatch. destruct (m s) as [[a|e|c] s1 t1]; cbn;
    [symmetry; apply app_nil_r
    | destruct (h e s1); reflexivity | symmetry; apply app_nil_r].
Qed.

Lemma bind_Returned {A B} (m : M W A) (f : A -> M W B) (s : State W) (a : A) :
  outcome (m s) = Returned a ->
  bind m f s
  = mkRun (outcome (f a (final (m s)))) (final (f a (final (m s))))
          (trace (m s) ++ trace (f a (final (m s)))).
Proof.
  unfold bind. destruct (m s) as [o s1 t1]; cbn. intros ->.
  destruct (f a s1); reflexivity.
Qed.

Lemma bind_Thrown {A B} (m : M W A) (f : A -> M W B) (s : State W)
      (e : JsError) :
  outcome (m s) = Thrown e ->
  bind m f s = mkRun (Thrown e) (final (m s)) (trace (m s)).
Proof.
  unfold bind. destruct (m s) as [o s1 t1]; cbn. intros ->. reflexivity.
Qed.

(** *** Computations that emit only events of one kind *)

Variable p : Event -> bool.

Lemma Emits_ret {A} (a : A) : Emits p (@ret W A a).
Proof. intros s. reflexivity. Qed.

Lemma Emits_throw {A} (e : JsError) : Emits p (@throw W A e).
Proof. intros s. reflexivity. Qed.

Lemma Emits_bind {A B} (m : M W A) (f : A -> M W B) :
  Emits p m -> (forall a, Emits p (f a)) -> Emits p (bind m f).
Proof.
  intros Hm Hf s. rewrite trace_bind, forallb_app, Hm.
  destruct (outcome (m s)); [apply Hf | reflexivity | reflexivity].
Qed.

Lemma Emits_tryCatch {A} (m : M W A) (h : JsError -> M W A) :
  Emits p m -> (forall e, Emits p (h e)) -> Emits p (tryCatch m h).
Proof.
  intros Hm Hh s. rewrite trace_tryCatch, forallb_app, Hm.
  destruct (outcome (m s)); [reflexivity | apply Hh | reflexivity].
Qed.

Lemma Emits_forOf {A} (xs : list A) (body : A -> M W unit) :
  (forall x, Emits p (body x)) -> Emits p (forOf xs body).
Proof.
  intros Hb. induction xs as [|x xs IH]; simpl.
  - apply Emits_ret.
  - apply Emits_bind; [apply Hb | intros _; exact IH].
Qed.

Lemma Emits_call {A} (ev : Event) (op : W -> Completion A * W) :
  p ev = true -> Emits p (call ev op).
Proof.
  intros Hev s. unfold call.
  destruct (op (world s)) as [[a|e] w]; cbn; rewrite Hev; reflexivity.
Qed.

Lemma Emits_Date_now (drv : Driver W) : Emits p (Date_now drv).
Proof. intros s. reflexivity. Qed.

Lemma Emits_random (drv : Driver W) : Emits p (Math_floor_random_100 drv).
Proof. intros s. reflexivity. Qed.

Lemma Emits_log (drv : Driver W) (message : jsstring) :
  (forall t, p (ConsoleLog t message) = true) ->
  Emits p (logWithTimestamp drv message).
Proof. intros H s. cbn. rewrite H. reflexivity. Qed.

Lemma Emits_exit {A} (code : N) :
  p (ProcessExit code) = true -> Emits p (@process_exit W A code).
Proof. intros H s. cbn. rewrite H. reflexivity. Qed.

End MonadFacts.

(** Decompose a computation of the script into its calls, leaving one goal
    for each event that [p] has to accept. *)
Ltac emits_step :=
  match goal with
  | |- Emits _ (bind _ _) => apply Emits_bind; [|intros ?]
  | |- Emits _ (tryCatch _ _) => apply Emits_tryCatch; [|intros ?]
  | |- Emits _ (forOf _ _) => apply Emits_forOf; intros ?
  | |- Emits _ (ret _) => apply Emits_ret
  | |- Emits _ (throw _) => apply Emits_throw
  | |- Emits _ (logWithTimestamp _ _) => apply Emits_log; intros ?; reflexivity
  | |- Emits _ (Date_now _) => apply Emits_Date_now
  | |- Emits _ (Math_floor_random_100 _) => apply Emits_random
  | |- Emits _ (call _ _) => apply Emits_call; reflexivity
  | |- Emits _ (process_exit _) => apply Emits_exit; reflexivity
  | |- Emits _ (if ?b then _ else _) => destruct b
  | |- Emits _ (match ?x with _ => _ end) => destruct x
  | |- Emits _ _ =>
      progress unfold puppeteer_launch_, browser_pages_, browser_newPage_,
        browser_close_, page_goto_, page_waitForSelector_, page_type_,
        page_select_, page_click_, page_screenshot_, page_waitForNavigation_,
        page_evaluate_innerText, fs_access_, fs_mkdir_
  end.

Ltac emits := repeat emits_step.

(** ** The validator *)

Arguments js : simpl never.
Arguments decimal : simpl never.

Lemma nonEmptyRegex_test_string (s : jsstring) :
  trim s <> [] -> opensOnItsLine (JsString s) ->
  RegExp_test nonEmptyRegex (JsString s) = true.
Proof.
  intros Htrim Hopen. unfold RegExp_test, ToString.
  rewrite nonEmptyRegex_spec.
  destruct (forallb isWhiteSpace s) eqn:E.
  - exfalso. apply Htrim, trim_nil_iff, E.
  - destruct s as [|c t]; [discriminate E|].
    simpl in Hopen. rewrite Hopen. reflexivity.
Qed.

(** A missing key reads as [undefined], which [test] turns into the nine
    letters of that word: the non-empty rule accepts it. *)
Lemma nonEmptyRegex_test_undefined :
  RegExp_test nonEmptyRegex JsUndefined = true.
Proof. reflexivity. Qed.

Lemma emailRegex_test_undefined :
  RegExp_test emailRegex JsUndefined = false.
Proof. reflexivity. Qed.

(** The acceptance rule the code implements: the specification's premise
    together with the demand that name, phone and company do not open with
    a line terminator. *)
Lemma validationErrors_nil (formData : JsObject) :
  wellFilled formData ->
  opensOnItsLine (getProp formData config.selectors.name) ->
  opensOnItsLine (getProp formData config.selectors.phone) ->
  opensOnItsLine (getProp formData config.selectors.company) ->
  validationErrors formData = [].
Proof.
  intros [[n [Hn Tn]] [[e [He Ae]] [[p [Hp Tp]] [c [Hc Tc]]]]] On Op Oc.
  unfold validationErrors. rewrite Hn, He, Hp, Hc in *.
  rewrite !nonEmptyRegex_test_string by assumption.
  unfold RegExp_test at 1. cbn [ToString].
  rewrite (proj2 (emailRegex_spec e) Ae). reflexivity.
Qed.

(** Rules that fail on present fields accumulate, one message each, in the
    order name, email, phone, company. *)
Lemma validationErrors_accumulate :
  validationErrors
    [ (config.selectors.name, js " "); (config.selectors.email, js "x");
      (config.selectors.phone, []); (config.selectors.company, js "  ") ]
  = [msgNameEmpty; msgEmailInvalid; msgPhoneEmpty; msgCompanyEmpty].
Proof. reflexivity. Qed.

(** The failure scenario: only the e-mail message. *)
Lemma validationErrors_no_at :
  validationErrors formDataNoAt = [msgEmailInvalid].
Proof. reflexivity. Qed.

Lemma validationErrors_theFormData : validationErrors theFormData = [].
Proof. reflexivity. Qed.

Lemma validateFormData_outcome {W} (drv : Driver W) (formData : JsObject)
      (s : State W) :
  outcome (validateFormData drv formData s)
  = Returned (validationErrors formData).
Proof.
  unfold validateFormData.
  destruct (Nat.eqb (List.length (validationErrors formData)) 0); reflexivity.
Qed.

(** On an object with string-valued properties the validator returns the
    list of messages, leaves the outside world as it was, and calls nothing
    but the console. *)
Lemma validateFormData_returns_without_effects {W} (drv : Driver W)
      (formData : JsObject) (s : State W) :
  let r := validateFormData drv formData s in
  outcome r = Returned (validationErrors formData) /\
  world (final r) = world s /\
  forallb isConsoleLog (trace r) = true.
Proof.
  unfold validateFormData.
  destruct (Nat.eqb (List.length (validationErrors formData)) 0);
    repeat split; reflexivity.
Qed.

Lemma lookupAny_ofStrings (o : JsObject) (key : jsstring) :
  ToStringAny (lookupAny (map (fun p => (fst p, AnyString (snd p))) o) key)
  = Normal (ToString (getProp o key)).
Proof.
  induction o as [|[k v] o IH]; cbn [map lookupAny getProp fst snd];
    [reflexivity|].
  destruct (jsstring_eqb k key); [reflexivity | exact IH].
Qed.

Lemma fieldString_ofStrings (o : JsObject) (key : jsstring) :
  fieldString (ofStrings o) key = Normal (ToString (getProp o key)).
Proof. apply lookupAny_ofStrings. Qed.

(** A test of a field records no call and leaves the state. *)
Lemma testField_run {W} (regex : Regex) (formData : FormDataArg)
      (key : jsstring) (s : State W) :
  testField regex formData key s
  = mkRun (match fieldString formData key with
           | Normal str => Returned (exec regex str)
           | Abrupt e => Thrown e
           end) s [].
Proof.
  unfold testField, fieldString, liftCompletion, bind, ret.
  destruct (getPropAny formData key) as [v|e]; cbn; [|reflexivity].
  destruct (ToStringAny v); reflexivity.
Qed.

Lemma bind_testField {W B} (regex : Regex) (formData : FormDataArg)
      (key : jsstring) (k : bool -> M W B) (s : State W) :
  bind (testField regex formData key) k s
  = match fieldString formData key with
    | Normal str => k (exec regex str) s
    | Abrupt e => mkRun (Thrown e) s []
    end.
Proof.
  unfold bind. rewrite testField_run.
  destruct (fieldString formData key) as [str|e]; [|reflexivity].
  destruct (k (exec regex str) s); reflexivity.
Qed.

(** On an object with string-valued properties the validator on any argument
    is [validateFormData]. *)
Lemma validateFormDataOfAny_ofStrings {W} (drv : Driver W) (o : JsObject)
      (s : State W) :
  validateFormDataOfAny drv (ofStrings o) s = validateFormData drv o s.
Proof.
  unfold validateFormDataOfAny. cbv zeta.
  do 4 (rewrite bind_testField, fieldString_ofStrings; cbv beta iota).
  reflexivity.
Qed.

(** C9: the validator has no effect on the page, but it is not total.  On
    every argument and from every start state it leaves the outside world as
    it was, calls nothing but the console and never exits; it returns the
    list of messages when each of the four fields, read in the order name,
    e-mail, phone, company, converts to a string, and it throws, before any
    log line, the error of the first field that cannot be read or converted:
    a TypeError when the argument is undefined or null or the field holds a
    Symbol.  On an object with string-valued properties, missing keys read
    as undefined, it always returns. *)
Theorem validateFormData_throws_on_unconvertible_field {W} (drv : Driver W)
        (formData : FormDataArg) (s : State W) :
  let r := validateFormDataOfAny drv formData s in
  let str := fieldString formData in
  world (final r) = world s /\
  forallb isConsoleLog (trace r) = true /\
  (forall c, outcome r <> Exited c) /\
  match str config.selectors.name with
  | Abrupt e => outcome r = Thrown e /\ trace r = []
  | Normal name =>
      match str config.selectors.email with
      | Abrupt e => outcome r = Thrown e /\ trace r = []
      | Normal email =>
          match str config.selectors.phone with
          | Abrupt e => outcome r = Thrown e /\ trace r = []
          | Normal phone =>
              match str config.selectors.company with
              | Abrupt e => outcome r = Thrown e /\ trace r = []
              | Normal company =>
                  outcome r = Returned (errorsFor name email phone company)
              end
          end
      end
  end /\
  (forall key, fieldString ArgUndefined key
               = Abrupt (TypeError
                   (js "Cannot read properties of undefined (reading '"
                       ++ key ++ js "')"))) /\
  (forall key, fieldString ArgNull key
               = Abrupt (TypeError
                   (js "Cannot read properties of null (reading '"
                       ++ key ++ js "')"))) /\
  (forall properties key description,
      lookupAny properties key = AnySymbol description ->
      fieldString (ArgObject properties) key
      = Abrupt (TypeError (js "Cannot convert a Symbol value to a string")))
  /\
  (forall o : JsObject,
      validateFormDataOfAny drv (ofStrings o) s = validateFormData drv o s /\
      outcome (validateFormData drv o s) = Returned (validationErrors o)).
Proof.
  cbv zeta.
  assert (Hrun :
    let r := validateFormDataOfAny drv formData s in
    let str := fieldString formData in
    world (final r) = world s /\
    forallb isConsoleLog (trace r) = true /\
    (forall c, outcome r <> Exited c) /\
    match str config.selectors.name with
    | Abrupt e => outcome r = Thrown e /\ trace r = []
    | Normal name =>
        match str config.selectors.email with
        | Abrupt e => outcome r = Thrown e /\ trace r = []
        | Normal email =>
            match str config.selectors.phone with
            | Abrupt e => outcome r = Thrown e /\ trace r = []
            | Normal phone =>
                match str config.selectors.company with
                | Abrupt e => outcome r = Thrown e /\ trace r = []
                | Normal company =>
                    outcome r = Returned (errorsFor name email phone company)
                end
            end
        end
    end).
  { cbv zeta. unfold validateFormDataOfAny, errorsFor. cbv zeta.
    rewrite bind_testField.
    destruct (fieldString formData config.selectors.name) as [name|e];
      [|cbn; repeat split; intros; congruence].
    rewrite bind_testField.
    destruct (fieldString formData config.selectors.email) as [email|e];
      [|cbn; repeat split; intros; congruence].
    rewrite bind_testField.
    destruct (fieldString formData config.selectors.phone) as [phone|e];
      [|cbn; repeat split; intros; congruence].
    rewrite bind_testField.
    destruct (fieldString formData config.selectors.company) as [company|e];
      [|cbn; repeat split; intros; congruence].
    match goal with
    | |- context [Nat.eqb ?n 0] => destruct (Nat.eqb n 0)
    end; cbn; repeat split; intros; congruence. }
  cbv zeta in Hrun.
  destruct Hrun as [Hw [Hlog [Hexit Hout]]].
  split; [exact Hw|]. split; [exact Hlog|]. split; [exact Hexit|].
  split; [exact Hout|].
  split; [reflexivity|]. split; [reflexivity|].
  split.
  - intros properties key description H.
    unfold fieldString, getPropAny. rewrite H. reflexivity.
  - intros o. split.
    + apply validateFormDataOfAny_ofStrings.
    + apply validateFormData_returns_without_effects.
Qed.

Lemma validateFormData_throws_on_unconvertible_field_witness :
  fieldString formDataSymbolName config.selectors.name
  = Abrupt (TypeError (js "Cannot convert a Symbol value to a string")).
Proof.
  apply (proj1 (proj2 (proj2 (proj2 (proj2 (proj2 (proj2
           (validateFormData_throws_on_unconvertible_field
              (simDriver timeoutError) formDataSymbolName
              (initial simForm))))))))
         _ config.selectors.name (js "Eden Oved")).
  vm_compute. reflexivity.
Defined.

(** The validator throws: on form data whose name is a Symbol, and when it
    is called without form data. *)
Lemma validateFormData_throws_type_error :
  outcome (validateFormDataOfAny (simDriver timeoutError) formDataSymbolName
                                 (initial simForm))
  = Thrown (TypeError (js "Cannot convert a Symbol value to a string")) /\
  outcome (validateFormDataOfAny (simDriver timeoutError) ArgUndefined
                                 (initial simForm))
  = Thrown (TypeError
              (js "Cannot read properties of undefined (reading '#name')")).
Proof. split; vm_compute; reflexivity. Qed.

(** A missing name, phone or company key draws no message. *)
Lemma missing_key_unreported (formData : JsObject) :
  (getProp formData config.selectors.name = JsUndefined ->
   ~ In msgNameEmpty (validationErrors formData)) /\
  (getProp formData config.selectors.phone = JsUndefined ->
   ~ In msgPhoneEmpty (validationErrors formData)) /\
  (getProp formData config.selectors.company = JsUndefined ->
   ~ In msgCompanyEmpty (validationErrors formData)).
Proof.
  unfold validationErrors, pushUnless.
  repeat split; intros ->; rewrite nonEmptyRegex_test_undefined;
    repeat match goal with
           | |- context [if ?b then _ else _] => destruct b
           end;
    cbn [app In]; intros H;
    repeat match goal with
           | H : _ \/ _ |- _ => destruct H as [H | H]
           end;
    try contradiction; vm_compute in H; discriminate H.
Qed.

(** A missing e-mail key draws the e-mail message, once. *)
Lemma missing_email_reported (formData : JsObject) :
  getProp formData config.selectors.email = JsUndefined ->
  count_occ (list_eq_dec N.eq_dec) (validationErrors formData) msgEmailInvalid
  = 1.
Proof.
  unfold validationErrors, pushUnless.
  intros ->. rewrite emailRegex_test_undefined.
  repeat match goal with
         | |- context [if ?b then _ else _] => destruct b
         end; vm_compute; reflexivity.
Qed.

(** C2: form data from which the name, phone and company keys are absent
    passes validation with no message at all: a missing key is reported for
    the e-mail field only. *)
Theorem validateFormData_missing_keys_unreported :
  getProp formDataOnlyEmail config.selectors.name = JsUndefined /\
  getProp formDataOnlyEmail config.selectors.phone = JsUndefined /\
  getProp formDataOnlyEmail config.selectors.company = JsUndefined /\
  validationErrors formDataOnlyEmail = [] /\
  validationErrors [] = [msgEmailInvalid] /\
  forall W (drv : Driver W) (s : State W),
    outcome (validateFormData drv formDataOnlyEmail s) = Returned [].
Proof.
  repeat split; intros; try apply validateFormData_outcome.
Qed.

(** C8: form data whose name is a line feed followed by text meets the
    premise (every field non-empty after trimming, the e-mail with an [@])
    and is still rejected with the name message. *)
Theorem validateFormData_rejects_leading_newline :
  wellFilled formDataLeadingNewline /\
  validationErrors formDataLeadingNewline = [msgNameEmpty] /\
  forall W (drv : Driver W) (s : State W),
    outcome (validateFormData drv formDataLeadingNewline s)
    = Returned [msgNameEmpty].
Proof.
  split; [|split].
  - repeat split; eexists; (split; [reflexivity|]);
      try (vm_compute; discriminate).
    vm_compute. tauto.
  - reflexivity.
  - intros. rewrite validateFormData_outcome. reflexivity.
Qed.

(** ** The success detector *)

Lemma forallb_includes_spec (text : jsstring) (frags : list jsstring) :
  forallb (fun frag => includes text frag) frags = true <->
  forall frag, In frag frags -> includes text frag = true.
Proof. apply forallb_forall. Qed.

(** The whole run of the detector on a page whose URL contains the success
    fragment. *)
Lemma validateThankYouPageContent_url_run {W} (drv : Driver W)
      (screenshotsDir : jsstring) (s : State W) :
  includes (page_url drv (world s)) config.thankYouPage = true ->
  validateThankYouPageContent drv screenshotsDir s
  = mkRun (Returned true)
          (mkState (world s) (S (S (clockReads s))) (randomDraws s))
          [ PageUrl;
            ConsoleLog (clock drv (clockReads s))
                       (js "Current URL: " ++ page_url drv (world s));
            ConsoleLog (clock drv (S (clockReads s)))
                       (js "Thank you page reached successfully.") ].
Proof.
  intros Hurl.
  unfold validateThankYouPageContent, bind, page_url_, logWithTimestamp,
    Date_now, console_log, ret.
  cbn. rewrite Hurl. reflexivity.
Qed.

(** C10: on a page whose URL contains the success fragment the detector
    returns true having made one call, the read of the URL, and written two
    log lines: it neither reads the page text nor takes a screenshot, and the
    outside world is left as it was. *)
Theorem validateThankYouPageContent_url_path_is_silent {W} (drv : Driver W)
        (screenshotsDir : jsstring) (s : State W) :
  includes (page_url drv (world s)) config.thankYouPage = true ->
  let r := validateThankYouPageContent drv screenshotsDir s in
  outcome r = Returned true /\
  world (final r) = world s /\
  trace r = [ PageUrl;
              ConsoleLog (clock drv (clockReads s))
                         (js "Current URL: " ++ page_url drv (world s));
              ConsoleLog (clock drv (S (clockReads s)))
                         (js "Thank you page reached successfully.") ] /\
  forallb (fun e => negb (readsTextOrShoots e)) (trace r) = true.
Proof.
  intros Hurl. cbv zeta.
  rewrite (validateThankYouPageContent_url_run drv screenshotsDir s Hurl).
  repeat split.
Qed.

Lemma validateThankYouPageContent_url_path_is_silent_witness :
  let r := validateThankYouPageContent (simDriver timeoutError) (js "/app/screenshots")
             (initial simThankYouPage) in
  outcome r = Returned true /\
  world (final r) = simThankYouPage /\
  forallb (fun e => negb (readsTextOrShoots e)) (trace r) = true.
Proof.
  destruct (@validateThankYouPageContent_url_path_is_silent
              Sim (simDriver timeoutError) (js "/app/screenshots")
              (initial simThankYouPage))
    as [Ho [Hw [_ Hq]]].
  - vm_compute. reflexivity.
  - repeat split; assumption.
Defined.

(** C3: the detector decides in two ordered stages.  When the URL contains
    the success fragment the result is true whatever the page text is (the
    text is not consulted).  Otherwise, with the page text read, the result
    is true exactly when every required fragment occurs in the text.  When a
    fragment is missing the validation-failed screenshot is attempted, on the
    world the read of the text left, and decides how the detector ends: false
    is returned if the screenshot is written, and if it fails its error is
    thrown in place of a result. *)
Theorem validateThankYouPageContent_two_stage {W} (drv : Driver W)
        (screenshotsDir : jsstring) (s : State W) :
  let r := validateThankYouPageContent drv screenshotsDir s in
  let url := page_url drv (world s) in
  let path := path_join drv screenshotsDir
                (js "validation_failed_"
                    ++ decimal (clock drv (S (S (clockReads s))))
                    ++ js ".png") in
  (includes url config.thankYouPage = true -> outcome r = Returned true) /\
  (includes url config.thankYouPage = false ->
   forall text w1,
     page_innerText drv (world s) = (Normal text, w1) ->
     (outcome r = Returned true <->
      forall frag, In frag config.thankYouText -> includes text frag = true) /\
     ((exists frag, In frag config.thankYouText /\ includes text frag = false) ->
      In (PageScreenshot path true) (trace r) /\
      outcome r = match fst (page_screenshot drv path w1) with
                  | Normal _ => Returned false
                  | Abrupt e => Thrown e
                  end)).
Proof.
  cbv zeta. split.
  - intros Hurl.
    rewrite (validateThankYouPageContent_url_run drv screenshotsDir s Hurl).
    reflexivity.
  - intros Hurl text w1 Htext.
    rewrite <- forallb_includes_spec.
    unfold validateThankYouPageContent.
    generalize config.thankYouText as frags. intros frags.
    unfold bind, tryCatch, page_url_,
      page_evaluate_innerText, page_screenshot_, call, logWithTimestamp,
      Date_now, console_log, ret.
    cbn. rewrite Hurl. cbn. rewrite Htext. cbn.
    destruct (forallb (fun frag => includes text frag) frags) eqn:Hall; cbn.
    + split; [tauto|].
      intros [frag [Hin Hmiss]]. exfalso.
      rewrite forallb_forall in Hall. specialize (Hall frag Hin). congruence.
    + match goal with
      | |- context [page_screenshot drv ?p ?w] =>
          destruct (page_screenshot drv p w) as [[[]|e] w2]
      end; cbn.
      * split; [split; discriminate|]. intros _. split; [|reflexivity].
        do 4 right. left. reflexivity.
      * split; [split; discriminate|]. intros _. split; [|reflexivity].
        do 4 right. left. reflexivity.
Qed.

Lemma validateThankYouPageContent_two_stage_witness :
  outcome (validateThankYouPageContent (simDriver timeoutError)
             (js "/app/screenshots") (initial simThankYouPage))
  = Returned true /\
  outcome (validateThankYouPageContent (simDriver timeoutError)
             (js "/app/screenshots") (initial simThankYouText))
  = Returned true /\
  outcome (validateThankYouPageContent (simDriver timeoutError)
             (js "/app/screenshots") (initial simHalfText))
  = Returned false.
Proof.
  split; [|split].
  - apply (proj1 (validateThankYouPageContent_two_stage
                    (simDriver timeoutError) (js "/app/screenshots")
                    (initial simThankYouPage))).
    vm_compute. reflexivity.
  - apply (proj1 (proj2 (validateThankYouPageContent_two_stage
                    (simDriver timeoutError) (js "/app/screenshots")
                    (initial simThankYouText))
                   eq_refl (js "Thank you! You'll hear from us soon.")
                   simThankYouText eq_refl)).
    intros frag [<- | [<- | []]]; vm_compute; reflexivity.
  - apply (proj2 (proj2 (validateThankYouPageContent_two_stage
                    (simDriver timeoutError) (js "/app/screenshots")
                    (initial simHalfText))
                   eq_refl (js "Thank you!") simHalfText eq_refl)).
    exists (js "You'll hear from us soon."). split.
    + right. left. reflexivity.
    + vm_compute. reflexivity.
Defined.

(** On a page elsewhere that shows only the first of the two texts, with a
    screenshots directory that cannot be written, the detector does not
    return false: the error of the validation-failed screenshot is thrown. *)
Lemma validateThankYouPageContent_missing_text_throws :
  let r := validateThankYouPageContent (simDriver timeoutError)
             (js "/app/screenshots") (initial simHalfTextNoScreenshots) in
  includes (page_url (simDriver timeoutError) simHalfTextNoScreenshots)
           config.thankYouPage = false /\
  page_innerText (simDriver timeoutError) simHalfTextNoScreenshots
  = (Normal (js "Thank you!"), simHalfTextNoScreenshots) /\
  In (js "You'll hear from us soon.") config.thankYouText /\
  includes (js "Thank you!") (js "You'll hear from us soon.") = false /\
  outcome r = Thrown screenshotError /\
  outcome r <> Returned false.
Proof.
  cbv zeta. split; [vm_compute; reflexivity|].
  split; [reflexivity|].
  split; [right; left; reflexivity|].
  split; [vm_compute; reflexivity|].
  assert (H : outcome (validateThankYouPageContent (simDriver timeoutError)
                         (js "/app/screenshots")
                         (initial simHalfTextNoScreenshots))
              = Thrown screenshotError) by (vm_compute; reflexivity).
  split; [exact H | rewrite H; discriminate].
Qed.

(** C6: when the URL does not match and reading the page text throws, the
    detector throws a new Error, "Page validation encountered an issue,
    process terminated."; it does not return false, and it takes no
    screenshot. *)
Theorem validateThankYouPageContent_read_failure_throws {W} (drv : Driver W)
        (screenshotsDir : jsstring) (s : State W) (e : JsError) (w1 : W) :
  includes (page_url drv (world s)) config.thankYouPage = false ->
  page_innerText drv (world s) = (Abrupt e, w1) ->
  let r := validateThankYouPageContent drv screenshotsDir s in
  outcome r
  = Thrown (newError
      (js "Page validation encountered an issue, process terminated.")) /\
  outcome r <> Returned false /\
  forallb (fun ev => negb (isScreenshot ev)) (trace r) = true.
Proof.
  intros Hurl Htext.
  unfold validateThankYouPageContent, bind, tryCatch, page_url_,
    page_evaluate_innerText, page_screenshot_, call, logWithTimestamp,
    Date_now, console_log, ret, throw.
  cbn. rewrite Hurl. cbn. rewrite Htext. cbn.
  repeat split. discriminate.
Qed.

Lemma validateThankYouPageContent_read_failure_throws_witness :
  outcome (validateThankYouPageContent (simDriver timeoutError)
             (js "/app/screenshots") (initial simTornDown))
  = Thrown (newError
      (js "Page validation encountered an issue, process terminated.")).
Proof.
  apply (validateThankYouPageContent_read_failure_throws
           (simDriver timeoutError) (js "/app/screenshots")
           (initial simTornDown) (e := protocolError) (w1 := simTornDown)).
  - vm_compute. reflexivity.
  - reflexivity.
Defined.

(** ** The click retry *)

Lemma jsstring_eqb_refl (s : jsstring) : jsstring_eqb s s = true.
Proof. apply jsstring_eqb_eq. reflexivity. Qed.

Lemma attemptsMade_app (selector : jsstring) (a b : list Event) :
  attemptsMade selector (a ++ b)
  = attemptsMade selector a + attemptsMade selector b.
Proof. unfold attemptsMade. rewrite filter_app, length_app. reflexivity. Qed.

(** One pass of the loop body makes one attempt; a failed attempt ends the
    function with the attempt's own error when it was the last one, and lets
    the loop go on otherwise. *)
Lemma retryClickAttempt_spec {W} (drv : Driver W) (selector : jsstring)
      (retries attempt : nat) (s : State W) :
  let r := retryClickAttempt drv selector retries attempt s in
  attemptsMade selector (trace r) = 1 /\
  match clickOnce drv selector (world s) with
  | (Normal _, w1) => outcome r = Returned (Some tt) /\ world (final r) = w1
  | (Abrupt e, w1) =>
      outcome r = (if Nat.eqb attempt retries then Thrown e
                   else Returned None) /\
      world (final r) = w1
  end.
Proof.
  unfold retryClickAttempt, clickOnce, tryCatch, bind, page_waitForSelector_,
    page_click_, call, logWithTimestamp, Date_now, console_log, ret, throw,
    attemptsMade.
  cbn.
  destruct (page_waitForSelector drv selector true 10000 (world s))
    as [[[]|e] w1]; cbn.
  - destruct (page_click drv selector w1) as [[[]|e] w2]; cbn.
    + rewrite jsstring_eqb_refl. repeat split.
    + destruct (Nat.eqb attempt retries); cbn;
        rewrite jsstring_eqb_refl; repeat split.
  - destruct (Nat.eqb attempt retries); cbn;
      rewrite jsstring_eqb_refl; repeat split.
Qed.

Lemma Emits_retryClickLoop {W} (drv : Driver W) (selector : jsstring)
      (retries remaining attempt : nat) :
  Emits (fun e => isConsoleLog e || isClickAttemptCall e)
        (retryClickLoop drv selector retries remaining attempt).
Proof.
  revert attempt. induction remaining as [|n IH]; intros attempt; simpl.
  - apply Emits_ret.
  - apply Emits_bind.
    + unfold retryClickAttempt, page_waitForSelector_, page_click_. emits.
    + intros [[]|]; [apply Emits_ret | apply IH].
Qed.

(** What [retryClick(page, selector)] does, by the outcome of at most three
    successive attempts on the driver.  Shared by the results below. *)
Lemma retryClick_spec {W} (drv : Driver W) (selector : jsstring)
      (s : State W) :
  let r := retryClick drv selector 3 s in
  match clickOnce drv selector (world s) with
  | (Normal _, w1) =>
      outcome r = Returned tt /\ world (final r) = w1 /\
      attemptsMade selector (trace r) = 1
  | (Abrupt e1, w1) =>
      match clickOnce drv selector w1 with
      | (Normal _, w2) =>
          outcome r = Returned tt /\ world (final r) = w2 /\
          attemptsMade selector (trace r) = 2
      | (Abrupt e2, w2) =>
          match clickOnce drv selector w2 with
          | (Normal _, w3) =>
              outcome r = Returned tt /\ world (final r) = w3 /\
              attemptsMade selector (trace r) = 3
          | (Abrupt e3, w3) =>
              outcome r = Thrown e3 /\ world (final r) = w3 /\
              attemptsMade selector (trace r) = 3
          end
      end
  end.
Proof.
  cbv zeta. unfold retryClick. cbn [retryClickLoop].
  pose proof (retryClickAttempt_spec drv selector 3 1 s) as [A1 H1].
  destruct (clickOnce drv selector (world s)) as [[[]|e1] w1];
    destruct H1 as [O1 W1]; cbn [Nat.eqb] in O1.
  { rewrite (bind_Returned _ _ _ O1). cbn. rewrite app_nil_r. auto. }
  rewrite (bind_Returned _ _ _ O1). cbn [outcome final trace].
  set (s1 := final (retryClickAttempt drv selector 3 1 s)) in *.
  pose proof (retryClickAttempt_spec drv selector 3 2 s1) as [A2 H2].
  rewrite W1 in H2.
  destruct (clickOnce drv selector w1) as [[[]|e2] w2];
    destruct H2 as [O2 W2]; cbn [Nat.eqb] in O2.
  { rewrite (bind_Returned _ _ _ O2). cbn.
    rewrite app_nil_r, attemptsMade_app, A1, A2. auto. }
  rewrite (bind_Returned _ _ _ O2). cbn [outcome final trace].
  set (s2 := final (retryClickAttempt drv selector 3 2 s1)) in *.
  pose proof (retryClickAttempt_spec drv selector 3 3 s2) as [A3 H3].
  rewrite W2 in H3.
  destruct (clickOnce drv selector w2) as [[[]|e3] w3];
    destruct H3 as [O3 W3]; cbn [Nat.eqb] in O3.
  { rewrite (bind_Returned _ _ _ O3). cbn.
    rewrite app_nil_r, !attemptsMade_app, A1, A2, A3. auto. }
  rewrite (bind_Thrown _ _ _ O3). cbn.
  rewrite !attemptsMade_app, A1, A2, A3. auto.
Qed.

(** The whole run of one pass of the loop body: the opening log line, the
    calls of the attempt, and then either the line that the click succeeded,
    or the line that the attempt failed, followed on the last attempt by the
    line that all attempts failed. *)
Lemma retryClickAttempt_run {W} (drv : Driver W) (selector : jsstring)
      (retries attempt : nat) (s : State W) :
  retryClickAttempt drv selector retries attempt s
  = let opened := ConsoleLog (clock drv (clockReads s))
                             (msgAttempt selector attempt) in
    match clickOnce drv selector (world s) with
    | (Normal _, w1) =>
        mkRun (Returned (Some tt))
              (mkState w1 (2 + clockReads s) (randomDraws s))
              (opened :: attemptCalls drv selector (world s)
                 ++ [ConsoleLog (clock drv (1 + clockReads s))
                                (msgClickSuccessful selector attempt)])
    | (Abrupt e, w1) =>
        let failed := ConsoleLog (clock drv (1 + clockReads s))
                                 (msgAttemptFailed selector attempt e) in
        if Nat.eqb attempt retries then
          mkRun (Thrown e)
                (mkState w1 (3 + clockReads s) (randomDraws s))
                (opened :: attemptCalls drv selector (world s)
                   ++ [failed;
                       ConsoleLog (clock drv (2 + clockReads s))
                                  (msgAllFailed selector retries)])
        else
          mkRun (Returned None)
                (mkState w1 (2 + clockReads s) (randomDraws s))
                (opened :: attemptCalls drv selector (world s) ++ [failed])
    end.
Proof.
  unfold retryClickAttempt, clickOnce, attemptCalls, tryCatch, bind,
    page_waitForSelector_, page_click_, call, logWithTimestamp, Date_now,
    console_log, ret, throw.
  cbn.
  destruct (page_waitForSelector drv selector true 10000 (world s))
    as [[[]|e] w1]; cbn.
  - destruct (page_click drv selector w1) as [[[]|e] w2]; cbn;
      [reflexivity|].
    destruct (Nat.eqb attempt retries); reflexivity.
  - destruct (Nat.eqb attempt retries); reflexivity.
Qed.

Ltac flatten_app :=
  repeat first [ rewrite <- app_assoc
               | rewrite app_nil_r
               | progress cbn [app] ].

(** The trace of [retryClick] with three retries, by the outcome of the
    successive attempts. *)
Lemma retryClick_trace {W} (drv : Driver W) (selector : jsstring)
      (s : State W) :
  let opened n k := ConsoleLog (clock drv (k + clockReads s))
                               (msgAttempt selector n) in
  let succeeded n k := ConsoleLog (clock drv (k + clockReads s))
                                  (msgClickSuccessful selector n) in
  let failed n k e := ConsoleLog (clock drv (k + clockReads s))
                                 (msgAttemptFailed selector n e) in
  let allFailed k := ConsoleLog (clock drv (k + clockReads s))
                                (msgAllFailed selector 3) in
  let attempted := attemptCalls drv selector in
  trace (retryClick drv selector 3 s)
  = match clickOnce drv selector (world s) with
    | (Normal _, w1) => opened 1 0 :: attempted (world s) ++ [succeeded 1 1]
    | (Abrupt e1, w1) =>
        match clickOnce drv selector w1 with
        | (Normal _, w2) =>
            opened 1 0 :: attempted (world s) ++ failed 1 1 e1
            :: opened 2 2 :: attempted w1 ++ [succeeded 2 3]
        | (Abrupt e2, w2) =>
            match clickOnce drv selector w2 with
            | (Normal _, w3) =>
                opened 1 0 :: attempted (world s) ++ failed 1 1 e1
                :: opened 2 2 :: attempted w1 ++ failed 2 3 e2
                :: opened 3 4 :: attempted w2 ++ [succeeded 3 5]
            | (Abrupt e3, w3) =>
                opened 1 0 :: attempted (world s) ++ failed 1 1 e1
                :: opened 2 2 :: attempted w1 ++ failed 2 3 e2
                :: opened 3 4 :: attempted w2
                ++ [failed 3 5 e3; allFailed 6]
            end
        end
    end.
Proof.
  cbv zeta. unfold retryClick. cbn [retryClickLoop]. unfold bind.
  rewrite retryClickAttempt_run. cbv zeta.
  destruct (clickOnce drv selector (world s)) as [[[]|e1] w1].
  { cbn [trace ret]. flatten_app. reflexivity. }
  cbn [Nat.eqb]. rewrite retryClickAttempt_run. cbv zeta.
  cbn [world clockReads randomDraws].
  destruct (clickOnce drv selector w1) as [[[]|e2] w2].
  { cbn [trace ret]. flatten_app. reflexivity. }
  cbn [Nat.eqb]. rewrite retryClickAttempt_run. cbv zeta.
  cbn [world clockReads randomDraws].
  destruct (clickOnce drv selector w2) as [[[]|e3] w3].
  { cbn [trace ret]. flatten_app. reflexivity. }
  cbn [Nat.eqb trace]. flatten_app. reflexivity.
Qed.

(** C4: [retryClick] with its default of three retries.  Each attempt
    opens with its log line, waits for the button to be visible (10 s) and
    clicks it.  A failed attempt is logged with the message of its error, and
    the next attempt follows at once: the trace holds nothing between the two
    but that log line.  [retryClick] stops at the first attempt that succeeds,
    logs the success and returns.  When the third attempt fails too it logs
    that all 3 attempts to click the locator failed and throws that attempt's
    own error, having made exactly three attempts.  It calls nothing but the
    console and the two calls of an attempt. *)
Theorem retryClick_three_attempts {W} (drv : Driver W) (selector : jsstring)
        (s : State W) :
  let r := retryClick drv selector 3 s in
  let opened n k := ConsoleLog (clock drv (k + clockReads s))
                               (msgAttempt selector n) in
  let succeeded n k := ConsoleLog (clock drv (k + clockReads s))
                                  (msgClickSuccessful selector n) in
  let failed n k e := ConsoleLog (clock drv (k + clockReads s))
                                 (msgAttemptFailed selector n e) in
  let allFailed k := ConsoleLog (clock drv (k + clockReads s))
                                (msgAllFailed selector 3) in
  let attempted := attemptCalls drv selector in
  forallb (fun e => isConsoleLog e || isClickAttemptCall e) (trace r) = true /\
  match clickOnce drv selector (world s) with
  | (Normal _, w1) =>
      outcome r = Returned tt /\ world (final r) = w1 /\
      attemptsMade selector (trace r) = 1 /\
      trace r = opened 1 0 :: attempted (world s) ++ [succeeded 1 1]
  | (Abrupt e1, w1) =>
      match clickOnce drv selector w1 with
      | (Normal _, w2) =>
          outcome r = Returned tt /\ world (final r) = w2 /\
          attemptsMade selector (trace r) = 2 /\
          trace r = opened 1 0 :: attempted (world s) ++ failed 1 1 e1
                    :: opened 2 2 :: attempted w1 ++ [succeeded 2 3]
      | (Abrupt e2, w2) =>
          match clickOnce drv selector w2 with
          | (Normal _, w3) =>
              outcome r = Returned tt /\ world (final r) = w3 /\
              attemptsMade selector (trace r) = 3 /\
              trace r = opened 1 0 :: attempted (world s) ++ failed 1 1 e1
                        :: opened 2 2 :: attempted w1 ++ failed 2 3 e2
                        :: opened 3 4 :: attempted w2 ++ [succeeded 3 5]
          | (Abrupt e3, w3) =>
              outcome r = Thrown e3 /\ world (final r) = w3 /\
              attemptsMade selector (trace r) = 3 /\
              trace r = opened 1 0 :: attempted (world s) ++ failed 1 1 e1
                        :: opened 2 2 :: attempted w1 ++ failed 2 3 e2
                        :: opened 3 4 :: attempted w2
                        ++ [failed 3 5 e3; allFailed 6]
          end
      end
  end.
Proof.
  cbv zeta. split; [apply Emits_retryClickLoop|].
  pose proof (retryClick_spec drv selector s) as Hspec.
  pose proof (retryClick_trace drv selector s) as Htrace.
  cbv zeta in Hspec, Htrace.
  destruct (clickOnce drv selector (world s)) as [[[]|e1] w1];
    [|destruct (clickOnce drv selector w1) as [[[]|e2] w2];
      [|destruct (clickOnce drv selector w2) as [[[]|e3] w3]]];
    destruct Hspec as [Ho [Hw Ha]];
    (split; [exact Ho|]); (split; [exact Hw|]); (split; [exact Ha|]);
    exact Htrace.
Qed.

(** The error that leaves [retryClick] is the driver's: a timeout when the
    button never shows, another error with another driver, for the same
    locator and the same three attempts.  Neither is named SubmitFailure,
    and the second does not mention the locator. *)
Lemma retryClick_rethrows_driver_error :
  let selector := config.selectors.submitButton in
  let failed waitError :=
    retryClick (simDriver waitError) selector 3 (initial simNeverVisible) in
  outcome (failed timeoutError) = Thrown timeoutError /\
  attemptsMade selector (trace (failed timeoutError)) = 3 /\
  outcome (failed detachedError) = Thrown detachedError /\
  attemptsMade selector (trace (failed detachedError)) = 3 /\
  timeoutError <> detachedError /\
  errName timeoutError <> js "SubmitFailure" /\
  errName detachedError <> js "SubmitFailure" /\
  includes (errMessage detachedError) selector = false.
Proof.
  cbv zeta. repeat split; try (vm_compute; reflexivity); vm_compute; discriminate.
Qed.

(** The click-retry scenarios of the specification. *)
Example retryClick_third_time_lucky :
  let r := retryClick (simDriver timeoutError) config.selectors.submitButton 3
                      (initial simThirdTime) in
  outcome r = Returned tt /\
  attemptsMade config.selectors.submitButton (trace r) = 3.
Proof. vm_compute. split; reflexivity. Qed.

Example retryClick_never_visible :
  let r := retryClick (simDriver timeoutError) config.selectors.submitButton 3
                      (initial simNeverVisible) in
  outcome r = Thrown timeoutError /\
  attemptsMade config.selectors.submitButton (trace r) = 3.
Proof. vm_compute. split; reflexivity. Qed.

(** ** Submission *)

Lemma retryClick_attempts_once {W} (drv : Driver W) (selector : jsstring)
      (s : State W) :
  1 <= attemptsMade selector (trace (retryClick drv selector 3 s)).
Proof.
  pose proof (retryClick_spec drv selector s) as H. cbv zeta in H.
  destruct (clickOnce drv selector (world s)) as [[[]|e1] w1];
    [lia|].
  destruct (clickOnce drv selector w1) as [[[]|e2] w2]; [lia|].
  destruct (clickOnce drv selector w2) as [[[]|e3] w3]; lia.
Qed.

(** C5: the before-screenshot is awaited outside any [try].  When writing it
    fails, [submitFormAndValidate] throws the screenshot's error after the
    first log line and the screenshot call, and no click attempt is issued;
    when it succeeds, a click attempt follows. *)
Theorem submitFormAndValidate_before_screenshot_gates_click {W}
        (drv : Driver W) (selector screenshotsDir : jsstring) (s : State W) :
  let path :=
    path_join drv screenshotsDir
      (js "before_submission_" ++ decimal (clock drv (S (clockReads s)))
          ++ js ".png") in
  let r := submitFormAndValidate drv selector screenshotsDir s in
  match page_screenshot drv path (world s) with
  | (Abrupt e, w1) =>
      outcome r = Thrown e /\ world (final r) = w1 /\
      trace r = [ ConsoleLog (clock drv (clockReads s))
                             (js "Preparing to submit the form...");
                  PageScreenshot path true ] /\
      attemptsMade selector (trace r) = 0
  | (Normal _, w1) => 1 <= attemptsMade selector (trace r)
  end.
Proof.
  cbv zeta. unfold submitFormAndValidate.
  match goal with
  | |- context [bind (tryCatch ?m ?h) ?k] =>
      remember (bind (tryCatch m h) k) as tail eqn:Htail
  end.
  unfold bind, page_screenshot_, call, logWithTimestamp, Date_now,
    console_log, ret.
  cbn.
  destruct (page_screenshot drv _ (world s)) as [[[]|e] w1]; cbn.
  - match goal with
    | |- context [tail ?s'] =>
        assert (Ht : 1 <= attemptsMade selector (trace (tail s')));
          [|destruct (tail s') as [[b|e|c] s4 t4]]
    end.
    + subst tail.
      rewrite trace_bind, trace_tryCatch, trace_bind, !attemptsMade_app.
      match goal with
      | |- context [retryClick drv selector 3 ?s'] =>
          pose proof (retryClick_attempts_once drv selector s')
      end.
      lia.
    + exact Ht.
    + exact Ht.
    + exact Ht.
  - repeat split.
Qed.

Example submitFormAndValidate_screenshot_failure :
  let r := submitFormAndValidate (simDriver timeoutError)
             config.selectors.submitButton (js "/app/screenshots")
             (initial simNoScreenshots) in
  outcome r = Thrown screenshotError /\
  forallb (fun e => negb (isClickAttemptCall e)) (trace r) = true.
Proof. vm_compute. split; reflexivity. Qed.

(** ** The whole run *)

Lemma TypedOnly_quiet (tr : list Event) :
  forallb (fun e => negb (isPageType e)) tr = true ->
  TypedOnlyAfterValidation tr.
Proof.
  intros Hq pre e post -> He. exfalso.
  rewrite forallb_app in Hq. apply andb_true_iff in Hq as [_ Hq].
  simpl in Hq. rewrite He in Hq. discriminate.
Qed.

Lemma TypedOnly_app_quiet_l (a b : list Event) :
  forallb (fun e => negb (isPageType e)) a = true ->
  TypedOnlyAfterValidation b -> TypedOnlyAfterValidation (a ++ b).
Proof.
  intros Ha Hb pre e post Heq He.
  apply app_eq_app in Heq as [l [[-> Hl] | [-> Hl]]].
  - destruct l as [|x l]; simpl in Hl.
    + destruct (Hb [] e post (eq_sym Hl) He) as [t []].
    + injection Hl as <- _. exfalso.
      rewrite forallb_app in Ha. apply andb_true_iff in Ha as [_ Ha].
      simpl in Ha. rewrite He in Ha. discriminate.
  - destruct (Hb l e post Hl He) as [t Ht].
    exists t. apply in_or_app. right. exact Ht.
Qed.

Lemma TypedOnly_app_quiet_r (a b : list Event) :
  TypedOnlyAfterValidation a ->
  forallb (fun e => negb (isPageType e)) b = true ->
  TypedOnlyAfterValidation (a ++ b).
Proof.
  intros Ha Hb pre e post Heq He.
  apply app_eq_app in Heq as [l [[-> Hl] | [-> Hl]]].
  - destruct l as [|x l]; simpl in Hl.
    + exfalso. rewrite <- Hl in Hb. simpl in Hb. rewrite He in Hb.
      discriminate.
    + injection Hl as <- _. apply (Ha pre e l); [reflexivity | exact He].
  - exfalso. rewrite Hl, forallb_app in Hb.
    apply andb_true_iff in Hb as [_ Hb]. simpl in Hb. rewrite He in Hb.
    discriminate.
Qed.

Lemma TypedOnly_app_marked (a b : list Event) (t : N) :
  forallb (fun e => negb (isPageType e)) a = true ->
  In (ConsoleLog t msgValidationPassed) a ->
  TypedOnlyAfterValidation (a ++ b).
Proof.
  intros Ha Hin pre e post Heq He.
  apply app_eq_app in Heq as [l [[-> Hl] | [-> Hl]]].
  - destruct l as [|x l]; simpl in Hl.
    + exists t. rewrite app_nil_r in Hin. exact Hin.
    + injection Hl as <- _. exfalso.
      rewrite forallb_app in Ha. apply andb_true_iff in Ha as [_ Ha].
      simpl in Ha. rewrite He in Ha. discriminate.
  - exists t. apply in_or_app. left. exact Hin.
Qed.

Section WholeRun.

Context {W : Type} (drv : Driver W).

Lemma Emits_weaken {A} (p q : Event -> bool) (m : M W A) :
  (forall e, p e = true -> q e = true) -> Emits p m -> Emits q m.
Proof.
  intros Hpq Hm s. specialize (Hm s). rewrite forallb_forall in *.
  intros e He. apply Hpq, Hm, He.
Qed.

Lemma Gated_quiet {A} (m : M W A) :
  Emits (fun e => negb (isPageType e)) m -> Gated m.
Proof. intros Hm s. apply TypedOnly_quiet, Hm. Qed.

Lemma Gated_bind {A B} (m : M W A) (f : A -> M W B) :
  Emits (fun e => negb (isPageType e)) m -> (forall a, Gated (f a)) ->
  Gated (bind m f).
Proof.
  intros Hm Hf s. rewrite trace_bind.
  apply TypedOnly_app_quiet_l; [apply Hm|].
  destruct (outcome (m s)); [apply Hf | | ]; apply TypedOnly_quiet; reflexivity.
Qed.

Lemma Gated_tryCatch {A} (m : M W A) (h : JsError -> M W A) :
  Gated m -> (forall e, Emits (fun e => negb (isPageType e)) (h e)) ->
  Gated (tryCatch m h).
Proof.
  intros Hm Hh s. rewrite trace_tryCatch.
  apply TypedOnly_app_quiet_r; [apply Hm|].
  destruct (outcome (m s)); [reflexivity | apply Hh | reflexivity].
Qed.

Lemma Emits_validateFormData (p : Event -> bool) (formData : JsObject) :
  (forall t message, p (ConsoleLog t message) = true) ->
  Emits p (validateFormData drv formData).
Proof.
  intros Hlog. unfold validateFormData.
  apply Emits_bind; [|intros; apply Emits_ret].
  destruct (Nat.eqb _ 0); [|apply Emits_ret].
  apply Emits_bind; [|intros]; apply Emits_log; intros; apply Hlog.
Qed.

(** What follows the validator sees the list it computed. *)
Lemma Emits_bind_validate {B} (p : Event -> bool) (formData : JsObject)
      (k : list jsstring -> M W B) :
  (forall t message, p (ConsoleLog t message) = true) ->
  Emits p (k (validationErrors formData)) ->
  Emits p (bind (validateFormData drv formData) k).
Proof.
  intros Hlog Hk s.
  rewrite trace_bind, validateFormData_outcome, forallb_app.
  rewrite (@Emits_validateFormData p formData Hlog s). apply Hk.
Qed.

Lemma Gated_bind_validate {B} (formData : JsObject)
      (k : list jsstring -> M W B) :
  (validationErrors formData <> [] ->
   Emits (fun e => negb (isPageType e)) (k (validationErrors formData))) ->
  Gated (bind (validateFormData drv formData) k).
Proof.
  intros Hk s. rewrite trace_bind, validateFormData_outcome.
  destruct (validationErrors formData) as [|m ms] eqn:E.
  - unfold validateFormData. rewrite E. cbn.
    match goal with
    | |- TypedOnlyAfterValidation (?a :: ?b :: ?rest) =>
        apply (@TypedOnly_app_marked [a; b] rest (clock drv (clockReads s)))
    end; [reflexivity | left; reflexivity].
  - apply TypedOnly_quiet. rewrite forallb_app.
    rewrite (@Emits_validateFormData (fun e => negb (isPageType e)) formData)
      by reflexivity.
    apply Hk. discriminate.
Qed.

End WholeRun.

Section RunAutomation.

Context {W : Type} (drv : Driver W).

Lemma Emits_ensureDirectoryExists (p : Event -> bool) (dirPath : jsstring) :
  (forall t message, p (ConsoleLog t message) = true) ->
  p (FsAccess dirPath) = true -> p (FsMkdir dirPath true) = true ->
  Emits p (ensureDirectoryExists drv dirPath).
Proof.
  intros Hlog Ha Hm. unfold ensureDirectoryExists, fs_access_, fs_mkdir_.
  repeat first
    [ apply Emits_log; intros; apply Hlog
    | apply Emits_call; assumption
    | apply Emits_bind; [|intros ?]
    | apply Emits_tryCatch; [|intros ?]
    | apply Emits_throw
    | match goal with
      | |- Emits _ (if ?b then _ else _) => destruct b
      | |- Emits _ (match ?x with _ => _ end) => destruct x
      end ].
Qed.

Lemma Emits_ensureFormLoaded :
  Emits (fun e => negb (fillsOrSubmits e)) (ensureFormLoaded drv).
Proof. unfold ensureFormLoaded. emits. Qed.

Lemma Emits_runAutomation_handler (error : JsError) :
  Emits (fun e => negb (fillsOrSubmits e))
        (logWithTimestamp drv (js "Error during automation: "
                                  ++ errMessage error) ;;
         browser_close_ drv ;; @process_exit W bool 1).
Proof. emits. Qed.

(** With a non-empty list of validation errors, a run neither fills nor
    submits. *)
Lemma runAutomationWith_untouched (formData : JsObject) :
  validationErrors formData <> [] ->
  Emits (fun e => negb (fillsOrSubmits e)) (runAutomationWith drv formData).
Proof.
  intros Hne. unfold runAutomationWith.
  do 4 (apply Emits_bind; [emits | intros ?]).
  apply Emits_tryCatch; [|intros; apply Emits_runAutomation_handler].
  do 2 (apply Emits_bind; [emits | intros ?]).
  cbv zeta.
  apply Emits_bind;
    [apply Emits_ensureDirectoryExists; intros; reflexivity | intros ?].
  apply Emits_bind; [apply Emits_ensureFormLoaded | intros ?].
  apply Emits_bind_validate; [reflexivity|].
  destruct (validationErrors formData) as [|m ms]; [congruence|].
  cbn [List.length Nat.ltb Nat.leb]. emits.
Qed.

Lemma fillsOrSubmits_isPageType (e : Event) :
  negb (fillsOrSubmits e) = true -> negb (isPageType e) = true.
Proof. destruct e; simpl; congruence. Qed.

Lemma runAutomationWith_gated (formData : JsObject) :
  Gated (runAutomationWith drv formData).
Proof.
  unfold runAutomationWith.
  do 4 (apply Gated_bind; [emits | intros ?]).
  apply Gated_tryCatch;
    [|intros; eapply Emits_weaken;
      [apply fillsOrSubmits_isPageType | apply Emits_runAutomation_handler]].
  do 2 (apply Gated_bind; [emits | intros ?]).
  cbv zeta.
  apply Gated_bind;
    [apply Emits_ensureDirectoryExists; intros; reflexivity | intros ?].
  apply Gated_bind;
    [eapply Emits_weaken;
     [apply fillsOrSubmits_isPageType | apply Emits_ensureFormLoaded]
    | intros ?].
  apply Gated_bind_validate. intros Hne.
  destruct (validationErrors formData) as [|m ms]; [congruence|].
  cbn [List.length Nat.ltb Nat.leb]. emits.
Qed.

Lemma validationErrors_messages (formData : JsObject) :
  incl (validationErrors formData)
       [msgNameEmpty; msgEmailInvalid; msgPhoneEmpty; msgCompanyEmpty].
Proof.
  unfold validationErrors, pushUnless.
  repeat match goal with
         | |- context [if ?b then _ else _] => destruct b
         end;
    intros m Hm; simpl in *; tauto.
Qed.

Lemma Emits_forOf_In {A} (p : Event -> bool) (xs : list A)
      (body : A -> M W unit) :
  (forall x, In x xs -> Emits p (body x)) -> Emits p (forOf xs body).
Proof.
  induction xs as [|x xs IH]; intros Hb; simpl.
  - apply Emits_ret.
  - apply Emits_bind; [apply Hb; left; reflexivity|].
    intros _. apply IH. intros y Hy. apply Hb. right. exact Hy.
Qed.

(** The validator's log line is written only by a validation that found
    nothing to report. *)
Lemma runAutomationWith_unmarked (formData : JsObject) :
  validationErrors formData <> [] ->
  Emits (fun e => negb (isValidationPassed e)) (runAutomationWith drv formData).
Proof.
  intros Hne. unfold runAutomationWith.
  do 4 (apply Emits_bind; [emits | intros ?]).
  apply Emits_tryCatch; [|intros; emits].
  do 2 (apply Emits_bind; [emits | intros ?]).
  cbv zeta.
  apply Emits_bind.
  { unfold ensureDirectoryExists. emits. }
  intros _.
  apply Emits_bind.
  { unfold ensureFormLoaded. emits. }
  intros _.
  intros s. rewrite trace_bind, validateFormData_outcome, forallb_app.
  pose proof (@validationErrors_messages formData) as Hmsgs.
  unfold validateFormData.
  destruct (validationErrors formData) as [|m ms]; [congruence|].
  cbn [List.length Nat.eqb Nat.ltb Nat.leb]. cbn [bind ret outcome trace final forallb app andb].
  revert s. 
  match goal with
  | |- forall s, forallb ?p (trace (?m _)) = true => change (Emits p m)
  end.
  apply Emits_bind; [emits | intros ?].
  apply Emits_bind; [|intros; apply Emits_ret].
  apply Emits_forOf_In. intros x Hx. apply Hmsgs in Hx.
  apply Emits_log. intros t.
  simpl in Hx. destruct Hx as [<- | [<- | [<- | [<- | []]]]]; reflexivity.
Qed.

(** C1: in every run, for every form data object, each [page.type] call
    comes after the validator's log line that all fields passed; that line
    is written only when the validator returned the empty list; and when the
    validator returns a non-empty list the run makes no call of the fill
    step ([page.type], [page.select]) and none of the submit step
    ([page.click], screenshots, the navigation wait, the reads of the URL
    and of the page text). *)
Theorem runAutomation_fills_only_after_validation
        (formData : JsObject) (s : State W) :
  let tr := trace (runAutomationWith drv formData s) in
  TypedOnlyAfterValidation tr /\
  ((exists t, In (ConsoleLog t msgValidationPassed) tr) ->
   validationErrors formData = []) /\
  (validationErrors formData <> [] ->
   forallb (fun e => negb (fillsOrSubmits e)) tr = true).
Proof.
  cbv zeta. split; [apply runAutomationWith_gated | split].
  - intros [t Hin].
    destruct (validationErrors formData) as [|m ms] eqn:E; [reflexivity|].
    exfalso.
    assert (Hq : forallb (fun e => negb (isValidationPassed e))
                         (trace (runAutomationWith drv formData s)) = true).
    { apply runAutomationWith_unmarked. rewrite E. discriminate. }
    rewrite forallb_forall in Hq. specialize (Hq _ Hin).
    cbn [isValidationPassed] in Hq. rewrite jsstring_eqb_refl in Hq.
    discriminate.
  - intros Hne. apply runAutomationWith_untouched, Hne.
Qed.

End RunAutomation.

Lemma runAutomation_fills_only_after_validation_witness :
  forallb (fun e => negb (fillsOrSubmits e))
          (trace (runAutomationWith (simDriver timeoutError) formDataNoAt
                                    (initial simForm))) = true.
Proof.
  apply (proj2 (proj2 (runAutomation_fills_only_after_validation
                         (simDriver timeoutError) formDataNoAt
                         (initial simForm)))).
  vm_compute. discriminate.
Defined.

(** The failure scenario: one message, about the e-mail format, and a run
    that stops with nothing typed, selected or clicked. *)
Example failure_scenario :
  let r := runAutomationWith (simDriver timeoutError) formDataNoAt
                             (initial simForm) in
  validationErrors formDataNoAt = [msgEmailInvalid] /\
  outcome r = Returned false /\
  simTyped (world (final r)) = [] /\
  filter fillsOrSubmits (trace r) = [].
Proof. vm_compute. repeat split. Qed.

(** The end-to-end scenario: the four fields are typed in order, the form is
    submitted at the first attempt, the thank-you URL is recognised, and the
    browser is closed once a line has arrived on stdin. *)
Example end_to_end_scenario :
  let r := main (simDriver timeoutError) (initial simForm) in
  outcome r = Returned tt /\
  simTyped (world (final r)) = theFormData /\
  attemptsMade config.selectors.submitButton (trace r) = 1 /\
  logged (js "Form successfully submitted and validated.") (trace r) = true /\
  simClosed (world (final r)) = true.
Proof. vm_compute. repeat split. Qed.

(** ** Releasing the browser *)

(** An error caught inside [runAutomation] closes the browser before the
    process exits with code 1. *)
Example main_closes_on_caught_error :
  let r := main (simDriver timeoutError) (initial simNeverVisible) in
  outcome r = Exited 1 /\
  simClosed (world (final r)) = true /\
  filter isBrowserClose (trace r) = [BrowserClose].
Proof. vm_compute. repeat split. Qed.

(** A run stopped by the validator returns without closing the browser and
    without asking for the ENTER key. *)
Example runAutomationWith_validation_failure_leaves_browser_open :
  let r := runAutomationWith (simDriver timeoutError) formDataNoAt
                             (initial simForm) in
  outcome r = Returned false /\
  In (PuppeteerLaunch false) (trace r) /\
  simClosed (world (final r)) = false /\
  filter isBrowserClose (trace r) = [].
Proof. vm_compute. repeat split. right. left. reflexivity. Qed.

(** C7: a browser that starts and then rejects the listing of its pages is
    never closed.  The error leaves [runAutomation] before its [try]; the
    handler at the bottom of the file logs it and then fails on the name
    [browser], which is not bound there, so that no close call is made and
    the run ends with a ReferenceError. *)
Theorem main_leaves_browser_open_when_pages_rejects :
  let r := main (simDriver timeoutError) (initial simPagesReject) in
  In (PuppeteerLaunch false) (trace r) /\
  filter isBrowserClose (trace r) = [] /\
  simClosed (world (final r)) = false /\
  outcome r = Thrown (ReferenceError (js "browser")).
Proof. vm_compute. repeat split. right. left. reflexivity. Qed.

(** * Further properties of the functions around the workflow *)

(** ** Outcomes of composed computations *)

Section OutcomeFacts.

Context {W : Type}.

Lemma outcome_bind {A B} (m : M W A) (f : A -> M W B) (s : State W) :
  outcome (bind m f s)
  = match outcome (m s) with
    | Returned a => outcome (f a (final (m s)))
    | Thrown e => Thrown e
    | Exited c => Exited c
    end.
Proof.
  unfold bind. destruct (m s) as [[a|e|c] s1 t1]; cbn;
    [destruct (f a s1)|..]; reflexivity.
Qed.

Lemma outcome_tryCatch {A} (m : M W A) (h : JsError -> M W A) (s : State W) :
  outcome (tryCatch m h s)
  = match outcome (m s) with
    | Thrown e => outcome (h e (final (m s)))
    | o => o
    end.
Proof.
  unfold tryCatch. destruct (m s) as [[a|e|c] s1 t1]; cbn;
    [|destruct (h e s1)|]; reflexivity.
Qed.

Lemma final_bind {A B} (m : M W A) (f : A -> M W B) (s : State W) :
  final (bind m f s)
  = match outcome (m s) with
    | Returned a => final (f a (final (m s)))
    | _ => final (m s)
    end.
Proof.
  unfold bind. destruct (m s) as [[a|e|c] s1 t1]; cbn;
    [destruct (f a s1)|..]; reflexivity.
Qed.

Lemma calls_app (a b : list Event) : calls (a ++ b) = calls a ++ calls b.
Proof. apply filter_app. Qed.

End OutcomeFacts.

(** ** ensureDirectoryExists *)

(** X1: [ensureDirectoryExists] by the outcome of [fs.access].  When the
    directory is accessible nothing else is called.  When the access fails
    with code ENOENT the directory is created, recursively, and a failure of
    that creation is thrown on.  When the access fails with any other code,
    or with none, the same error is thrown again and nothing is created. *)
Theorem ensureDirectoryExists_cases {W} (drv : Driver W) (dirPath : jsstring)
        (s : State W) :
  let r := ensureDirectoryExists drv dirPath s in
  match fs_access drv dirPath (world s) with
  | (Normal _, w1) =>
      outcome r = Returned tt /\ world (final r) = w1 /\
      calls (trace r) = [FsAccess dirPath]
  | (Abrupt e, w1) =>
      if isENOENT e then
        calls (trace r) = [FsAccess dirPath; FsMkdir dirPath true] /\
        match fs_mkdir drv dirPath w1 with
        | (Normal _, w2) => outcome r = Returned tt /\ world (final r) = w2
        | (Abrupt e2, w2) => outcome r = Thrown e2 /\ world (final r) = w2
        end
      else
        outcome r = Thrown e /\ world (final r) = w1 /\
        calls (trace r) = [FsAccess dirPath]
  end.
Proof.
  cbv zeta.
  unfold ensureDirectoryExists, isENOENT, tryCatch, bind, fs_access_,
    fs_mkdir_, call, logWithTimestamp, Date_now, console_log, ret, throw.
  cbn.
  destruct (fs_access drv dirPath (world s)) as [[[]|e] w1]; cbn.
  - repeat split.
  - destruct (errCode e) as [code|]; cbn; [|repeat split].
    destruct (jsstring_eqb code (js "ENOENT")); cbn; [|repeat split].
    destruct (fs_mkdir drv dirPath w1) as [[[]|e2] w2]; cbn; repeat split.
Qed.

(** On a machine without the directory the script creates it and goes on;
    a permission error is thrown on. *)
Example ensureDirectoryExists_creates_missing_directory :
  let r := ensureDirectoryExists (simDriverNoDirectory "ENOENT")
             (js "/app/screenshots") (initial simForm) in
  outcome r = Returned tt /\
  calls (trace r) = [ FsAccess (js "/app/screenshots");
                      FsMkdir (js "/app/screenshots") true ].
Proof. vm_compute. split; reflexivity. Qed.

Example ensureDirectoryExists_rethrows_other_errors :
  let r := ensureDirectoryExists (simDriverNoDirectory "EACCES")
             (js "/app/screenshots") (initial simForm) in
  outcome r = Thrown (accessError "EACCES") /\
  calls (trace r) = [ FsAccess (js "/app/screenshots") ].
Proof. vm_compute. split; reflexivity. Qed.

(** ** Loops over driver calls *)

Lemma call_run {W A} (ev : Event) (op : W -> Completion A * W) (s : State W) :
  call ev op s
  = mkRun (match fst (op (world s)) with
           | Normal a => Returned a
           | Abrupt e => Thrown e
           end)
          (mkState (snd (op (world s))) (clockReads s) (randomDraws s))
          [ev].
Proof. unfold call. destruct (op (world s)) as [[a|e] w]; reflexivity. Qed.

Lemma filter_all {A} (p : A -> bool) (l : list A) :
  forallb p l = true -> filter p l = l.
Proof.
  induction l as [|x l IH]; simpl; [reflexivity|].
  intros H. apply andb_true_iff in H as [Hx Hl]. rewrite Hx, IH by exact Hl.
  reflexivity.
Qed.

Lemma forallb_firstn {A} (p : A -> bool) (n : nat) (l : list A) :
  forallb p l = true -> forallb p (firstn n l) = true.
Proof.
  revert n. induction l as [|x l IH]; intros [|n]; simpl; try reflexivity.
  intros H. apply andb_true_iff in H as [Hx Hl]. rewrite Hx. apply IH, Hl.
Qed.

Lemma firstn_all_length {A} (l : list A) : firstn (List.length l) l = l.
Proof. induction l as [|x l IH]; simpl; [|rewrite IH]; reflexivity. Qed.

(** A loop of visibility waits makes them in list order and stops at the
    first one that fails. *)
Lemma forOf_waits {W} (drv : Driver W) (timeout : N) (xs : list jsstring)
      (s : State W) :
  let r := forOf xs (fun selector =>
                       page_waitForSelector_ drv selector true timeout) s in
  let waits := map (fun selector => PageWaitForSelector selector true timeout)
                   xs in
  (exists n, trace r = firstn n waits) /\
  (outcome r = Returned tt -> trace r = waits) /\
  (forall c, outcome r <> Exited c).
Proof.
  cbv zeta. revert s. induction xs as [|x xs IH]; intros s.
  - cbn. split; [exists 0; reflexivity
                | split; [reflexivity | intros; congruence]].
  - cbn [forOf map]. rewrite trace_bind, outcome_bind.
    change (page_waitForSelector_ drv x true timeout s)
      with (call (PageWaitForSelector x true timeout)
                 (page_waitForSelector drv x true timeout) s).
    rewrite call_run. cbn [outcome trace final].
    destruct (fst (page_waitForSelector drv x true timeout (world s)))
      as [[]|e].
    + destruct (IH (mkState
                      (snd (page_waitForSelector drv x true timeout (world s)))
                      (clockReads s) (randomDraws s)))
        as [[n Hn] [Hret Hexit]].
      split; [|split].
      * exists (S n). cbn [app firstn]. rewrite Hn. reflexivity.
      * intros H. cbn [app]. rewrite (Hret H). reflexivity.
      * exact Hexit.
    + split; [exists 1; reflexivity
             | split; [discriminate | intros; congruence]].
Qed.

(** ** ensureFormLoaded *)

Lemma calls_waits (n : nat) (timeout : N) (xs : list jsstring) :
  calls (firstn n (map (fun selector =>
                          PageWaitForSelector selector true timeout) xs))
  = firstn n (map (fun selector =>
                     PageWaitForSelector selector true timeout) xs).
Proof.
  apply filter_all, forallb_firstn, forallb_forall.
  intros e He. apply in_map_iff in He as [x [<- _]]. reflexivity.
Qed.

Lemma calls_waits_all (timeout : N) (xs : list jsstring) :
  calls (map (fun selector => PageWaitForSelector selector true timeout) xs)
  = map (fun selector => PageWaitForSelector selector true timeout) xs.
Proof.
  apply filter_all, forallb_forall.
  intros e He. apply in_map_iff in He as [x [<- _]]. reflexivity.
Qed.

Lemma ensureFormLoaded_calls {W} (drv : Driver W) (s : State W) :
  let r := ensureFormLoaded drv s in
  (exists n, calls (trace r) = firstn n formLoadWaits) /\
  (outcome r = Returned tt -> calls (trace r) = formLoadWaits) /\
  (forall c, outcome r <> Exited c).
Proof.
  cbv zeta. unfold ensureFormLoaded, formLoadWaits. cbv zeta.
  generalize (Object_values config.selectorsObject) as xs. intros xs.
  match goal with
  | |- context [forOf xs ?b] => remember (forOf xs b) as loop eqn:Hloop
  end.
  unfold bind, tryCatch, page_waitForSelector_, call,
    logWithTimestamp, Date_now, console_log, ret, throw.
  cbn.
  destruct (page_waitForSelector drv (js "body") false 30000 (world s))
    as [[[]|e] w1]; cbn.
  - match goal with
    | |- context [loop ?s1] =>
        pose proof (forOf_waits drv 20000 xs s1) as H;
          rewrite <- Hloop in H; cbv zeta in H;
          destruct H as [[n Hn] [Hret Hexit]];
          destruct (loop s1) as [[[]|e|c] s2 t2]
    end; cbn in *.
    + rewrite calls_app, Hret by reflexivity.
      rewrite calls_waits_all. cbn. rewrite app_nil_r.
      split; [|split; [intros _; reflexivity | intros; congruence]].
      exists (S (List.length xs)). cbn [firstn]. f_equal. symmetry.
      apply firstn_all2. rewrite length_map. lia.
    + rewrite calls_app, Hn, calls_waits. cbn. rewrite app_nil_r.
      split; [exists (S n); reflexivity
             | split; [discriminate | intros; congruence]].
    + exfalso. apply (Hexit c). reflexivity.
  - split; [exists 1; reflexivity
           | split; [discriminate | intros; congruence]].
Qed.

Lemma waitsUntilFailure_calls {W} (drv : Driver W) (xs : list jsstring)
      (w : W) :
  calls (callsMade (waitsUntilFailure drv xs w))
  = callsMade (waitsUntilFailure drv xs w).
Proof.
  apply filter_all. revert w.
  induction xs as [|x xs IH]; intros w; cbn [waitsUntilFailure];
    [reflexivity|].
  destruct (page_waitForSelector drv x true 20000 w) as [[[]|e] w1];
    cbn [callsMade forallb isConsoleLog negb andb]; [apply IH | reflexivity].
Qed.

(** A loop of visibility waits is the run of its waits up to the first one
    that fails: these calls and no other event, the error of the failing
    wait thrown, the world as that wait left it. *)
Lemma forOf_waits_run {W} (drv : Driver W) (xs : list jsstring)
      (s : State W) :
  forOf xs (fun selector => page_waitForSelector_ drv selector true 20000) s
  = mkRun (completionOutcome
             (callsCompletion (waitsUntilFailure drv xs (world s))))
          (mkState (callsWorld (waitsUntilFailure drv xs (world s)))
                   (clockReads s) (randomDraws s))
          (callsMade (waitsUntilFailure drv xs (world s))).
Proof.
  revert s. induction xs as [|x xs IH]; intros s.
  - destruct s. reflexivity.
  - cbn [forOf waitsUntilFailure]. unfold bind.
    change (page_waitForSelector_ drv x true 20000 s)
      with (call (PageWaitForSelector x true 20000)
                 (page_waitForSelector drv x true 20000) s).
    unfold call.
    destruct (page_waitForSelector drv x true 20000 (world s))
      as [[[]|e] w1]; [|reflexivity].
    rewrite IH. reflexivity.
Qed.

Lemma ensureFormLoaded_run {W} (drv : Driver W) (s : State W) :
  let r := ensureFormLoaded drv s in
  let run := formLoadRun drv (world s) in
  calls (trace r) = callsMade run /\
  outcome r = completionOutcome (callsCompletion run) /\
  world (final r) = callsWorld run.
Proof.
  cbv zeta. unfold ensureFormLoaded, formLoadRun. cbv zeta.
  generalize (Object_values config.selectorsObject) as xs. intros xs.
  match goal with
  | |- context [forOf xs ?b] => remember (forOf xs b) as loop eqn:Hloop
  end.
  unfold bind, tryCatch, page_waitForSelector_, call,
    logWithTimestamp, Date_now, console_log, ret, throw.
  cbn.
  destruct (page_waitForSelector drv (js "body") false 30000 (world s))
    as [[[]|e] w1]; cbn; [|repeat split; reflexivity].
  rewrite Hloop, forOf_waits_run. cbn [world clockReads randomDraws].
  pose proof (waitsUntilFailure_calls drv xs w1) as Hcalls.
  destruct (waitsUntilFailure drv xs w1) as [made [[]|e] w2];
    cbn [callsMade callsCompletion callsWorld completionOutcome] in *;
    cbn [outcome final trace world];
    (split; [|split; reflexivity]);
    unfold calls in *; cbn [filter isConsoleLog negb app];
    rewrite filter_app, Hcalls; cbn; rewrite app_nil_r; reflexivity.
Qed.

(** X2: [ensureFormLoaded] waits for the body (30 s, visibility not asked
    for) and then for the six selectors of [config.selectors] in their source
    order (20 s each, visible).  Each wait acts on the world the one before
    left; the first wait that fails is the last call made, and its error is
    what [ensureFormLoaded] throws, the world left as that wait left it.  It
    returns only after all seven waits were made, never exits, and calls
    nothing else but the console. *)
Theorem ensureFormLoaded_waits_in_order {W} (drv : Driver W) (s : State W) :
  let r := ensureFormLoaded drv s in
  let run := formLoadRun drv (world s) in
  calls (trace r) = callsMade run /\
  outcome r = completionOutcome (callsCompletion run) /\
  world (final r) = callsWorld run /\
  (exists n, callsMade run = firstn n formLoadWaits) /\
  (outcome r = Returned tt -> calls (trace r) = formLoadWaits) /\
  formLoadWaits
  = [ PageWaitForSelector (js "body") false 30000;
      PageWaitForSelector (js "#name") true 20000;
      PageWaitForSelector (js "#email") true 20000;
      PageWaitForSelector (js "#phone") true 20000;
      PageWaitForSelector (js "#company") true 20000;
      PageWaitForSelector (js "#employees") true 20000;
      PageWaitForSelector (js "button.primary.button") true 20000 ].
Proof.
  cbv zeta.
  destruct (ensureFormLoaded_run drv s) as [Hcalls [Hout Hworld]].
  destruct (ensureFormLoaded_calls drv s) as [[n Hn] [Hret _]].
  cbv zeta in *.
  split; [exact Hcalls|]. split; [exact Hout|]. split; [exact Hworld|].
  split; [exists n; rewrite <- Hcalls; exact Hn|].
  split; [exact Hret | reflexivity].
Qed.

Lemma ensureFormLoaded_waits_in_order_witness :
  calls (trace (ensureFormLoaded (simDriver timeoutError) (initial simForm)))
  = formLoadWaits.
Proof.
  apply (proj1 (proj2 (proj2 (proj2 (proj2
           (ensureFormLoaded_waits_in_order
              (simDriver timeoutError) (initial simForm))))))).
  vm_compute. reflexivity.
Defined.

(** ** fillFormFields *)

Lemma logWithTimestamp_run {W} (drv : Driver W) (message : jsstring)
      (s : State W) :
  logWithTimestamp drv message s
  = mkRun (Returned tt)
          (mkState (world s) (S (clockReads s)) (randomDraws s))
          [ConsoleLog (clock drv (clockReads s)) message].
Proof. reflexivity. Qed.

Lemma insertByIndex_In (p entry : jsstring * jsstring)
      (sorted : list (jsstring * jsstring)) :
  In p (insertByIndex entry sorted) <-> p = entry \/ In p sorted.
Proof.
  induction sorted as [|e rest IH]; cbn [insertByIndex].
  - cbn. intuition congruence.
  - destruct (N.leb (digitsValue (fst entry)) (digitsValue (fst e))); cbn.
    + intuition congruence.
    + rewrite IH. intuition congruence.
Qed.

Lemma sortByIndex_In (p : jsstring * jsstring)
      (entries : list (jsstring * jsstring)) :
  In p (sortByIndex entries) <-> In p entries.
Proof.
  unfold sortByIndex. induction entries as [|e rest IH]; cbn [fold_right].
  - reflexivity.
  - rewrite insertByIndex_In, IH. cbn. intuition congruence.
Qed.

(** [Object.entries] lists the own properties of the object and nothing
    else. *)
Lemma Object_entries_In (p : jsstring * jsstring) (o : JsObject) :
  In p (Object_entries o) <-> In p o.
Proof.
  unfold Object_entries, ownEntries.
  rewrite in_app_iff, sortByIndex_In, !filter_In.
  destruct (isArrayIndex (fst p)); cbn; intuition congruence.
Qed.

(** Without array-index keys [Object.entries] is the insertion order. *)
Lemma Object_entries_insertion_order (o : JsObject) :
  noArrayIndexKeys o = true -> Object_entries o = o.
Proof.
  unfold noArrayIndexKeys, Object_entries, ownEntries. intros H.
  assert (Hnone : filter (fun p => isArrayIndex (fst p)) o = []).
  { induction o as [|p o IH]; [reflexivity|]. cbn in *.
    apply andb_true_iff in H as [Hp Ho].
    destruct (isArrayIndex (fst p)); [discriminate|]. apply IH, Ho. }
  rewrite Hnone, (filter_all _ _ H). reflexivity.
Qed.

Lemma fillRun_prefix {W} (drv : Driver W) (k : nat)
      (entries : list (jsstring * jsstring)) (w : W) :
  (exists n, callsMade (fillRun drv k entries w)
             = firstn n (fillCalls drv k entries)) /\
  (callsCompletion (fillRun drv k entries w) = Normal tt ->
   callsMade (fillRun drv k entries w) = fillCalls drv k entries).
Proof.
  revert k w. induction entries as [|[selector value] rest IH]; intros k w.
  - split; [exists 0; reflexivity | reflexivity].
  - cbn [fillRun fillCalls].
    destruct (page_waitForSelector drv selector true 20000 w)
      as [[[]|e] w1].
    + destruct (page_type drv selector value _ w1) as [[[]|e] w2].
      * destruct (IH (S k) w2) as [[n Hn] Hall].
        cbn [callsMade callsCompletion].
        split; [exists (S (S n)); cbn [firstn]; rewrite Hn; reflexivity|].
        intros H. rewrite (Hall H). reflexivity.
      * cbn [callsMade callsCompletion].
        split; [exists 2; reflexivity | discriminate].
    + cbn [callsMade callsCompletion].
      split; [exists 1; reflexivity | discriminate].
Qed.

(** [fillFormFields] is the run of its waits and typings up to the first
    call that fails. *)
Lemma fillFormFields_run {W} (drv : Driver W) (formData : JsObject)
      (s : State W) :
  let r := fillFormFields drv formData s in
  let run := fillRun drv (randomDraws s) (Object_entries formData)
                     (world s) in
  calls (trace r) = callsMade run /\
  outcome r = completionOutcome (callsCompletion run) /\
  world (final r) = callsWorld run.
Proof.
  cbv zeta. unfold fillFormFields.
  generalize (Object_entries formData) as entries. intros entries.
  match goal with
  | |- context [forOf entries ?b] => set (body := b)
  end.
  assert (Hbody : forall selector value s0,
             let rb := body (selector, value) s0 in
             let run := fillRun drv (randomDraws s0) [(selector, value)]
                                (world s0) in
             calls (trace rb) = callsMade run /\
             outcome rb = completionOutcome (callsCompletion run) /\
             world (final rb) = callsWorld run /\
             (outcome rb = Returned tt ->
              randomDraws (final rb) = S (randomDraws s0))).
  { intros selector value s0. subst body. cbv beta iota zeta.
    unfold tryCatch, bind, page_waitForSelector_, page_type_, call,
      Math_floor_random_100, logWithTimestamp, Date_now, console_log, ret,
      throw.
    cbn.
    destruct (page_waitForSelector drv selector true 20000 (world s0))
      as [[[]|e] w1]; cbn.
    - destruct (page_type drv selector value _ w1) as [[[]|e] w2]; cbn;
        repeat split; intros; congruence.
    - repeat split; intros; congruence. }
  assert (Hloop : forall entries0 s0,
             let r := forOf entries0 body s0 in
             let run := fillRun drv (randomDraws s0) entries0 (world s0) in
             calls (trace r) = callsMade run /\
             outcome r = completionOutcome (callsCompletion run) /\
             world (final r) = callsWorld run).
  { clear s entries.
    induction entries0 as [|[selector value] rest IH]; intros s0.
    - cbn. repeat split; reflexivity.
    - cbv zeta. cbn [forOf].
      rewrite trace_bind, outcome_bind, final_bind, calls_app.
      destruct (Hbody selector value s0) as [Hc [Ho [Hw Hd]]].
      cbv zeta in *. cbn [fillRun] in *.
      destruct (page_waitForSelector drv selector true 20000 (world s0))
        as [[[]|e] w1].
      + destruct (page_type drv selector value _ w1) as [[[]|e] w2];
          cbn [callsMade callsCompletion callsWorld completionOutcome] in *.
        * rewrite Ho, Hc. specialize (Hd Ho).
          destruct (IH (final (body (selector, value) s0))) as [Ic [Io Iw]].
          cbv zeta in *. rewrite Hd, Hw in *. rewrite Ic, Io, Iw.
          repeat split; reflexivity.
        * rewrite Ho, Hc, Hw. cbn [app]. repeat split; reflexivity.
      + cbn [callsMade callsCompletion callsWorld completionOutcome] in *.
        rewrite Ho, Hc, Hw. cbn [app]. repeat split; reflexivity. }
  rewrite trace_bind, outcome_bind, final_bind, logWithTimestamp_run,
    calls_app.
  cbn [outcome final trace calls filter isConsoleLog negb app].
  apply (Hloop entries
               (mkState (world s) (S (clockReads s)) (randomDraws s))).
Qed.

Lemma fillFormFields_calls {W} (drv : Driver W) (formData : JsObject)
      (s : State W) :
  let r := fillFormFields drv formData s in
  let expected := fillCalls drv (randomDraws s) (Object_entries formData) in
  (exists n, calls (trace r) = firstn n expected) /\
  (outcome r = Returned tt -> calls (trace r) = expected) /\
  (forall c, outcome r <> Exited c).
Proof.
  cbv zeta.
  destruct (fillFormFields_run drv formData s) as [Hc [Ho _]].
  destruct (fillRun_prefix drv (randomDraws s) (Object_entries formData)
                           (world s)) as [[n Hn] Hall].
  cbv zeta in *. rewrite Hc, Ho.
  split; [exists n; exact Hn|].
  destruct (callsCompletion
              (fillRun drv (randomDraws s) (Object_entries formData)
                       (world s))) as [[]|e]; cbn [completionOutcome].
  - split; [intros _; apply Hall; reflexivity | intros; congruence].
  - split; [discriminate | intros; congruence].
Qed.

(** X3: [fillFormFields] works through the entries of the form data in the
    order of [Object.entries]: the keys that are array indices first, in
    ascending numeric order, then the other keys in insertion order, which
    for form data without an array-index key is the insertion order.  For
    each entry it makes one visibility wait on its selector (20 s) and then
    one [page.type] of its value on that selector, each call on the world the
    one before left.  The first call that fails is the last call made, and
    its error is what [fillFormFields] throws, the world left as that call
    left it; it returns only after every entry was typed, never exits, and
    calls nothing else but the console. *)
Theorem fillFormFields_types_entries_in_order {W} (drv : Driver W)
        (formData : JsObject) (s : State W) :
  let r := fillFormFields drv formData s in
  let entries := Object_entries formData in
  let run := fillRun drv (randomDraws s) entries (world s) in
  calls (trace r) = callsMade run /\
  outcome r = completionOutcome (callsCompletion run) /\
  world (final r) = callsWorld run /\
  (exists n, callsMade run = firstn n (fillCalls drv (randomDraws s) entries))
  /\
  (outcome r = Returned tt ->
   calls (trace r) = fillCalls drv (randomDraws s) entries) /\
  (noArrayIndexKeys formData = true -> entries = formData) /\
  Object_entries formDataIndexKeys
  = [ (js "9", js "nine"); (js "10", js "ten");
      (js "#name", js "Eden Oved") ].
Proof.
  cbv zeta.
  destruct (fillFormFields_run drv formData s) as [Hc [Ho Hw]].
  destruct (fillFormFields_calls drv formData s) as [_ [Hret _]].
  destruct (fillRun_prefix drv (randomDraws s) (Object_entries formData)
                           (world s)) as [Hpre _].
  cbv zeta in *.
  split; [exact Hc|]. split; [exact Ho|]. split; [exact Hw|].
  split; [exact Hpre|]. split; [exact Hret|].
  split; [apply Object_entries_insertion_order | reflexivity].
Qed.

Lemma fillFormFields_types_entries_in_order_witness :
  calls (trace (fillFormFields (simDriver timeoutError) theFormData
                               (initial simForm)))
  = fillCalls (simDriver timeoutError) 0 (Object_entries theFormData)
  /\ Object_entries theFormData = theFormData.
Proof.
  pose proof (fillFormFields_types_entries_in_order
                (simDriver timeoutError) theFormData (initial simForm)) as H.
  cbv zeta in H.
  destruct H as [_ [_ [_ [_ [Hret [Horder _]]]]]].
  split; [apply Hret | apply Horder]; vm_compute; reflexivity.
Defined.

Lemma fillCalls_delays {W} (drv : Driver W) (k : nat) (entries : JsObject) :
  (forall i, (randomFloor100 drv i < 100)%N) ->
  forallb typingDelayInRange (fillCalls drv k entries) = true.
Proof.
  intros Hrand. revert k.
  induction entries as [|[selector value] rest IH]; intros k; simpl;
    [reflexivity|].
  rewrite IH, andb_true_r. apply andb_true_iff. split.
  - apply N.leb_le. lia.
  - apply N.ltb_lt. specialize (Hrand k). lia.
Qed.

(** X4: when every [Math.floor(Math.random() * 100)] is below 100, each
    [page.type] of [fillFormFields] is given a per-character delay of at
    least 50 and less than 150. *)
Theorem fillFormFields_delay_in_range {W} (drv : Driver W)
        (formData : JsObject) (s : State W) :
  (forall i, (randomFloor100 drv i < 100)%N) ->
  forallb typingDelayInRange (trace (fillFormFields drv formData s)) = true.
Proof.
  intros Hrand.
  destruct (fillFormFields_calls drv formData s) as [[n Hn] _].
  cbv zeta in Hn.
  assert (Hcalls : forallb typingDelayInRange
                     (calls (trace (fillFormFields drv formData s))) = true).
  { rewrite Hn. apply forallb_firstn, fillCalls_delays, Hrand. }
  rewrite forallb_forall in *. intros e He.
  destruct (isConsoleLog e) eqn:Hlog.
  - destruct e; try discriminate Hlog. reflexivity.
  - apply Hcalls. apply filter_In. split; [exact He|].
    rewrite Hlog. reflexivity.
Qed.

Lemma fillFormFields_delay_in_range_witness :
  forallb typingDelayInRange
          (trace (fillFormFields (simDriver timeoutError) theFormData
                                 (initial simForm))) = true.
Proof.
  apply (fillFormFields_delay_in_range (simDriver timeoutError) theFormData
                                       (initial simForm)).
  intros i. apply N.mod_lt. discriminate.
Defined.

(** ** retryClick for any number of retries *)

Lemma retryClickAttempt_outcomes {W} (drv : Driver W) (selector : jsstring)
      (retries attempt : nat) (s : State W) :
  let r := retryClickAttempt drv selector retries attempt s in
  (forall c, outcome r <> Exited c) /\
  (outcome r = Returned (Some tt) -> In (PageClick selector) (trace r)) /\
  (outcome r = Returned None -> attempt <> retries) /\
  (forall e, outcome r = Thrown e -> attempt = retries).
Proof.
  unfold retryClickAttempt, tryCatch, bind, page_waitForSelector_,
    page_click_, call, logWithTimestamp, Date_now, console_log, ret, throw.
  cbn.
  destruct (page_waitForSelector drv selector true 10000 (world s))
    as [[[]|e] w1]; cbn.
  - destruct (page_click drv selector w1) as [[[]|e] w2]; cbn.
    + repeat split; try (intros; congruence).
      intros _. right. right. left. reflexivity.
    + destruct (Nat.eqb_spec attempt retries); cbn;
        repeat split; intros; congruence.
  - destruct (Nat.eqb_spec attempt retries); cbn;
      repeat split; intros; congruence.
Qed.

Lemma retryClickLoop_bounded {W} (drv : Driver W) (selector : jsstring)
      (retries remaining attempt : nat) (s : State W) :
  attempt + remaining = S retries ->
  let r := retryClickLoop drv selector retries remaining attempt s in
  attemptsMade selector (trace r) <= remaining /\
  (forall e, outcome r = Thrown e ->
             attemptsMade selector (trace r) = remaining) /\
  (outcome r = Returned tt -> 1 <= remaining ->
   In (PageClick selector) (trace r)) /\
  (forall c, outcome r <> Exited c).
Proof.
  revert attempt s.
  induction remaining as [|rem IH]; intros attempt s Hsum; cbv zeta.
  - cbn. repeat split; try (intros; congruence); try lia.
  - cbn [retryClickLoop]. rewrite trace_bind, outcome_bind, attemptsMade_app.
    destruct (retryClickAttempt_spec drv selector retries attempt s)
      as [Hone _].
    destruct (retryClickAttempt_outcomes drv selector retries attempt s)
      as [Hexit [Hclick [Hnone Hthrown]]].
    cbv zeta in *. rewrite Hone.
    destruct (outcome (retryClickAttempt drv selector retries attempt s))
      as [[[]|]|e|c] eqn:E.
    + cbn. repeat split; try (intros; congruence); try lia.
      intros _ _. apply in_or_app. left. apply Hclick. reflexivity.
    + assert (Hne : attempt <> retries) by (apply Hnone; reflexivity).
      destruct (IH (S attempt)
                   (final (retryClickAttempt drv selector retries attempt s)))
        as [Hle [Hthr [Hret Hex]]]; [lia|].
      cbv zeta in *. repeat split.
      * lia.
      * intros e He. rewrite (Hthr e He). reflexivity.
      * intros Hr _. apply in_or_app. right. apply Hret; [exact Hr | lia].
      * exact Hex.
    + assert (Heq : attempt = retries) by (apply (Hthrown e); reflexivity).
      cbn. repeat split; try (intros; congruence); try lia.
    + exfalso. apply (Hexit c). reflexivity.
Qed.

(** X5: [retryClick] for any number of retries.  It makes at most [retries]
    attempts; when it throws it has made exactly [retries] of them; when it
    returns with [retries] at least 1 the click was made; with [retries] 0
    it returns at once, having called nothing: no click and no log line. *)
Theorem retryClick_bounded_by_retries {W} (drv : Driver W)
        (selector : jsstring) (retries : nat) (s : State W) :
  let r := retryClick drv selector retries s in
  attemptsMade selector (trace r) <= retries /\
  (forall e, outcome r = Thrown e ->
             attemptsMade selector (trace r) = retries) /\
  (outcome r = Returned tt -> 1 <= retries ->
   In (PageClick selector) (trace r)) /\
  (retries = 0 -> outcome r = Returned tt /\ trace r = []) /\
  (forall c, outcome r <> Exited c).
Proof.
  cbv zeta. unfold retryClick.
  destruct (@retryClickLoop_bounded _ drv selector retries retries 1 s)
    as [Hle [Hthr [Hret Hex]]]; [lia|].
  repeat split; try assumption; subst retries; reflexivity.
Qed.

Lemma retryClick_bounded_by_retries_witness :
  In (PageClick config.selectors.submitButton)
     (trace (retryClick (simDriver timeoutError) config.selectors.submitButton
                        5 (initial simThirdTime))).
Proof.
  apply (retryClick_bounded_by_retries (simDriver timeoutError)
           config.selectors.submitButton 5 (initial simThirdTime)).
  - vm_compute. reflexivity.
  - lia.
Defined.

(** ** Computations that cannot return, or cannot exit *)

Section ReturnsAndExits.

Context {W : Type}.

Lemma NeverReturns_throw {A} (e : JsError) : NeverReturns (@throw W A e).
Proof. intros s a. discriminate. Qed.

Lemma NeverReturns_exit {A} (code : N) : NeverReturns (@process_exit W A code).
Proof. intros s a. discriminate. Qed.

Lemma NeverReturns_bind {A B} (m : M W A) (f : A -> M W B) :
  (forall a, NeverReturns (f a)) -> NeverReturns (bind m f).
Proof.
  intros Hf s b. rewrite outcome_bind.
  destruct (outcome (m s)); [apply Hf | discriminate | discriminate].
Qed.

Lemma NoExit_ret {A} (a : A) : NoExit (@ret W A a).
Proof. intros s c. discriminate. Qed.

Lemma NoExit_throw {A} (e : JsError) : NoExit (@throw W A e).
Proof. intros s c. discriminate. Qed.

Lemma NoExit_bind {A B} (m : M W A) (f : A -> M W B) :
  NoExit m -> (forall a, NoExit (f a)) -> NoExit (bind m f).
Proof.
  intros Hm Hf s c. rewrite outcome_bind.
  destruct (outcome (m s)) eqn:E;
    [apply Hf | discriminate | exfalso; exact (Hm s _ E)].
Qed.

Lemma NoExit_tryCatch {A} (m : M W A) (h : JsError -> M W A) :
  NoExit m -> (forall e, NoExit (h e)) -> NoExit (tryCatch m h).
Proof.
  intros Hm Hh s c. rewrite outcome_tryCatch.
  destruct (outcome (m s)) eqn:E;
    [discriminate | apply Hh | exfalso; exact (Hm s _ E)].
Qed.

Lemma NoExit_forOf {A} (xs : list A) (body : A -> M W unit) :
  (forall x, NoExit (body x)) -> NoExit (forOf xs body).
Proof.
  intros Hb. induction xs as [|x xs IH]; simpl.
  - apply NoExit_ret.
  - apply NoExit_bind; [apply Hb | intros _; exact IH].
Qed.

Lemma NoExit_call {A} (ev : Event) (op : W -> Completion A * W) :
  NoExit (call ev op).
Proof.
  intros s c. rewrite call_run. cbn.
  destruct (fst (op (world s))); discriminate.
Qed.

Lemma NoExit_Date_now (drv : Driver W) : NoExit (Date_now drv).
Proof. intros s c. discriminate. Qed.

Lemma NoExit_random (drv : Driver W) : NoExit (Math_floor_random_100 drv).
Proof. intros s c. discriminate. Qed.

Lemma NoExit_log (drv : Driver W) (message : jsstring) :
  NoExit (logWithTimestamp drv message).
Proof. intros s c. discriminate. Qed.

Lemma NoExit_page_url (drv : Driver W) : NoExit (page_url_ drv).
Proof. intros s c. discriminate. Qed.

Lemma NoExit_rl_question (prompt : jsstring) : NoExit (@rl_question W prompt).
Proof. intros s c. discriminate. Qed.

End ReturnsAndExits.

Ltac noexit_step :=
  match goal with
  | |- NoExit (bind _ _) => apply NoExit_bind; [|intros ?]
  | |- NoExit (tryCatch _ _) => apply NoExit_tryCatch; [|intros ?]
  | |- NoExit (forOf _ _) => apply NoExit_forOf; intros ?
  | |- NoExit (ret _) => apply NoExit_ret
  | |- NoExit (throw _) => apply NoExit_throw
  | |- NoExit (logWithTimestamp _ _) => apply NoExit_log
  | |- NoExit (Date_now _) => apply NoExit_Date_now
  | |- NoExit (Math_floor_random_100 _) => apply NoExit_random
  | |- NoExit (call _ _) => apply NoExit_call
  | |- NoExit (page_url_ _) => apply NoExit_page_url
  | |- NoExit (rl_question _) => apply NoExit_rl_question
  | |- NoExit (if ?b then _ else _) => destruct b
  | |- NoExit (match ?x with _ => _ end) => destruct x
  | |- NoExit _ =>
      progress unfold puppeteer_launch_, browser_pages_, browser_newPage_,
        browser_close_, page_goto_, page_waitForSelector_, page_type_,
        page_select_, page_click_, page_screenshot_, page_waitForNavigation_,
        page_evaluate_innerText, fs_access_, fs_mkdir_
  end.

Ltac noexit := repeat noexit_step.

(** ** The success detector and its screenshot *)

(** X6: a false verdict of the detector always comes with an artifact: the
    page text was read and a screenshot named [validation_failed_<time>.png]
    was written under the screenshots directory.  A true verdict never
    takes a screenshot. *)
Theorem validateThankYouPageContent_false_leaves_screenshot {W}
        (drv : Driver W) (screenshotsDir : jsstring) (s : State W) :
  let r := validateThankYouPageContent drv screenshotsDir s in
  (outcome r = Returned false ->
   In PageEvaluateInnerText (trace r) /\
   exists now,
     In (PageScreenshot
           (path_join drv screenshotsDir
              (js "validation_failed_" ++ decimal now ++ js ".png")) true)
        (trace r)) /\
  (outcome r = Returned true ->
   forallb (fun e => negb (isScreenshot e)) (trace r) = true).
Proof.
  cbv zeta. unfold validateThankYouPageContent.
  generalize config.thankYouText as frags. intros frags.
  unfold bind, tryCatch, page_url_, page_evaluate_innerText,
    page_screenshot_, call, logWithTimestamp, Date_now, console_log, ret,
    throw.
  cbn.
  destruct (includes (page_url drv (world s)) config.thankYouPage); cbn.
  - split; [discriminate | reflexivity].
  - destruct (page_innerText drv (world s)) as [[text|e] w1]; cbn.
    + destruct (forallb (fun text0 => includes text text0) frags); cbn.
      * split; [discriminate | reflexivity].
      * match goal with
        | |- context [page_screenshot drv ?p ?w] =>
            destruct (page_screenshot drv p w) as [[[]|e] w2]
        end; cbn.
        -- split; [|discriminate]. intros _. split.
           ++ do 2 right. left. reflexivity.
           ++ eexists. do 4 right. left. reflexivity.
        -- split; discriminate.
    + split; discriminate.
Qed.

Lemma validateThankYouPageContent_false_leaves_screenshot_witness :
  In PageEvaluateInnerText
     (trace (validateThankYouPageContent (simDriver timeoutError)
               (js "/app/screenshots") (initial simHalfText))).
Proof.
  apply (proj1 (validateThankYouPageContent_false_leaves_screenshot
                  (simDriver timeoutError) (js "/app/screenshots")
                  (initial simHalfText))).
  vm_compute. reflexivity.
Defined.

(** ** Events that come only after other events *)

Section Ordering.

Variables isB isA : Event -> bool.

Lemma OnlyAfter_quiet (tr : list Event) :
  forallb (fun e => negb (isA e)) tr = true -> OnlyAfter isB isA tr.
Proof.
  intros Hq pre e post -> He. exfalso.
  rewrite forallb_app in Hq. apply andb_true_iff in Hq as [_ Hq].
  simpl in Hq. rewrite He in Hq. discriminate.
Qed.

Lemma OnlyAfter_app (a b : list Event) :
  OnlyAfter isB isA a ->
  OnlyAfter isB isA b \/ existsb isB a = true ->
  OnlyAfter isB isA (a ++ b).
Proof.
  intros Ha Hb pre e post Heq He.
  apply app_eq_app in Heq as [l [[-> Hl] | [-> Hl]]].
  - destruct l as [|x l]; simpl in Hl.
    + rewrite app_nil_r in *. destruct Hb as [Hb | Hb]; [|exact Hb].
      pose proof (Hb [] e post (eq_sym Hl) He) as F. discriminate F.
    + injection Hl as <- _. apply (Ha pre e l eq_refl He).
  - rewrite existsb_app. destruct Hb as [Hb | Hb].
    + rewrite (Hb l e post Hl He). apply orb_true_r.
    + rewrite Hb. reflexivity.
Qed.

Lemma OnlyAfter_app_quiet_l (a b : list Event) :
  forallb (fun e => negb (isA e)) a = true ->
  OnlyAfter isB isA b -> OnlyAfter isB isA (a ++ b).
Proof.
  intros Ha Hb pre e post Heq He.
  apply app_eq_app in Heq as [l [[-> Hl] | [-> Hl]]].
  - destruct l as [|x l]; simpl in Hl.
    + pose proof (Hb [] e post (eq_sym Hl) He) as F. discriminate F.
    + injection Hl as <- _. exfalso.
      rewrite forallb_app in Ha. apply andb_true_iff in Ha as [_ Ha].
      simpl in Ha. rewrite He in Ha. discriminate.
  - rewrite existsb_app, (Hb l e post Hl He). apply orb_true_r.
Qed.

Context {W : Type}.

Lemma OnlyAfter_Emits {A} (m : M W A) :
  Emits (fun e => negb (isA e)) m ->
  forall s, OnlyAfter isB isA (trace (m s)).
Proof. intros Hm s. apply OnlyAfter_quiet, Hm. Qed.

(** After a computation that leaves a [isB] event whenever it returns,
    anything may follow. *)
Lemma OnlyAfter_bind_marks {A B} (m : M W A) (f : A -> M W B) :
  (forall s, OnlyAfter isB isA (trace (m s))) ->
  (forall s a, outcome (m s) = Returned a ->
               existsb isB (trace (m s)) = true) ->
  forall s, OnlyAfter isB isA (trace (bind m f s)).
Proof.
  intros Hm Hmark s. rewrite trace_bind.
  apply OnlyAfter_app; [apply Hm|].
  destruct (outcome (m s)) eqn:E.
  - right. apply (Hmark s a E).
  - left. apply OnlyAfter_quiet. reflexivity.
  - left. apply OnlyAfter_quiet. reflexivity.
Qed.

Lemma OnlyAfter_bind {A B} (m : M W A) (f : A -> M W B) :
  Emits (fun e => negb (isA e)) m ->
  (forall a s, OnlyAfter isB isA (trace (f a s))) ->
  forall s, OnlyAfter isB isA (trace (bind m f s)).
Proof.
  intros Hm Hf s. rewrite trace_bind.
  apply OnlyAfter_app_quiet_l; [apply Hm|].
  destruct (outcome (m s)); [apply Hf | |]; apply OnlyAfter_quiet;
    reflexivity.
Qed.

(** What follows is quiet. *)
Lemma OnlyAfter_bind_quiet {A B} (m : M W A) (f : A -> M W B) :
  (forall s, OnlyAfter isB isA (trace (m s))) ->
  (forall a, Emits (fun e => negb (isA e)) (f a)) ->
  forall s, OnlyAfter isB isA (trace (bind m f s)).
Proof.
  intros Hm Hf s. rewrite trace_bind.
  apply OnlyAfter_app; [apply Hm|]. left.
  destruct (outcome (m s)); [apply OnlyAfter_quiet, Hf | |];
    apply OnlyAfter_quiet; reflexivity.
Qed.

Lemma OnlyAfter_tryCatch {A} (m : M W A) (h : JsError -> M W A) :
  (forall s, OnlyAfter isB isA (trace (m s))) ->
  (forall e, Emits (fun e => negb (isA e)) (h e)) ->
  forall s, OnlyAfter isB isA (trace (tryCatch m h s)).
Proof.
  intros Hm Hh s. rewrite trace_tryCatch.
  apply OnlyAfter_app; [apply Hm|]. left.
  destruct (outcome (m s)); [|apply OnlyAfter_quiet, Hh|];
    apply OnlyAfter_quiet; reflexivity.
Qed.

End Ordering.

(** ** submitFormAndValidate: the order of its steps *)

Lemma Emits_page_url {W} (p : Event -> bool) (drv : Driver W) :
  p PageUrl = true -> Emits p (page_url_ drv).
Proof. intros H s. cbn. rewrite H. reflexivity. Qed.

Lemma Emits_rl_question {W} (p : Event -> bool) (prompt : jsstring) :
  p (ReadlineQuestion prompt) = true -> Emits p (@rl_question W prompt).
Proof. intros H s. cbn. rewrite H. reflexivity. Qed.

Lemma Emits_rl_close {W} (p : Event -> bool) :
  p ReadlineClose = true -> Emits p (@rl_close W).
Proof. intros H s. cbn. rewrite H. reflexivity. Qed.

Ltac emits_all :=
  repeat first
    [ emits_step
    | apply Emits_page_url; reflexivity
    | apply Emits_rl_question; reflexivity
    | apply Emits_rl_close; reflexivity ].

Lemma Emits_retryClick {W} (p : Event -> bool) (drv : Driver W)
      (selector : jsstring) (retries : nat) :
  (forall e, isConsoleLog e || isClickAttemptCall e = true -> p e = true) ->
  Emits p (retryClick drv selector retries).
Proof.
  intros Hp. eapply Emits_weaken; [exact Hp|].
  apply Emits_retryClickLoop.
Qed.

Lemma retryClick_returns_after_click {W} (drv : Driver W)
      (selector : jsstring) (s : State W) (a : unit) :
  outcome (retryClick drv selector 3 s) = Returned a ->
  existsb isPageClick (trace (retryClick drv selector 3 s)) = true.
Proof.
  intros H. destruct a. apply existsb_exists. exists (PageClick selector).
  split; [|reflexivity].
  unfold retryClick in *.
  apply (@retryClickLoop_bounded _ drv selector 3 3 1 s eq_refl);
    [exact H | lia].
Qed.

Lemma validateThankYouPageContent_reads_url {W} (drv : Driver W)
      (screenshotsDir : jsstring) (s : State W) :
  existsb isPageUrl (trace (validateThankYouPageContent drv screenshotsDir s))
  = true.
Proof.
  unfold validateThankYouPageContent. rewrite trace_bind. reflexivity.
Qed.

(** The [try] block of [submitFormAndValidate] returns only after the click
    and the navigation wait, and it never reads the URL. *)
Lemma submit_try_block {W} (drv : Driver W) (selector : jsstring)
      (h : JsError -> M W unit) (s : State W) (a : unit) :
  (forall e, NeverReturns (h e)) ->
  let block :=
    tryCatch
      (retryClick drv selector 3 ;;
       logWithTimestamp drv (js "Form submitted, waiting for navigation...") ;;
       logWithTimestamp drv msgRule ;;
       page_waitForNavigation_ drv (js "networkidle0") 30000) h in
  outcome (block s) = Returned a ->
  existsb isPageClick (trace (block s)) = true /\
  existsb isNavigationWait (trace (block s)) = true.
Proof.
  intros Hh. cbv zeta. rewrite outcome_tryCatch, trace_tryCatch.
  match goal with
  | |- context [outcome (?body s)] => set (B := body)
  end.
  destruct (outcome (B s)) as [[]|e|c] eqn:EB; intros H;
    [|exfalso; exact (Hh e _ _ H)|discriminate H].
  rewrite app_nil_r. subst B.
  rewrite outcome_bind in EB. rewrite trace_bind.
  destruct (outcome (retryClick drv selector 3 s)) as [[]|e|c] eqn:ER;
    try discriminate EB.
  rewrite !existsb_app.
  rewrite (retryClick_returns_after_click drv selector s ER).
  split; [reflexivity|].
  rewrite !trace_bind, !logWithTimestamp_run. cbn [outcome final trace].
  unfold page_waitForNavigation_. rewrite call_run. cbn.
  apply orb_true_r.
Qed.

Lemma submit_handler_never_returns {W} (drv : Driver W)
      (screenshotsDir : jsstring) (error : JsError) :
  NeverReturns
    (logWithTimestamp drv (js "Error during form submission:") ;;
     now <- Date_now drv ;;
     page_screenshot_ drv
       (path_join drv screenshotsDir
          (js "submission_error_" ++ decimal now ++ js ".png")) ;;
     logWithTimestamp drv
       (js "Error screenshot saved: "
           ++ path_join drv screenshotsDir
                (js "submission_error_" ++ decimal now ++ js ".png")) ;;
     @throw W unit error).
Proof.
  repeat (apply NeverReturns_bind; intros ?). apply NeverReturns_throw.
Qed.

(** A run of [submitFormAndValidate] that returns a verdict has clicked,
    waited for the navigation and read the URL. *)
Lemma submitFormAndValidate_returned_marks {W} (drv : Driver W)
      (selector screenshotsDir : jsstring) (s : State W) :
  let r := submitFormAndValidate drv selector screenshotsDir s in
  forall verdict, outcome r = Returned verdict ->
    existsb isPageClick (trace r) = true /\
    existsb isNavigationWait (trace r) = true /\
    existsb isPageUrl (trace r) = true.
Proof.
  cbv zeta. intros verdict. unfold submitFormAndValidate.
  pose proof (validateThankYouPageContent_reads_url drv screenshotsDir)
    as HV.
  remember (validateThankYouPageContent drv screenshotsDir) as V eqn:HeqV.
  match goal with
  | |- context [bind (tryCatch ?m ?h) _] =>
      remember (tryCatch m h) as T eqn:HeqT
  end.
  assert (HT : forall s1 u, outcome (T s1) = Returned u ->
               existsb isPageClick (trace (T s1)) = true /\
               existsb isNavigationWait (trace (T s1)) = true).
  { subst T. intros s1 u H.
    apply (@submit_try_block _ drv selector _ s1 u
             (submit_handler_never_returns drv screenshotsDir) H). }
  clear HeqT HeqV.
  unfold bind, page_screenshot_, call, logWithTimestamp, Date_now,
    console_log, ret.
  cbn.
  destruct (page_screenshot drv _ (world s)) as [[[]|e] w1]; cbn;
    [|discriminate].
  match goal with
  | |- context [T ?s1] =>
      specialize (HT s1); destruct (T s1) as [[u|e|c] s2 t2]
  end; cbn in *; try discriminate.
  destruct (HT u eq_refl) as [Hclick Hnav].
  specialize (HV s2). destruct (V s2) as [o s3 t3]. cbn in *.
  intros _. rewrite !existsb_app, Hclick, Hnav, HV.
  repeat split; apply orb_true_r.
Qed.

(** X7: the steps of [submitFormAndValidate] keep their order in every run:
    the navigation wait is made only after a click, and the page URL is
    read only after the navigation wait.  A run that returns a verdict has
    clicked, waited for the navigation and read the URL. *)
Theorem submitFormAndValidate_steps_in_order {W} (drv : Driver W)
        (selector screenshotsDir : jsstring) (s : State W) :
  let r := submitFormAndValidate drv selector screenshotsDir s in
  OnlyAfter isPageClick isNavigationWait (trace r) /\
  OnlyAfter isNavigationWait isPageUrl (trace r) /\
  (forall verdict, outcome r = Returned verdict ->
     existsb isPageClick (trace r) = true /\
     existsb isNavigationWait (trace r) = true /\
     existsb isPageUrl (trace r) = true).
Proof.
  cbv zeta. split; [|split].
  - revert s. unfold submitFormAndValidate.
    do 4 (apply OnlyAfter_bind; [emits | intros ?]). cbv zeta.
    apply OnlyAfter_bind_quiet;
      [|intros; unfold validateThankYouPageContent; emits_all].
    apply OnlyAfter_tryCatch; [|intros; emits].
    apply OnlyAfter_bind_marks.
    + apply OnlyAfter_Emits, Emits_retryClick.
      intros e He. destruct e; try discriminate He; reflexivity.
    + intros s0 u. apply retryClick_returns_after_click.
  - revert s. unfold submitFormAndValidate.
    do 4 (apply OnlyAfter_bind; [emits | intros ?]). cbv zeta.
    apply OnlyAfter_bind_marks.
    + apply OnlyAfter_Emits.
      apply Emits_tryCatch; [|intros; emits].
      apply Emits_bind; [|intros; emits].
      apply Emits_retryClick.
      intros e He. destruct e; try discriminate He; reflexivity.
    + intros s0 u H.
      apply (@submit_try_block _ drv selector _ s0 u
               (submit_handler_never_returns drv screenshotsDir) H).
  - apply submitFormAndValidate_returned_marks.
Qed.

Lemma submitFormAndValidate_steps_in_order_witness :
  existsb isPageClick
    (trace (submitFormAndValidate (simDriver timeoutError)
              config.selectors.submitButton (js "/app/screenshots")
              (initial simForm))) = true.
Proof.
  apply (proj2 (proj2 (submitFormAndValidate_steps_in_order
                         (simDriver timeoutError)
                         config.selectors.submitButton
                         (js "/app/screenshots") (initial simForm)))
               true).
  vm_compute. reflexivity.
Defined.

(** ** submitFormAndValidate: failures *)

(** X8: a navigation timeout.  With screenshots that can be written, a
    submit button that is visible and takes the click, and a navigation wait
    that fails with [e], [submitFormAndValidate] makes exactly five calls:
    the before-screenshot, one visibility wait, one click, the navigation
    wait and a [submission_error_<time>.png] screenshot; then it throws [e]
    itself.  The page URL is never read. *)
Theorem submitFormAndValidate_navigation_timeout {W} (drv : Driver W)
        (selector screenshotsDir : jsstring) (s : State W) (e : JsError) :
  (forall path w, exists w', page_screenshot drv path w = (Normal tt, w')) ->
  (forall w, exists w',
      page_waitForSelector drv selector true 10000 w = (Normal tt, w')) ->
  (forall w, exists w', page_click drv selector w = (Normal tt, w')) ->
  (forall w, exists w', page_waitForNavigation drv w = (Abrupt e, w')) ->
  let r := submitFormAndValidate drv selector screenshotsDir s in
  outcome r = Thrown e /\
  calls (trace r)
  = [ PageScreenshot
        (path_join drv screenshotsDir
           (js "before_submission_" ++ decimal (clock drv (S (clockReads s)))
               ++ js ".png")) true;
      PageWaitForSelector selector true 10000;
      PageClick selector;
      PageWaitForNavigation (js "networkidle0") 30000;
      PageScreenshot
        (path_join drv screenshotsDir
           (js "submission_error_"
               ++ decimal (clock drv (8 + clockReads s)) ++ js ".png")) true ].
Proof.
  intros Hshot Hwait Hclick Hnav. cbv zeta.
  unfold submitFormAndValidate, retryClick.
  cbn [retryClickLoop]. unfold retryClickAttempt.
  remember (validateThankYouPageContent drv screenshotsDir) as V.
  unfold bind, tryCatch, page_screenshot_, page_waitForSelector_,
    page_click_, page_waitForNavigation_, call, logWithTimestamp, Date_now,
    console_log, ret, throw.
  cbn.
  repeat match goal with
         | |- context [page_screenshot drv ?p ?w] =>
             let w' := fresh "w" in
             let H := fresh "H" in
             destruct (Hshot p w) as [w' H]; rewrite H; clear H; cbn
         | |- context [page_waitForSelector drv selector true 10000 ?w] =>
             let w' := fresh "w" in
             let H := fresh "H" in
             destruct (Hwait w) as [w' H]; rewrite H; clear H; cbn
         | |- context [page_click drv selector ?w] =>
             let w' := fresh "w" in
             let H := fresh "H" in
             destruct (Hclick w) as [w' H]; rewrite H; clear H; cbn
         | |- context [page_waitForNavigation drv ?w] =>
             let w' := fresh "w" in
             let H := fresh "H" in
             destruct (Hnav w) as [w' H]; rewrite H; clear H; cbn
         end.
  split; reflexivity.
Qed.

Lemma submitFormAndValidate_navigation_timeout_witness :
  outcome (submitFormAndValidate simDriverNoNavigation
             config.selectors.submitButton (js "/app/screenshots")
             (initial simForm))
  = Thrown timeoutError.
Proof.
  apply (submitFormAndValidate_navigation_timeout simDriverNoNavigation
           config.selectors.submitButton (js "/app/screenshots")
           (initial simForm) (e := timeoutError)).
  - intros path w. eexists. reflexivity.
  - intros w. eexists. reflexivity.
  - intros w. eexists. reflexivity.
  - intros w. eexists. reflexivity.
Defined.

Lemma NoExit_retryClickLoop {W} (drv : Driver W) (selector : jsstring)
      (retries remaining attempt : nat) :
  NoExit (retryClickLoop drv selector retries remaining attempt).
Proof.
  revert attempt. induction remaining as [|n IH]; intros attempt; simpl.
  - apply NoExit_ret.
  - apply NoExit_bind.
    + unfold retryClickAttempt. noexit.
    + intros [[]|]; [apply NoExit_ret | apply IH].
Qed.

(** When the [try] block of [submitFormAndValidate] does not return, its
    handler has asked for the error screenshot. *)
Lemma submit_try_block_failure {W} (drv : Driver W)
      (selector screenshotsDir : jsstring) (s : State W) :
  let block :=
    tryCatch
      (retryClick drv selector 3 ;;
       logWithTimestamp drv (js "Form submitted, waiting for navigation...") ;;
       logWithTimestamp drv msgRule ;;
       page_waitForNavigation_ drv (js "networkidle0") 30000)
      (fun error =>
         logWithTimestamp drv (js "Error during form submission:") ;;
         now <- Date_now drv ;;
         page_screenshot_ drv
           (path_join drv screenshotsDir
              (js "submission_error_" ++ decimal now ++ js ".png")) ;;
         logWithTimestamp drv
           (js "Error screenshot saved: "
               ++ path_join drv screenshotsDir
                    (js "submission_error_" ++ decimal now ++ js ".png")) ;;
         throw error) in
  (forall a, outcome (block s) <> Returned a) ->
  exists now,
    In (PageScreenshot
          (path_join drv screenshotsDir
             (js "submission_error_" ++ decimal now ++ js ".png")) true)
       (trace (block s)).
Proof.
  cbv zeta. rewrite outcome_tryCatch, trace_tryCatch.
  match goal with
  | |- context [outcome (?body s)] => set (B := body)
  end.
  assert (HB : NoExit B).
  { subst B. apply NoExit_bind; [apply NoExit_retryClickLoop|].
    intros. noexit. }
  destruct (outcome (B s)) as [a|e|c] eqn:EB; intros Hnr.
  - exfalso. apply (Hnr a). reflexivity.
  - eexists. apply in_or_app. right.
    unfold bind, page_screenshot_, call, logWithTimestamp, Date_now,
      console_log, ret, throw.
    cbn.
    destruct (page_screenshot drv _ (world (final (B s)))) as [[[]|e'] w1];
      cbn; right; left; reflexivity.
  - exfalso. exact (HB s c EB).
Qed.

(** X9: a failure of the submit step leaves an artifact.  When
    [submitFormAndValidate] throws without having read the page URL, either
    no click attempt was made (the before-screenshot itself failed) or a
    screenshot named [submission_error_<time>.png] was asked for under the
    screenshots directory. *)
Theorem submitFormAndValidate_failure_leaves_screenshot {W} (drv : Driver W)
        (selector screenshotsDir : jsstring) (s : State W) (e : JsError) :
  let r := submitFormAndValidate drv selector screenshotsDir s in
  outcome r = Thrown e ->
  existsb isPageUrl (trace r) = false ->
  attemptsMade selector (trace r) = 0 \/
  exists now,
    In (PageScreenshot
          (path_join drv screenshotsDir
             (js "submission_error_" ++ decimal now ++ js ".png")) true)
       (trace r).
Proof.
  cbv zeta. unfold submitFormAndValidate.
  pose proof (validateThankYouPageContent_reads_url drv screenshotsDir)
    as HV.
  remember (validateThankYouPageContent drv screenshotsDir) as V eqn:HeqV.
  pose proof (submit_try_block_failure drv selector screenshotsDir) as HT.
  cbv zeta in HT.
  match goal with
  | |- context [bind (tryCatch ?m ?h) _] =>
      remember (tryCatch m h) as T eqn:HeqT
  end.
  clear HeqT HeqV.
  unfold bind, page_screenshot_, call, logWithTimestamp, Date_now,
    console_log, ret.
  cbn.
  destruct (page_screenshot drv _ (world s)) as [[[]|e0] w1]; cbn.
  - match goal with
    | |- context [T ?s1] =>
        specialize (HT s1); destruct (T s1) as [[u|e1|c] s2 t2]
    end; cbn in *.
    + specialize (HV s2). destruct (V s2) as [o s3 t3]. cbn in *.
      intros _ Hurl. rewrite existsb_app, HV, orb_true_r in Hurl.
      discriminate Hurl.
    + intros _ _. right. destruct HT as [now Hin]; [discriminate|].
      exists now. do 3 right. exact Hin.
    + intros H. discriminate H.
  - intros _ _. left. reflexivity.
Qed.

Lemma submitFormAndValidate_failure_leaves_screenshot_witness :
  let r := submitFormAndValidate (simDriver timeoutError)
             config.selectors.submitButton (js "/app/screenshots")
             (initial simNeverVisible) in
  attemptsMade config.selectors.submitButton (trace r) = 0 \/
  exists now,
    In (PageScreenshot
          (path_join (simDriver timeoutError) (js "/app/screenshots")
             (js "submission_error_" ++ decimal now ++ js ".png")) true)
       (trace r).
Proof.
  apply (submitFormAndValidate_failure_leaves_screenshot
           (simDriver timeoutError) config.selectors.submitButton
           (js "/app/screenshots") (initial simNeverVisible)
           (e := timeoutError)).
  - vm_compute. reflexivity.
  - vm_compute. reflexivity.
Defined.

(** ** The validator: what it accepts, what it reports *)

Lemma forallb_false_iff {A} (p : A -> bool) (l : list A) :
  forallb p l = false <-> exists x, In x l /\ p x = false.
Proof.
  induction l as [|x l IH]; simpl.
  - split; [discriminate | intros [x [[] _]]].
  - rewrite andb_false_iff, IH. split.
    + intros [H | [y [Hy Hp]]]; [exists x; auto | exists y; auto].
    + intros [y [[<- | Hy] Hp]]; [left; exact Hp | right; exists y; auto].
Qed.

Lemma nonEmptyRegex_test_iff (v : JsValue) :
  RegExp_test nonEmptyRegex v = true <-> passesNonEmpty v.
Proof.
  destruct v as [|s].
  - split; [intros _; exact I | intros _; reflexivity].
  - unfold RegExp_test, ToString, passesNonEmpty. rewrite nonEmptyRegex_spec.
    rewrite andb_true_iff, negb_true_iff, forallb_false_iff.
    destruct s as [|c t]; simpl.
    + split; [intros [_ H]; discriminate H | intros [[c [[] _]] _]].
    + rewrite negb_true_iff. reflexivity.
Qed.

Lemma emailRegex_test_iff (v : JsValue) :
  RegExp_test emailRegex v = true <-> passesEmail v.
Proof.
  destruct v as [|s].
  - split; [discriminate | intros []].
  - apply emailRegex_spec.
Qed.

(** X10: the validator returns the empty list exactly when each of name,
    phone and company is either absent or has a unit that is not white
    space and does not open with a line terminator, and the e-mail is
    present and contains an [@]. *)
Theorem validationErrors_nil_iff (formData : JsObject) :
  validationErrors formData = [] <->
  passesNonEmpty (getProp formData config.selectors.name) /\
  passesEmail (getProp formData config.selectors.email) /\
  passesNonEmpty (getProp formData config.selectors.phone) /\
  passesNonEmpty (getProp formData config.selectors.company).
Proof.
  rewrite <- !nonEmptyRegex_test_iff, <- emailRegex_test_iff.
  unfold validationErrors, pushUnless.
  destruct (RegExp_test nonEmptyRegex (getProp formData config.selectors.name));
    destruct (RegExp_test emailRegex (getProp formData config.selectors.email));
    destruct (RegExp_test nonEmptyRegex
                (getProp formData config.selectors.phone));
    destruct (RegExp_test nonEmptyRegex
                (getProp formData config.selectors.company));
    cbn [app]; split;
    first [ discriminate
          | intros [? [? [? ?]]]; discriminate
          | intros; repeat split; reflexivity ].
Qed.

Lemma In_jsstring_eqb (m : jsstring) (l : list jsstring) :
  In m l <-> existsb (jsstring_eqb m) l = true.
Proof.
  rewrite existsb_exists. split.
  - intros H. exists m. split; [exact H | apply jsstring_eqb_refl].
  - intros [x [Hx Heq]]. apply jsstring_eqb_eq in Heq. subst x. exact Hx.
Qed.

(** X11: the four rules report independently of one another.  The message
    of a field is in the returned list exactly when that field fails its
    rule, whatever the other fields hold, and no message appears twice. *)
Theorem validationErrors_reports_each_failure (formData : JsObject) :
  let errors := validationErrors formData in
  (In msgNameEmpty errors <->
   ~ passesNonEmpty (getProp formData config.selectors.name)) /\
  (In msgEmailInvalid errors <->
   ~ passesEmail (getProp formData config.selectors.email)) /\
  (In msgPhoneEmpty errors <->
   ~ passesNonEmpty (getProp formData config.selectors.phone)) /\
  (In msgCompanyEmpty errors <->
   ~ passesNonEmpty (getProp formData config.selectors.company)) /\
  NoDup errors.
Proof.
  cbv zeta.
  rewrite <- !nonEmptyRegex_test_iff, <- emailRegex_test_iff.
  rewrite !In_jsstring_eqb.
  unfold validationErrors, pushUnless.
  destruct (RegExp_test nonEmptyRegex (getProp formData config.selectors.name));
    destruct (RegExp_test emailRegex (getProp formData config.selectors.email));
    destruct (RegExp_test nonEmptyRegex
                (getProp formData config.selectors.phone));
    destruct (RegExp_test nonEmptyRegex
                (getProp formData config.selectors.company));
    cbn [app];
    (repeat split;
     [ vm_compute;
       first [ intros _; reflexivity
             | intros _ H; discriminate H
             | intros H; exfalso; apply H; reflexivity
             | intros H; discriminate H ] .. | ]);
    repeat constructor; cbn [In]; intros H;
    repeat match goal with
           | H : _ \/ _ |- _ => destruct H as [H | H]
           end;
    try contradiction; vm_compute in H; discriminate H.
Qed.

(** ** The whole run: order of the steps *)

Ltac emits_run :=
  repeat first
    [ emits_step
    | apply Emits_page_url; reflexivity
    | apply Emits_rl_question; reflexivity
    | apply Emits_rl_close; reflexivity
    | apply Emits_retryClick;
      let e := fresh "e" in
      let He := fresh "He" in
      intros e He; destruct e; try discriminate He; reflexivity ].

Section RunOrder.

Context {W : Type} (drv : Driver W).

Lemma runAutomationWith_click_after_select (formData : JsObject) :
  forall s, OnlyAfter isEmployeesSelect isPageClick
                      (trace (runAutomationWith drv formData s)).
Proof.
  unfold runAutomationWith.
  do 4 (apply OnlyAfter_bind; [emits | intros ?]).
  apply OnlyAfter_tryCatch; [|intros; emits].
  do 2 (apply OnlyAfter_bind; [emits | intros ?]). cbv zeta.
  apply OnlyAfter_bind; [unfold ensureDirectoryExists; emits | intros ?].
  apply OnlyAfter_bind; [unfold ensureFormLoaded; emits | intros ?].
  apply OnlyAfter_bind; [unfold validateFormData; emits | intros errors].
  destruct (Nat.ltb 0 (List.length errors)).
  - apply OnlyAfter_Emits. emits.
  - apply OnlyAfter_bind;
      [unfold fillFormFields, Object_entries; emits | intros ?].
    apply OnlyAfter_bind; [emits | intros ?].
    apply OnlyAfter_bind_marks.
    + apply OnlyAfter_Emits. emits.
    + intros s0 u _. unfold page_select_. rewrite call_run. reflexivity.
Qed.

Lemma runAutomationWith_question_after_navigation (formData : JsObject) :
  forall s, OnlyAfter isNavigationWait isQuestion
                      (trace (runAutomationWith drv formData s)).
Proof.
  unfold runAutomationWith.
  do 4 (apply OnlyAfter_bind; [emits | intros ?]).
  apply OnlyAfter_tryCatch; [|intros; emits].
  do 2 (apply OnlyAfter_bind; [emits | intros ?]). cbv zeta.
  apply OnlyAfter_bind; [unfold ensureDirectoryExists; emits | intros ?].
  apply OnlyAfter_bind; [unfold ensureFormLoaded; emits | intros ?].
  apply OnlyAfter_bind; [unfold validateFormData; emits | intros errors].
  destruct (Nat.ltb 0 (List.length errors)).
  - apply OnlyAfter_Emits. emits.
  - apply OnlyAfter_bind;
      [unfold fillFormFields, Object_entries; emits | intros ?].
    do 2 (apply OnlyAfter_bind; [emits | intros ?]).
    apply OnlyAfter_bind_marks.
    + apply OnlyAfter_Emits.
      unfold submitFormAndValidate, validateThankYouPageContent. emits_run.
    + intros s0 verdict H.
      apply (@submitFormAndValidate_returned_marks _ drv _ _ s0 verdict H).
Qed.

(** X12: the order of the steps in every run, whatever the form data and
    the browser: the submit button is clicked only after the employees
    dropdown was set to 51-500, and the prompt to press ENTER is shown only
    after the navigation wait that follows the click. *)
Theorem runAutomation_steps_in_order (formData : JsObject) (s : State W) :
  let tr := trace (runAutomationWith drv formData s) in
  OnlyAfter isEmployeesSelect isPageClick tr /\
  OnlyAfter isNavigationWait isQuestion tr.
Proof.
  cbv zeta. split.
  - apply runAutomationWith_click_after_select.
  - apply runAutomationWith_question_after_navigation.
Qed.

End RunOrder.

(** ** The whole run: how it can end *)

Ltac noexit_run :=
  repeat first
    [ noexit_step
    | apply NoExit_retryClickLoop ].

Section RunEnds.

Context {W : Type} (drv : Driver W).

Lemma closes_app (a b : list Event) : closes (a ++ b) = closes a + closes b.
Proof. unfold closes. rewrite filter_app, length_app. reflexivity. Qed.

Lemma closes_quiet (tr : list Event) :
  forallb (fun e => negb (isBrowserClose e)) tr = true -> closes tr = 0.
Proof.
  unfold closes. induction tr as [|e tr IH]; simpl; [reflexivity|].
  intros H. apply andb_true_iff in H as [He Htr].
  destruct (isBrowserClose e); [discriminate He | apply IH, Htr].
Qed.

Lemma existsb_quiet (p : Event -> bool) (tr : list Event) :
  forallb (fun e => negb (p e)) tr = true -> existsb p tr = false.
Proof.
  induction tr as [|e tr IH]; simpl; [reflexivity|].
  intros H. apply andb_true_iff in H as [He Htr].
  destruct (p e); [discriminate He | apply IH, Htr].
Qed.

(** The [catch] block of [runAutomation]. *)
Lemma runAutomation_handler_ends (error : JsError) (s : State W) :
  let r := (logWithTimestamp drv (js "Error during automation: "
                                     ++ errMessage error) ;;
            browser_close_ drv ;; @process_exit W bool 1) s in
  ExitsAfterClose r /\
  existsb isBrowserClose (trace r) = true /\
  closes (trace r) = 1 /\
  (forall a, outcome r <> Returned a).
Proof.
  cbv zeta.
  unfold ExitsAfterClose, bind, browser_close_, call, process_exit,
    logWithTimestamp, Date_now, console_log, ret.
  cbn.
  destruct (browser_close drv (world s)) as [[[]|e] w1]; cbn.
  - split; [|split; [reflexivity
                    | split; [reflexivity | intros a H; discriminate H]]].
    intros c H. injection H as <-.
    split; [reflexivity | eexists [_]; reflexivity].
  - split; [intros c H; discriminate H
           | split; [reflexivity
                    | split; [reflexivity | intros a H; discriminate H]]].
Qed.

Lemma NoExit_runAutomation_try (formData : JsObject) :
  NoExit
    (page_goto_ drv config.formUrl ;;
     logWithTimestamp drv (js "Navigated to form URL.") ;;
     ensureDirectoryExists drv
       (path_join drv (dirname drv) (js "screenshots")) ;;
     ensureFormLoaded drv ;;
     validationErrors <- validateFormData drv formData ;;
     if Nat.ltb 0 (List.length validationErrors) then
       logWithTimestamp drv (js "Form validation failed. Errors:") ;;
       forOf validationErrors (fun error => logWithTimestamp drv error) ;;
       ret false
     else
       fillFormFields drv formData ;;
       logWithTimestamp drv
         (js "Changing the number of employees to 51-500...") ;;
       page_select_ drv config.selectors.employees (js "51-500") ;;
       submissionSuccess <- submitFormAndValidate drv
                              config.selectors.submitButton
                              (path_join drv (dirname drv) (js "screenshots")) ;;
       (if submissionSuccess : bool then
          logWithTimestamp drv (js "Form successfully submitted and validated.")
        else
          logWithTimestamp drv (js "Form submission failed.")) ;;
       logWithTimestamp drv
         (js "Automation completed. Press ENTER to exit and close the browser.") ;;
       rl_question (js "Press ENTER to exit and close the browser...") ;;
       ret true).
Proof.
  unfold ensureDirectoryExists, ensureFormLoaded, validateFormData,
    fillFormFields, Object_entries, submitFormAndValidate,
    validateThankYouPageContent, retryClick.
  noexit_run.
Qed.

Lemma ExitsAfterClose_bind {A B} (m : M W A) (f : A -> M W B) :
  NoExit m -> (forall a s, ExitsAfterClose (f a s)) ->
  forall s, ExitsAfterClose (bind m f s).
Proof.
  intros Hm Hf s c. rewrite outcome_bind, trace_bind.
  destruct (outcome (m s)) eqn:E;
    [|discriminate|intros _; exfalso; exact (Hm s _ E)].
  intros H. destruct (Hf _ _ c H) as [Hc [pre Hpre]].
  split; [exact Hc|]. exists (trace (m s) ++ pre).
  rewrite Hpre, app_assoc. reflexivity.
Qed.

Lemma ThrowsAfterClose_bind {A B} (m : M W A) (f : A -> M W B) :
  Emits (fun e => negb (isPageGoto e)) m ->
  (forall a s, ThrowsAfterClose (f a s)) ->
  forall s, ThrowsAfterClose (bind m f s).
Proof.
  intros Hm Hf s e. rewrite outcome_bind, trace_bind, !existsb_app.
  rewrite (existsb_quiet isPageGoto _ (Hm s)).
  destruct (outcome (m s)) eqn:E.
  - intros H. destruct (Hf _ _ e H) as [Hg | Hc].
    + left. exact Hg.
    + right. rewrite Hc. apply orb_true_r.
  - intros _. left. reflexivity.
  - discriminate.
Qed.

Lemma ClosesAtMostOnce_bind {A B} (m : M W A) (f : A -> M W B) :
  Emits (fun e => negb (isBrowserClose e)) m ->
  (forall a s, ClosesAtMostOnce (f a s)) ->
  forall s, ClosesAtMostOnce (bind m f s).
Proof.
  intros Hm Hf s. unfold ClosesAtMostOnce.
  rewrite outcome_bind, trace_bind, closes_app, (closes_quiet _ (Hm s)).
  destruct (outcome (m s)) eqn:E.
  - apply Hf.
  - split; [unfold closes; simpl; lia | discriminate].
  - split; [unfold closes; simpl; lia | discriminate].
Qed.

Lemma runAutomationWith_ends (formData : JsObject) (s : State W) :
  let r := runAutomationWith drv formData s in
  ExitsAfterClose r /\ ThrowsAfterClose r /\ ClosesAtMostOnce r.
Proof.
  cbv zeta. split; [|split].
  - revert s. unfold runAutomationWith.
    do 4 (apply ExitsAfterClose_bind; [noexit_run | intros ?]).
    intros s c. rewrite outcome_tryCatch, trace_tryCatch.
    pose proof (@NoExit_runAutomation_try formData s) as Hbody.
    match goal with
    | |- context [outcome (?body s)] => change (forall c, outcome (body s) <> Exited c) in Hbody
    end.
    destruct (outcome _) as [b|e|c'] eqn:E.
    + discriminate.
    + match goal with
      | |- context [final ?r0] => set (s1 := final r0) in *
      end.
      intros H.
      destruct (runAutomation_handler_ends e s1) as [Hexit _].
      destruct (Hexit c H) as [Hc [pre Hpre]].
      split; [exact Hc|]. eexists (_ ++ pre).
      rewrite Hpre, app_assoc. reflexivity.
    + exfalso. apply (Hbody c'). first [exact E | reflexivity].
  - revert s. unfold runAutomationWith.
    do 4 (apply ThrowsAfterClose_bind; [emits | intros ?]).
    intros s e. rewrite outcome_tryCatch, trace_tryCatch, !existsb_app.
    destruct (outcome _) as [b|e0|c'] eqn:E.
    + discriminate.
    + match goal with
      | |- context [final ?r0] => set (s1 := final r0) in *
      end.
      intros _. right.
      destruct (runAutomation_handler_ends e0 s1) as [_ [Hclose _]].
      rewrite Hclose. apply orb_true_r.
    + discriminate.
  - revert s. unfold runAutomationWith.
    do 4 (apply ClosesAtMostOnce_bind; [emits | intros ?]).
    intros s. unfold ClosesAtMostOnce.
    rewrite outcome_tryCatch, trace_tryCatch, closes_app.
    match goal with
    | |- context [outcome (?body s)] =>
        assert (Hq : Emits (fun e => negb (isBrowserClose e)) body)
    end.
    { unfold ensureDirectoryExists, ensureFormLoaded, validateFormData,
        fillFormFields, Object_entries, submitFormAndValidate,
        validateThankYouPageContent.
      emits_run. }
    rewrite (closes_quiet _ (Hq s)).
    destruct (outcome _) as [b|e0|c'] eqn:E.
    + split; [unfold closes; simpl; lia | intros; reflexivity].
    + match goal with
      | |- context [final ?r0] => set (s1 := final r0) in *
      end.
      destruct (runAutomation_handler_ends e0 s1) as [_ [_ [Hone Hnr]]].
      rewrite Hone. split; [lia|]. intros b H. exfalso. exact (Hnr b H).
    + split; [unfold closes; simpl; lia | discriminate].
Qed.


(** X13: how a run of [runAutomation] can end.  If it ends in
    [process.exit], the code is 1 and the exit comes right after a
    [browser.close()] that has completed.  If it throws, either the page
    was never navigated (the failure came from starting the browser) or
    [browser.close()] has been called.  The browser is closed at most once,
    and not at all in a run that returns. *)
Theorem runAutomation_ends (formData : JsObject) (s : State W) :
  let r := runAutomationWith drv formData s in
  ExitsAfterClose r /\ ThrowsAfterClose r /\ ClosesAtMostOnce r.
Proof. apply runAutomationWith_ends. Qed.

Lemma questionCallback_closes (s : State W) :
  closes (trace (questionCallback drv s)) = 1.
Proof.
  unfold questionCallback, rl_close, browser_close_, bind, call,
    logWithTimestamp, Date_now, console_log, ret.
  cbn. destruct (browser_close drv (world s)) as [[[]|e] w1]; reflexivity.
Qed.

(** X14: the whole program calls [browser.close()] at most once.  When
    [runAutomation] has shown the prompt and a line arrives on stdin, it
    calls it exactly once, from the callback of the prompt; when no line
    arrives, the browser is left open. *)
Theorem main_closes_browser_once (s : State W) :
  let run := runAutomation drv s in
  let r := main drv s in
  closes (trace r) <= 1 /\
  (outcome run = Returned true ->
   closes (trace r)
   = if fst (stdin_line drv (world (final run))) then 1 else 0).
Proof.
  cbv zeta. unfold main.
  destruct (runAutomationWith_ends theFormData s) as [_ [_ [Hle Hret]]].
  fold (runAutomation drv) in Hle, Hret.
  destruct (outcome (runAutomation drv s)) as [waiting|e|c] eqn:E.
  - rewrite trace_bind, outcome_tryCatch, trace_tryCatch, E.
    replace (final (tryCatch (runAutomation drv) (unhandledErrorHandler drv) s))
      with (final (runAutomation drv s))
      by (unfold tryCatch; destruct (runAutomation drv s) as [[?|?|?] ? ?];
          cbn in E; try discriminate E; reflexivity).
    rewrite !closes_app, (Hret waiting eq_refl).
    destruct waiting.
    + destruct (stdin_line drv (world (final (runAutomation drv s))))
        as [[] w]; cbn [fst].
      * rewrite questionCallback_closes. cbn. split; [lia | reflexivity].
      * cbn. split; [lia | reflexivity].
    + cbn. split; [lia | discriminate].
  - rewrite trace_bind, outcome_tryCatch, trace_tryCatch, E.
    rewrite !closes_app.
    change (closes (trace (unhandledErrorHandler drv e
                             (final (runAutomation drv s))))) with 0.
    change (outcome (unhandledErrorHandler drv e
                       (final (runAutomation drv s))))
      with (@Thrown bool (ReferenceError (js "browser"))).
    cbv iota. change (closes []) with 0.
    split; [lia | discriminate].
  - rewrite trace_bind, outcome_tryCatch, trace_tryCatch, E.
    rewrite !closes_app. change (closes []) with 0.
    split; [lia | discriminate].
Qed.

End RunEnds.

Lemma main_closes_browser_once_witness :
  closes (trace (main (simDriver timeoutError) (initial simForm)))
  = if fst (stdin_line (simDriver timeoutError)
              (world (final (runAutomation (simDriver timeoutError)
                                           (initial simForm)))))
    then 1 else 0.
Proof.
  apply (proj2 (main_closes_browser_once (simDriver timeoutError)
                                         (initial simForm))).
  vm_compute. reflexivity.
Defined.

(** ** The whole run: a validation failure is reported *)

Section ValidationReport.

Context {W : Type} (drv : Driver W).

Lemma bind_Returned_inv {A B} (m : M W A) (f : A -> M W B) (s : State W)
      (b : B) :
  outcome (bind m f s) = Returned b ->
  exists a, outcome (m s) = Returned a /\
            outcome (f a (final (m s))) = Returned b.
Proof.
  rewrite outcome_bind. destruct (outcome (m s)) as [a|e|c];
    [|discriminate|discriminate].
  intros H. exists a. split; [reflexivity | exact H].
Qed.

Lemma logged_app_r (message : jsstring) (a b : list Event) :
  logged message b = true -> logged message (a ++ b) = true.
Proof.
  unfold logged. rewrite existsb_app. intros ->. apply orb_true_r.
Qed.

Lemma logged_app_l (message : jsstring) (a b : list Event) :
  logged message a = true -> logged message (a ++ b) = true.
Proof. unfold logged. rewrite existsb_app. intros ->. reflexivity. Qed.

(** [validationErrors.forEach(error => logWithTimestamp(error))] writes
    every message. *)
Lemma forOf_log_all (messages : list jsstring) (s : State W) (m : jsstring) :
  In m messages ->
  logged m (trace (forOf messages (fun error => logWithTimestamp drv error) s))
  = true /\
  outcome (forOf messages (fun error => logWithTimestamp drv error) s)
  = Returned tt.
Proof.
  revert s. induction messages as [|x xs IH]; intros s Hin; [destruct Hin|].
  cbn [forOf]. rewrite trace_bind, outcome_bind, logWithTimestamp_run.
  cbn [outcome final trace].
  assert (Hret : forall s0, outcome (forOf xs (fun error =>
                     logWithTimestamp drv error) s0) = Returned tt).
  { clear. induction xs as [|y ys IHy]; intros s0; [reflexivity|].
    cbn [forOf]. rewrite outcome_bind, logWithTimestamp_run.
    cbn [outcome final]. apply IHy. }
  split; [|apply Hret].
  destruct Hin as [-> | Hin].
  - apply logged_app_l. cbn. rewrite jsstring_eqb_refl. reflexivity.
  - apply logged_app_r. apply IH, Hin.
Qed.

(** X15: when [runAutomation] returns without having shown the prompt, the
    validator had found errors and each of its messages was written to the
    log, after the line "Form validation failed. Errors:". *)
Theorem runAutomation_logs_validation_errors (formData : JsObject)
        (s : State W) :
  let r := runAutomationWith drv formData s in
  outcome r = Returned false ->
  validationErrors formData <> [] /\
  logged (js "Form validation failed. Errors:") (trace r) = true /\
  forall m, In m (validationErrors formData) -> logged m (trace r) = true.
Proof.
  cbv zeta. unfold runAutomationWith. intros H.
  assert (Hgoal :
    validationErrors formData <> [] /\
    forall m, m = js "Form validation failed. Errors:" \/
              In m (validationErrors formData) ->
              logged m (trace (runAutomationWith drv formData s)) = true);
    [|destruct Hgoal as [Hne Hall]; split; [exact Hne|];
      split; [apply Hall; left; reflexivity | intros m Hm; apply Hall; right;
                                              exact Hm]].
  unfold runAutomationWith.
  do 4 (apply bind_Returned_inv in H;
        let Hs := fresh "Hs" in
        destruct H as [? [Hs H]]; rewrite trace_bind, Hs; cbv iota beta).
  rewrite outcome_tryCatch in H. rewrite trace_tryCatch.
  match type of H with
  | context [outcome (?body ?s1)] =>
      destruct (outcome (body s1)) as [b|e|c] eqn:EB
  end;
    [ | exfalso;
        match type of H with
        | outcome (_ ?s2) = _ =>
            destruct (runAutomation_handler_ends drv e s2) as [_ [_ [_ Hnr]]]
        end; exact (Hnr _ H)
      | discriminate H ].
  injection H as ->. rename EB into H. rewrite app_nil_r.
  do 4 (apply bind_Returned_inv in H;
        let Hs := fresh "Hs" in
        destruct H as [? [Hs H]]; rewrite trace_bind, Hs; cbv iota beta).
  apply bind_Returned_inv in H. destruct H as [errors [Hstep H]].
  rewrite trace_bind, Hstep. cbv iota beta.
  rewrite validateFormData_outcome in Hstep. injection Hstep as <-.
  destruct (Nat.ltb 0 (List.length (validationErrors formData))) eqn:Hlen.
  - split.
    + intros Hnil. rewrite Hnil in Hlen. discriminate Hlen.
    + intros m Hm. do 9 apply logged_app_r.
      rewrite trace_bind, logWithTimestamp_run. cbn [outcome final trace].
      destruct Hm as [-> | Hm].
      * apply logged_app_l. unfold logged. cbn [existsb].
        rewrite jsstring_eqb_refl. reflexivity.
      * apply logged_app_r. rewrite trace_bind.
        match goal with
        | |- context [forOf _ _ ?s3] =>
            destruct (forOf_log_all (validationErrors formData) s3 m Hm)
              as [Hlog _]
        end.
        apply logged_app_l, Hlog.
  - exfalso.
    do 7 (apply bind_Returned_inv in H; destruct H as [? [_ H]]).
    discriminate H.
Qed.

End ValidationReport.

Lemma runAutomation_logs_validation_errors_witness :
  logged msgEmailInvalid
         (trace (runAutomationWith (simDriver timeoutError) formDataNoAt
                                   (initial simForm))) = true.
Proof.
  apply (runAutomation_logs_validation_errors (simDriver timeoutError)
           formDataNoAt (initial simForm)).
  - vm_compute. reflexivity.
  - vm_compute. left. reflexivity.
Defined.

(** ** Errors are passed on as they came *)

Lemma forOf_waits_thrown {W} (drv : Driver W) (timeout : N)
      (xs : list jsstring) (s : State W) (e : JsError) :
  outcome (forOf xs (fun selector =>
                       page_waitForSelector_ drv selector true timeout) s)
  = Thrown e ->
  exists selector w,
    In selector xs /\
    fst (page_waitForSelector drv selector true timeout w) = Abrupt e.
Proof.
  revert s. induction xs as [|x xs IH]; intros s; [discriminate|].
  cbn [forOf]. rewrite outcome_bind.
  change (page_waitForSelector_ drv x true timeout s)
    with (call (PageWaitForSelector x true timeout)
               (page_waitForSelector drv x true timeout) s).
  rewrite call_run. cbn [outcome final].
  destruct (fst (page_waitForSelector drv x true timeout (world s)))
    as [[]|e0] eqn:E.
  - intros H. destruct (IH _ H) as [selector [w [Hin Hw]]].
    exists selector, w. split; [right; exact Hin | exact Hw].
  - intros H. injection H as <-. exists x, (world s).
    split; [left; reflexivity | exact E].
Qed.

(** X16: [ensureFormLoaded] throws no error of its own: what it throws is
    the error of one of its seven waits, unchanged. *)
Theorem ensureFormLoaded_rethrows_wait_error {W} (drv : Driver W)
        (s : State W) (e : JsError) :
  outcome (ensureFormLoaded drv s) = Thrown e ->
  exists selector visible timeout w,
    In (PageWaitForSelector selector visible timeout) formLoadWaits /\
    fst (page_waitForSelector drv selector visible timeout w) = Abrupt e.
Proof.
  unfold ensureFormLoaded, formLoadWaits. cbv zeta.
  generalize (Object_values config.selectorsObject) as xs. intros xs.
  pose proof (forOf_waits_thrown drv 20000 xs) as Hloop.
  match goal with
  | |- context [forOf xs ?b] => remember (forOf xs b) as loop eqn:Heqloop
  end.
  clear Heqloop.
  unfold bind, tryCatch, page_waitForSelector_, call, logWithTimestamp,
    Date_now, console_log, ret, throw.
  cbn.
  destruct (page_waitForSelector drv (js "body") false 30000 (world s))
    as [[[]|e0] w1] eqn:Ebody; cbn.
  - match goal with
    | |- context [loop ?s1] =>
        specialize (Hloop s1); destruct (loop s1) as [[[]|e1|c] s2 t2]
    end; cbn in *; intros H; try discriminate H.
    injection H as <-.
    destruct (Hloop e1 eq_refl) as [selector [w [Hin Hw]]].
    exists selector, true, 20000%N, w. split; [|exact Hw].
    right. apply in_map_iff. exists selector. split; [reflexivity | exact Hin].
  - intros H. injection H as <-.
    exists (js "body"), false, 30000%N, (world s).
    split; [left; reflexivity | rewrite Ebody; reflexivity].
Qed.

(** X17: [fillFormFields] throws no error of its own: what it throws is the
    error of the visibility wait or of the [page.type] of one of the entries
    of the form data, unchanged. *)
Theorem fillFormFields_rethrows_driver_error {W} (drv : Driver W)
        (formData : JsObject) (s : State W) (e : JsError) :
  outcome (fillFormFields drv formData s) = Thrown e ->
  exists selector value,
    In (selector, value) formData /\
    ((exists w,
         fst (page_waitForSelector drv selector true 20000 w) = Abrupt e) \/
     (exists delay w,
         fst (page_type drv selector value delay w) = Abrupt e)).
Proof.
  unfold fillFormFields.
  match goal with
  | |- context [forOf (Object_entries formData) ?b] => set (body := b)
  end.
  assert (Hbody : forall selector value s0 e0,
             outcome (body (selector, value) s0) = Thrown e0 ->
             (exists w, fst (page_waitForSelector drv selector true 20000 w)
                        = Abrupt e0) \/
             (exists delay w, fst (page_type drv selector value delay w)
                              = Abrupt e0)).
  { intros selector value s0 e0. subst body. cbv beta iota zeta.
    unfold tryCatch, bind, page_waitForSelector_, page_type_, call,
      Math_floor_random_100, logWithTimestamp, Date_now, console_log, ret,
      throw.
    cbn.
    destruct (page_waitForSelector drv selector true 20000 (world s0))
      as [[[]|e1] w1] eqn:Ew; cbn.
    - destruct (page_type drv selector value _ w1) as [[[]|e2] w2] eqn:Et;
        cbn; intros H; try discriminate H.
      injection H as <-. right. eexists. exists w1. rewrite Et. reflexivity.
    - intros H. injection H as <-. left. exists (world s0).
      rewrite Ew. reflexivity. }
  assert (Hloop : forall entries s0,
             outcome (forOf entries body s0) = Thrown e ->
             exists selector value,
               In (selector, value) entries /\
               ((exists w, fst (page_waitForSelector drv selector true 20000 w)
                           = Abrupt e) \/
                (exists delay w, fst (page_type drv selector value delay w)
                                 = Abrupt e))).
  { induction entries as [|[selector value] rest IH]; intros s0;
      [discriminate|].
    cbn [forOf]. rewrite outcome_bind.
    destruct (outcome (body (selector, value) s0)) as [[]|e0|c] eqn:Eb.
    - intros H. destruct (IH _ H) as [sel [v [Hin Hcase]]].
      exists sel, v. split; [right; exact Hin | exact Hcase].
    - intros H. injection H as ->.
      exists selector, value. split; [left; reflexivity|].
      apply (Hbody selector value s0 e Eb).
    - discriminate. }
  rewrite outcome_bind, logWithTimestamp_run. cbn [outcome final].
  intros H. destruct (Hloop _ _ H) as [selector [value [Hin Hcase]]].
  exists selector, value. split; [apply Object_entries_In, Hin | exact Hcase].
Qed.

Lemma ensureFormLoaded_rethrows_wait_error_witness :
  exists selector visible timeout w,
    In (PageWaitForSelector selector visible timeout) formLoadWaits /\
    fst (page_waitForSelector simDriverNoPhone selector visible timeout w)
    = Abrupt timeoutError.
Proof.
  apply (ensureFormLoaded_rethrows_wait_error simDriverNoPhone
                                              (initial simForm)).
  vm_compute. reflexivity.
Defined.

Lemma fillFormFields_rethrows_driver_error_witness :
  exists selector value,
    In (selector, value) theFormData /\
    ((exists w,
         fst (page_waitForSelector simDriverNoPhone selector true 20000 w)
         = Abrupt timeoutError) \/
     (exists delay w,
         fst (page_type simDriverNoPhone selector value delay w)
         = Abrupt timeoutError)).
Proof.
  apply (fillFormFields_rethrows_driver_error simDriverNoPhone theFormData
                                              (initial simForm)).
  vm_compute. reflexivity.
Defined.

(** On the page without the phone field the name and the e-mail are typed
    and nothing after them. *)
Example fillFormFields_stops_at_first_failure :
  let r := fillFormFields simDriverNoPhone theFormData (initial simForm) in
  outcome r = Thrown timeoutError /\
  simTyped (world (final r))
  = [ (config.selectors.name, js "Eden Oved");
      (config.selectors.email, js "edenoved.swe@gmail.com") ].
Proof. vm_compute. split; reflexivity. Qed.

(** ** The whole run: typing waits for the form *)

Section TypesAfterLoad.

Context {W : Type} (drv : Driver W).

Lemma existsb_calls (p : Event -> bool) (tr : list Event) :
  existsb p (calls tr) = true -> existsb p tr = true.
Proof.
  rewrite !existsb_exists. intros [e [Hin Hp]].
  exists e. split; [|exact Hp]. apply filter_In in Hin. apply Hin.
Qed.

Lemma ensureFormLoaded_returned_marks (s : State W) (u : unit) :
  outcome (ensureFormLoaded drv s) = Returned u ->
  existsb isSubmitButtonLoadWait (trace (ensureFormLoaded drv s)) = true.
Proof.
  intros H. destruct u. apply existsb_calls.
  destruct (ensureFormLoaded_calls drv s) as [_ [Hall _]].
  rewrite (Hall H). reflexivity.
Qed.

(** X18: in every run each [page.type] comes after the last wait of
    [ensureFormLoaded], the one for the visible submit button: nothing is
    typed before the whole form was found loaded. *)
Theorem runAutomation_types_after_form_loaded (formData : JsObject)
        (s : State W) :
  OnlyAfter isSubmitButtonLoadWait isPageType
            (trace (runAutomationWith drv formData s)).
Proof.
  revert s. unfold runAutomationWith.
  do 4 (apply OnlyAfter_bind; [emits | intros ?]).
  apply OnlyAfter_tryCatch; [|intros; emits].
  do 2 (apply OnlyAfter_bind; [emits | intros ?]). cbv zeta.
  apply OnlyAfter_bind; [unfold ensureDirectoryExists; emits | intros ?].
  apply OnlyAfter_bind_marks.
  - apply OnlyAfter_Emits. unfold ensureFormLoaded. emits.
  - apply ensureFormLoaded_returned_marks.
Qed.

End TypesAfterLoad.
